(** * Confluence sync core: change detection, page storage, remote fetch

    A shallow embedding of the synchronisation core of the Confluence
    chatbot: [ChangeDetector] (src/sync/change-detector.js), [PageStorage]
    (src/confluence/storage.js) and [ConfluenceClient.getAllPages]
    (src/confluence/client.js), over an explicit model of the record
    store, the file system and the remote source. *)

From Stdlib Require Import String Ascii DecimalString.
From Stdlib Require Import ZArith List Bool Lia Arith.
Import ListNotations.
Local Open Scope Z_scope.

(** * JavaScript strings

    A JavaScript string is a sequence of UTF-16 code units; [length],
    [substring] and the regular expressions without the [u] flag all work
    on code units. *)

Definition jsstring := list Z.

(** An ASCII literal as a JavaScript string. *)
Definition str (s : string) : jsstring :=
  map (fun a => Z.of_nat (nat_of_ascii a)) (list_ascii_of_string s).

Definition jsstring_dec : forall a b : jsstring, {a = b} + {a <> b} :=
  list_eq_dec Z.eq_dec.

(** [a === b] on strings. *)
Definition str_eqb (a b : jsstring) : bool :=
  if jsstring_dec a b then true else false.

(** [set.has(x)] / [array.includes(x)] on strings. *)
Definition str_mem (x : jsstring) (l : list jsstring) : bool :=
  existsb (str_eqb x) l.

(** A value used as a condition: a missing ([undefined]/[null]) or empty
    string is falsy. *)
Definition truthy (s : option jsstring) : bool :=
  match s with
  | Some (_ :: _) => true
  | _ => false
  end.

Definition HYPHEN : Z := 45.
Definition UNDERSCORE : Z := 95.
Definition SLASH : Z := 47.

(** The class [\s] of ECMAScript: white space and line terminators. *)
Definition isSpace (c : Z) : bool :=
  ((9 <=? c) && (c <=? 13)) || (c =? 32) || (c =? 160) || (c =? 5760)
  || ((8192 <=? c) && (c <=? 8202)) || (c =? 8232) || (c =? 8233)
  || (c =? 8239) || (c =? 8287) || (c =? 12288) || (c =? 65279).

Definition isLower (c : Z) : bool := (97 <=? c) && (c <=? 122).
Definition isUpper (c : Z) : bool := (65 <=? c) && (c <=? 90).
Definition isDigit (c : Z) : bool := (48 <=? c) && (c <=? 57).
Definition isHyphen (c : Z) : bool := c =? HYPHEN.

(** The class [[a-zA-Z0-9-_]]. *)
Definition isNameChar (c : Z) : bool :=
  isLower c || isUpper c || isDigit c || isHyphen c || (c =? UNDERSCORE).

(** [s.replace(/X+/g, r)] for a character class [X]: every maximal run of
    characters of the class is replaced by [r].  [inRun] tells that the
    previous character belonged to the run being replaced. *)
Fixpoint replaceRuns_from (X : Z -> bool) (r : jsstring) (inRun : bool)
    (s : jsstring) : jsstring :=
  match s with
  | [] => []
  | c :: t =>
      if X c then
        if inRun then replaceRuns_from X r true t
        else r ++ replaceRuns_from X r true t
      else c :: replaceRuns_from X r false t
  end.

Definition replaceRuns (X : Z -> bool) (r s : jsstring) : jsstring :=
  replaceRuns_from X r false s.

(** [s.replace(/[^...]/g, '')]: the characters outside the class go. *)
Definition removeOutside (X : Z -> bool) (s : jsstring) : jsstring :=
  filter X s.

(** [s.replace(/^-|-$/g, '')]: the scan is left to right and the matches do
    not overlap, so a hyphen at the start goes first and then, in what is
    left, a hyphen at the end. *)
Definition dropLeadingHyphen (s : jsstring) : jsstring :=
  match s with
  | c :: t => if isHyphen c then t else s
  | [] => []
  end.

Fixpoint dropTrailingHyphen (s : jsstring) : jsstring :=
  match s with
  | [] => []
  | c :: t =>
      match t with
      | [] => if isHyphen c then [] else [c]
      | _ :: _ => c :: dropTrailingHyphen t
      end
  end.

Definition trimHyphens (s : jsstring) : jsstring :=
  dropTrailingHyphen (dropLeadingHyphen s).

(** [toLowerCase] on the code units [A-Z]; the other code units of the
    strings it is applied to here ([a-z0-9-_]) have no lower case. *)
Definition lowerChar (c : Z) : Z := if isUpper c then c + 32 else c.
Definition toLowerCase (s : jsstring) : jsstring := map lowerChar s.

(** [s.substring(0, n)] for [n >= 0]. *)
Definition substring0 (n : nat) (s : jsstring) : jsstring := firstn n s.

(** * PageStorage: file names *)

(** [PageStorage.sanitizeFilename] *)
Definition sanitizeFilename (filename : jsstring) : jsstring :=
  substring0 100
    (toLowerCase
      (trimHyphens
        (replaceRuns isHyphen [HYPHEN]
          (removeOutside isNameChar
            (replaceRuns isSpace [HYPHEN] filename))))).

(** * Data model *)

(** A page as the Confluence API reports it ([page.id], [page.title],
    [page.space.key], [page.version.number], [page._links?.webui]). *)
Record Page := {
  id : jsstring;
  title : jsstring;
  page_space_key : jsstring;
  version_number : Z;
  links_webui : option jsstring
}.

(** A row of the table [synced_pages]. *)
Record SyncedPage := {
  page_id : jsstring;
  space_key : jsstring;
  synced_title : jsstring;
  version : Z;
  last_synced : jsstring;
  file_path : option jsstring;
  file_search_store_name : option jsstring;
  url : option jsstring
}.

(** The part of [config] that the modelled code reads. *)
Record Config := {
  contentDir : jsstring;
  baseUrl : jsstring;
  maxPagesPerSync : Z;
  excludeArchived : bool
}.

(** The file system: the directories that exist and the regular files
    with their contents, both by path. *)
Record FileSystem := {
  fs_dirs : list jsstring;
  fs_files : list (jsstring * jsstring)
}.

(** What a call returns: a value, or a thrown [Error] with its message. *)
Inductive Outcome (A : Type) : Type :=
| Ok (a : A)
| Throw (message : jsstring).
Arguments Ok {A} a.
Arguments Throw {A} message.

(** The operations of the environment that can fail for reasons outside
    the model (a locked database, a permission, a full disk). *)
Inductive DbOp :=
| DbUpsert (row : SyncedPage)
| DbDelete (pageId : jsstring).

Inductive FsOp :=
| FsWrite (path : jsstring)
| FsUnlink (path : jsstring).

(** The parameters of [GET /content]. *)
Record ContentQuery := {
  q_spaceKey : jsstring;
  q_status : jsstring;
  q_limit : Z;
  q_start : Z
}.

(** Everything the code reads or writes besides its arguments. *)
Record World := {
  synced_pages : list SyncedPage;
  fs : FileSystem;
  config : Config;
  clock : jsstring;                       (* new Date().toISOString() *)
  db_fault : DbOp -> option jsstring;     (* Some m: the statement throws m *)
  fs_fault : FsOp -> option jsstring;     (* Some m: the call throws m *)
  remote : ContentQuery -> Outcome (option (list Page))
                                          (* response.data.results, or the
                                             request fails *)
}.

Definition set_synced_pages (rows : list SyncedPage) (w : World) : World :=
  {| synced_pages := rows; fs := fs w; config := config w; clock := clock w;
     db_fault := db_fault w; fs_fault := fs_fault w; remote := remote w |}.

Definition set_fs (f : FileSystem) (w : World) : World :=
  {| synced_pages := synced_pages w; fs := f; config := config w;
     clock := clock w; db_fault := db_fault w; fs_fault := fs_fault w;
     remote := remote w |}.

(** * Computations: state and exceptions

    A computation runs on a state and returns a value or throws; a thrown
    error leaves the effects that happened before it in place.  [M] is the
    case where the state is the world alone; a method with mutable locals
    that its [catch] blocks read runs on the pair of its locals and the
    world. *)

Definition Comp (S A : Type) : Type := S -> Outcome A * S.

Definition M (A : Type) : Type := Comp World A.

Definition ret {S A} (a : A) : Comp S A := fun s => (Ok a, s).

Definition throw {S A} (message : jsstring) : Comp S A :=
  fun s => (Throw message, s).

Definition bind {S A B} (c : Comp S A) (k : A -> Comp S B) : Comp S B :=
  fun s =>
    match c s with
    | (Ok a, s') => k a s'
    | (Throw m, s') => (Throw m, s')
    end.

(** [try { body } catch (error) { handler(error.message) }] *)
Definition try_catch {S A} (body : Comp S A) (handler : jsstring -> Comp S A)
    : Comp S A :=
  fun s =>
    match body s with
    | (Ok a, s') => (Ok a, s')
    | (Throw m, s') => handler m s'
    end.

(** A computation on the world, run where there are locals too. *)
Definition lift {L A} (c : M A) : Comp (L * World) A :=
  fun s =>
    match c (snd s) with
    | (o, w') => (o, (fst s, w'))
    end.

(** An assignment to the locals. *)
Definition update {L} (f : L -> L) : Comp (L * World) unit :=
  fun s => (Ok tt, (f (fst s), snd s)).

Declare Scope js_scope.
Delimit Scope js_scope with js.
Notation "x <- c ;; k" := (bind c (fun x => k))
  (at level 61, c at next level, right associativity) : js_scope.
Notation "c ;;; k" := (bind c (fun _ => k))
  (at level 61, right associativity) : js_scope.
Local Open Scope js_scope.

(** [for (const x of xs) { acc = body(x, acc) }] *)
Fixpoint for_of {S A B} (xs : list A) (body : A -> B -> Comp S B) (acc : B)
    : Comp S B :=
  match xs with
  | [] => ret acc
  | x :: rest => acc' <- body x acc ;; for_of rest body acc'
  end.

(** [for (const x of xs) { body(x) }] *)
Fixpoint for_each {S A} (xs : list A) (body : A -> Comp S unit)
    : Comp S unit :=
  match xs with
  | [] => ret tt
  | x :: rest => body x ;;; for_each rest body
  end.

(** * The record store

    src/utils/database.js is not among the sources.  Its operations are
    modelled from the contract of section 6 of the specification ([get],
    [getByCollection], [getAll], [upsert], [delete], at most one record
    per id), under the names the callers use; the queries quoted are those
    of the DatabaseManager listing in _ai/tasks. *)

Definition has_id (pid : jsstring) (r : SyncedPage) : bool :=
  str_eqb (page_id r) pid.

(** Modelled from the spec: [db.getPage] of src/utils/database.js, the
    [get(id)] of the record store: the record with this id, if any
    ([SELECT * FROM synced_pages WHERE page_id = ?]). *)
Definition db_getPage (pid : jsstring) : M (option SyncedPage) :=
  fun w => (Ok (find (has_id pid) (synced_pages w)), w).

(** Lexicographic [<] on code units (text comparison). *)
Fixpoint str_ltb (a b : jsstring) : bool :=
  match a, b with
  | _, [] => false
  | [], _ :: _ => true
  | x :: a', y :: b' => (x <? y) || ((x =? y) && str_ltb a' b')
  end.

Fixpoint insert_desc (r : SyncedPage) (rows : list SyncedPage)
    : list SyncedPage :=
  match rows with
  | [] => [r]
  | r' :: rest =>
      if str_ltb (last_synced r) (last_synced r')
      then r' :: insert_desc r rest
      else r :: rows
  end.

Definition order_by_last_synced_desc (rows : list SyncedPage)
    : list SyncedPage :=
  fold_right insert_desc [] rows.

(** Modelled from the spec: [db.getAllPages] of src/utils/database.js, the
    [getAll()] of the record store
    ([SELECT * FROM synced_pages ORDER BY last_synced DESC]). *)
Definition db_getAllPages : M (list SyncedPage) :=
  fun w => (Ok (order_by_last_synced_desc (synced_pages w)), w).

(** Modelled from the spec: [db.getPagesBySpace] of src/utils/database.js,
    the [getByCollection(collectionKey)] of the record store
    ([SELECT * FROM synced_pages WHERE space_key = ?]). *)
Definition db_getPagesBySpace (spaceKey : jsstring) : M (list SyncedPage) :=
  fun w =>
    (Ok (filter (fun r => str_eqb (space_key r) spaceKey) (synced_pages w)),
     w).

Fixpoint upsert_row (row : SyncedPage) (rows : list SyncedPage)
    : list SyncedPage :=
  match rows with
  | [] => [row]
  | r :: rest =>
      if has_id (page_id row) r then row :: rest
      else r :: upsert_row row rest
  end.

(** Modelled from the spec: [db.upsertPage] of src/utils/database.js, the
    [upsert(record)] of the record store
    ([INSERT ... ON CONFLICT(page_id) DO UPDATE ...]): the row with this id
    is rewritten in place, or the row is added. *)
Definition db_upsertPage (row : SyncedPage) : M unit :=
  fun w =>
    match db_fault w (DbUpsert row) with
    | Some m => (Throw m, w)
    | None => (Ok tt, set_synced_pages (upsert_row row (synced_pages w)) w)
    end.

(** Modelled from the spec: [db.deletePage] of src/utils/database.js, the
    [delete(id)] of the record store
    ([DELETE FROM synced_pages WHERE page_id = ?]). *)
Definition db_deletePage (pid : jsstring) : M unit :=
  fun w =>
    match db_fault w (DbDelete pid) with
    | Some m => (Throw m, w)
    | None =>
        (Ok tt,
         set_synced_pages
           (filter (fun r => negb (has_id pid r)) (synced_pages w)) w)
    end.

(** * The file system ([fs] and [path] of Node)

    Paths are compared as strings; [path.join] is modelled on operands that
    are already normalised, where it puts one separator between them. *)

Definition path_join (dir name : jsstring) : jsstring :=
  dir ++ [SLASH] ++ name.

(** A path cut at its last separator: the directory and the base name. *)
Fixpoint split_last_slash (p : jsstring) : option (jsstring * jsstring) :=
  match p with
  | [] => None
  | c :: t =>
      match split_last_slash t with
      | Some (d, b) => Some (c :: d, b)
      | None => if c =? SLASH then Some ([], t) else None
      end
  end.

Definition fs_paths (f : FileSystem) : list jsstring :=
  fs_dirs f ++ map fst (fs_files f).

Definition is_dir (f : FileSystem) (p : jsstring) : bool :=
  str_mem p (fs_dirs f).

Definition is_file (f : FileSystem) (p : jsstring) : bool :=
  str_mem p (map fst (fs_files f)).

(** [fs.existsSync(p)] *)
Definition existsSync (p : jsstring) : M bool :=
  fun w => (Ok (is_dir (fs w) p || is_file (fs w) p), w).

Definition ENOENT (p : jsstring) : jsstring :=
  str "ENOENT: no such file or directory, '" ++ p ++ str "'".
Definition ENOTDIR (p : jsstring) : jsstring :=
  str "ENOTDIR: not a directory, '" ++ p ++ str "'".
Definition EISDIR (p : jsstring) : jsstring :=
  str "EISDIR: illegal operation on a directory, '" ++ p ++ str "'".

Definition parent_exists (f : FileSystem) (p : jsstring) : bool :=
  match split_last_slash p with
  | Some (d, _) => is_dir f d
  | None => true                 (* a bare name: the working directory *)
  end.

Fixpoint put_file (p data : jsstring) (files : list (jsstring * jsstring))
    : list (jsstring * jsstring) :=
  match files with
  | [] => [(p, data)]
  | (q, d) :: rest =>
      if str_eqb q p then (p, data) :: rest
      else (q, d) :: put_file p data rest
  end.

(** [fs.writeFileSync(p, data, 'utf-8')] *)
Definition writeFileSync (p data : jsstring) : M unit :=
  fun w =>
    match fs_fault w (FsWrite p) with
    | Some m => (Throw m, w)
    | None =>
        if is_dir (fs w) p then (Throw (EISDIR p), w)
        else if negb (parent_exists (fs w) p) then (Throw (ENOENT p), w)
        else
          (Ok tt,
           set_fs {| fs_dirs := fs_dirs (fs w);
                     fs_files := put_file p data (fs_files (fs w)) |} w)
    end.

Definition remove_file (p : jsstring) (f : FileSystem) : FileSystem :=
  {| fs_dirs := fs_dirs f;
     fs_files := filter (fun e => negb (str_eqb (fst e) p)) (fs_files f) |}.

(** [fs.unlinkSync(p)] *)
Definition unlinkSync (p : jsstring) : M unit :=
  fun w =>
    match fs_fault w (FsUnlink p) with
    | Some m => (Throw m, w)
    | None =>
        if is_file (fs w) p then (Ok tt, set_fs (remove_file p (fs w)) w)
        else (Throw (ENOENT p), w)
    end.

Definition children (dir : jsstring) (paths : list jsstring) : list jsstring :=
  flat_map
    (fun e =>
       match split_last_slash e with
       | Some (d, b) => if str_eqb d dir then [b] else []
       | None => []
       end)
    paths.

(** [fs.readdirSync(dir)] *)
Definition readdirSync (dir : jsstring) : M (list jsstring) :=
  fun w =>
    if is_dir (fs w) dir then (Ok (children dir (fs_paths (fs w))), w)
    else if is_file (fs w) dir then (Throw (ENOTDIR dir), w)
    else (Throw (ENOENT dir), w).

(** [fs.statSync(p).isDirectory()] *)
Definition statSync_isDirectory (p : jsstring) : M bool :=
  fun w =>
    if is_dir (fs w) p then (Ok true, w)
    else if is_file (fs w) p then (Ok false, w)
    else (Throw (ENOENT p), w).

(** [s.endsWith(suffix)] *)
Definition endsWith (s suffix : jsstring) : bool :=
  str_eqb (skipn (length s - length suffix) s) suffix
  && (length suffix <=? length s)%nat.

(** * ChangeDetector *)

(** The counters that [detectChanges] keeps and prints. *)
Record Stats := {
  stat_total : Z;
  stat_new : Z;
  stat_updated : Z;
  stat_unchanged : Z
}.

Definition incr_new (s : Stats) : Stats :=
  {| stat_total := stat_total s; stat_new := stat_new s + 1;
     stat_updated := stat_updated s; stat_unchanged := stat_unchanged s |}.

Definition incr_updated (s : Stats) : Stats :=
  {| stat_total := stat_total s; stat_new := stat_new s;
     stat_updated := stat_updated s + 1; stat_unchanged := stat_unchanged s |}.

Definition incr_unchanged (s : Stats) : Stats :=
  {| stat_total := stat_total s; stat_new := stat_new s;
     stat_updated := stat_updated s; stat_unchanged := stat_unchanged s + 1 |}.

(** [ChangeDetector.hasPageChanged] *)
Definition hasPageChanged (confluencePage : Page) (syncedPage : SyncedPage)
    : bool :=
  if version_number confluencePage >? version syncedPage then true
  else if negb (str_eqb (title confluencePage) (synced_title syncedPage))
  then true
  else false.

(** The body of the loop of [detectChanges], on the locals
    [(changedPages, stats)]. *)
Definition detectChanges_step (page : Page) (locals : list Page * Stats)
    : M (list Page * Stats) :=
  let '(changedPages, stats) := locals in
  syncedPage <- db_getPage (id page) ;;
  match syncedPage with
  | None => ret (changedPages ++ [page], incr_new stats)
  | Some syncedPage =>
      if hasPageChanged page syncedPage
      then ret (changedPages ++ [page], incr_updated stats)
      else ret (changedPages, incr_unchanged stats)
  end.

(** [detectChanges] up to its [return]: the list and the counters that
    the method prints. *)
Definition detectChanges_scan (confluencePages : list Page)
    : M (list Page * Stats) :=
  for_of confluencePages detectChanges_step
    ([], {| stat_total := Z.of_nat (length confluencePages); stat_new := 0;
            stat_updated := 0; stat_unchanged := 0 |}).

(** [ChangeDetector.detectChanges] *)
Definition detectChanges (confluencePages : list Page) : M (list Page) :=
  locals <- detectChanges_scan confluencePages ;;
  ret (fst locals).

(** [[...new Set(xs)]]: the distinct values in order of first occurrence. *)
Fixpoint unique_from (seen xs : list jsstring) : list jsstring :=
  match xs with
  | [] => []
  | x :: rest =>
      if str_mem x seen then unique_from seen rest
      else x :: unique_from (seen ++ [x]) rest
  end.

Definition unique (xs : list jsstring) : list jsstring := unique_from [] xs.

(** The loop shared by the two deletion detectors: the synced pages whose
    id is not in the set. *)
Definition not_in_confluence (confluencePageIds : list jsstring)
    (syncedPages : list SyncedPage) : list SyncedPage :=
  filter (fun syncedPage => negb (str_mem (page_id syncedPage) confluencePageIds))
    syncedPages.

(** [ChangeDetector.detectDeletedPages] *)
Definition detectDeletedPages (confluencePages : list Page)
    : M (list SyncedPage) :=
  let spaceKeys := unique (map page_space_key confluencePages) in
  syncedPages <-
    for_of spaceKeys
      (fun spaceKey syncedPages =>
         rows <- db_getPagesBySpace spaceKey ;;
         ret (syncedPages ++ rows))
      [] ;;
  let confluencePageIds := unique (map id confluencePages) in
  ret (not_in_confluence confluencePageIds syncedPages).

(** [ChangeDetector.detectDeletedPagesInSpace] *)
Definition detectDeletedPagesInSpace (spaceKey : jsstring)
    (confluencePages : list Page) : M (list SyncedPage) :=
  syncedPages <- db_getPagesBySpace spaceKey ;;
  let confluencePageIds := unique (map id confluencePages) in
  ret (not_in_confluence confluencePageIds syncedPages).

Definition path_of (p : option jsstring) : jsstring :=
  match p with
  | Some s => s
  | None => []
  end.

(** [ChangeDetector.fileExists] *)
Definition fileExists (syncedPage : SyncedPage) : M bool :=
  if negb (truthy (file_path syncedPage)) then ret false
  else existsSync (path_of (file_path syncedPage)).

(** [syncedFilePaths.has(fullPath)] on the set of the [file_path] values. *)
Definition has_path (syncedFilePaths : list (option jsstring))
    (fullPath : jsstring) : bool :=
  existsb
    (fun p => match p with
              | Some q => str_eqb q fullPath
              | None => false
              end)
    syncedFilePaths.

(** The loop [for (const file of files)] of [findMarkdownFiles], appending
    to [orphanedFiles]; [descend] is the recursive call. *)
Fixpoint each_file
    (descend : jsstring -> list jsstring -> M (option (list jsstring)))
    (syncedFilePaths : list (option jsstring)) (dir : jsstring)
    (files orphanedFiles : list jsstring) : M (option (list jsstring)) :=
  match files with
  | [] => ret (Some orphanedFiles)
  | file :: rest =>
      let fullPath := path_join dir file in
      isDirectory <- statSync_isDirectory fullPath ;;
      if isDirectory then
        r <- descend fullPath orphanedFiles ;;
        match r with
        | Some orphanedFiles' =>
            each_file descend syncedFilePaths dir rest orphanedFiles'
        | None => ret None
        end
      else if endsWith file (str ".md") then
        if negb (has_path syncedFilePaths fullPath)
        then each_file descend syncedFilePaths dir rest
               (orphanedFiles ++ [fullPath])
        else each_file descend syncedFilePaths dir rest orphanedFiles
      else each_file descend syncedFilePaths dir rest orphanedFiles
  end.

(** The local function [findMarkdownFiles] of [findOrphanedFiles].  The
    recursion follows the directories; [fuel] bounds its depth and [None]
    tells that it was too small. *)
Fixpoint findMarkdownFiles (fuel : nat)
    (syncedFilePaths : list (option jsstring)) (dir : jsstring)
    (orphanedFiles : list jsstring) : M (option (list jsstring)) :=
  match fuel with
  | O => ret None
  | S fuel' =>
      files <- readdirSync dir ;;
      each_file (findMarkdownFiles fuel' syncedFilePaths) syncedFilePaths dir
        files orphanedFiles
  end.

(** [ChangeDetector.findOrphanedFiles].  A directory below [dir] has a
    longer path than [dir], so the recursion is never deeper than the
    number of directories (lemma [findMarkdownFiles_enough_fuel]) and the
    fuel given here is never used up. *)
Definition findOrphanedFiles (contentDir : jsstring) : M (list jsstring) :=
  present <- existsSync contentDir ;;
  if negb present then ret []
  else
    syncedPages <- db_getAllPages ;;
    let syncedFilePaths := map file_path syncedPages in
    fun w =>
      match findMarkdownFiles (S (length (fs_dirs (fs w)))) syncedFilePaths
              contentDir [] w with
      | (Ok (Some orphanedFiles), w') => (Ok orphanedFiles, w')
      | (Ok None, w') => (Ok [], w')
      | (Throw m, w') => (Throw m, w')
      end.

(** [ChangeDetector.findMissingFiles] *)
Definition findMissingFiles : M (list SyncedPage) :=
  syncedPages <- db_getAllPages ;;
  for_of syncedPages
    (fun page missingFiles =>
       present <- fileExists page ;;
       if negb present then ret (missingFiles ++ [page])
       else ret missingFiles)
    [].

(** An entry of [results.errors]: [{pageId, error}] or [{file, error}]. *)
Inductive CleanupError :=
| PageError (pageId error : jsstring)
| FileError (file error : jsstring).

Record CleanupResults := {
  deletedPages : Z;
  deletedFiles : Z;
  orphanedFiles : Z;
  errors : list CleanupError
}.

Definition incr_deletedPages (r : CleanupResults) : CleanupResults :=
  {| deletedPages := deletedPages r + 1; deletedFiles := deletedFiles r;
     orphanedFiles := orphanedFiles r; errors := errors r |}.

Definition incr_deletedFiles (r : CleanupResults) : CleanupResults :=
  {| deletedPages := deletedPages r; deletedFiles := deletedFiles r + 1;
     orphanedFiles := orphanedFiles r; errors := errors r |}.

Definition incr_orphanedFiles (r : CleanupResults) : CleanupResults :=
  {| deletedPages := deletedPages r; deletedFiles := deletedFiles r;
     orphanedFiles := orphanedFiles r + 1; errors := errors r |}.

Definition push_error (e : CleanupError) (r : CleanupResults)
    : CleanupResults :=
  {| deletedPages := deletedPages r; deletedFiles := deletedFiles r;
     orphanedFiles := orphanedFiles r; errors := errors r ++ [e] |}.

(** The body of the first loop of [cleanup], on the local [results]. *)
Definition cleanup_page (page : SyncedPage)
    : Comp (CleanupResults * World) unit :=
  try_catch
    (lift (db_deletePage (page_id page)) ;;;
     update incr_deletedPages ;;;
     present <- lift (if truthy (file_path page)
                      then existsSync (path_of (file_path page))
                      else ret false) ;;
     if present then
       lift (unlinkSync (path_of (file_path page))) ;;;
       update incr_deletedFiles
     else ret tt)
    (fun message => update (push_error (PageError (page_id page) message))).

(** The body of the second loop of [cleanup]. *)
Definition cleanup_orphan (filePath : jsstring)
    : Comp (CleanupResults * World) unit :=
  try_catch
    (lift (unlinkSync filePath) ;;;
     update incr_orphanedFiles)
    (fun message => update (push_error (FileError filePath message))).

Definition results0 : CleanupResults :=
  {| deletedPages := 0; deletedFiles := 0; orphanedFiles := 0; errors := [] |}.

(** [ChangeDetector.cleanup]; the method is [async] without an [await], so
    it runs to its end and its promise carries the outcome. *)
Definition cleanup (pages : list SyncedPage) (contentDir : jsstring)
    : M CleanupResults :=
  fun w =>
    match
      (for_each pages cleanup_page ;;;
       orphaned <- lift (findOrphanedFiles contentDir) ;;
       for_each orphaned cleanup_orphan) (results0, w)
    with
    | (Ok _, (results, w')) => (Ok results, w')
    | (Throw m, (_, w')) => (Throw m, w')
    end.

(** * PageStorage *)

(** [PageStorage.generateFilename] *)
Definition generateFilename (page : Page) : jsstring :=
  let sanitizedTitle := sanitizeFilename (title page) in
  let pageId := id page in
  toLowerCase (page_space_key page) ++ [UNDERSCORE] ++ pageId
    ++ [UNDERSCORE] ++ sanitizedTitle.

(** [PageStorage.getPageFilePath]; [this.contentDir] is
    [config.storage.contentDir]. *)
Definition getPageFilePath (page : Page) : M jsstring :=
  fun w =>
    let filename := generateFilename page in
    (Ok (path_join (contentDir (config w)) (filename ++ str ".md")), w).

(** The objects that [savePage] and [savePageWithMetadata] return; a
    property that an object does not have, or that is [null], is [None]. *)
Record SaveResult := {
  success : bool;
  filePath : option jsstring;
  pageId : option jsstring;
  error : option jsstring
}.

(** [PageStorage.savePage] *)
Definition savePage (page : Page) (markdown : jsstring) : M SaveResult :=
  try_catch
    (filePath <- getPageFilePath page ;;
     writeFileSync filePath markdown ;;;
     ret {| success := true; filePath := Some filePath; pageId := None;
            error := None |})
    (fun message =>
       ret {| success := false; filePath := None; pageId := None;
              error := Some message |}).

(** [new Date().toISOString()] *)
Definition now_iso : M jsstring := fun w => (Ok (clock w), w).

Definition page_url (page : Page) : M (option jsstring) :=
  fun w =>
    (Ok (if truthy (links_webui page)
         then Some (baseUrl (config w) ++ str "/wiki"
                      ++ path_of (links_webui page))
         else None), w).

(** [PageStorage.savePageWithMetadata] *)
Definition savePageWithMetadata (page : Page) (markdown : jsstring)
    (fileSearchStoreName : option jsstring) : M SaveResult :=
  saveResult <- savePage page markdown ;;
  if negb (success saveResult) then
    ret {| success := false; filePath := None; pageId := None;
           error := error saveResult |}
  else
    try_catch
      (lastSynced <- now_iso ;;
       pageUrl <- page_url page ;;
       db_upsertPage
         {| page_id := id page;
            space_key := page_space_key page;
            synced_title := title page;
            version := version_number page;
            last_synced := lastSynced;
            file_path := filePath saveResult;
            file_search_store_name := fileSearchStoreName;
            url := pageUrl |} ;;;
       ret {| success := true; filePath := filePath saveResult;
              pageId := Some (id page); error := None |})
      (fun message =>
         ret {| success := false; filePath := filePath saveResult;
                pageId := None;
                error := Some (str "File saved but database update failed: "
                                 ++ message) |}).

(** * ConfluenceClient *)

(** [this.client.get('/content', {params})] *)
Definition get_content (q : ContentQuery) : M (option (list Page)) :=
  fun w =>
    match remote w q with
    | Ok results => (Ok results, w)
    | Throw m => (Throw m, w)
    end.

(** The locals of the loop of [getAllPages]. *)
Record FetchState := {
  fetched : list Page;    (* pages *)
  start : Z;
  hasMore : bool
}.

(** One turn of the [while] loop of [getAllPages]: the [try] block and its
    [catch]. *)
Definition getAllPages_turn (spaceKey : jsstring) (limit : Z) (st : FetchState)
    : M FetchState :=
  try_catch
    (cfg <- (fun w => (Ok (config w), w)) ;;
     response <-
       get_content
         {| q_spaceKey := spaceKey;
            q_status := if excludeArchived cfg then str "current"
                        else str "any";
            q_limit := limit;
            q_start := start st |} ;;
     let results := match response with
                    | Some results => results
                    | None => []
                    end in
     ret {| fetched := fetched st ++ results;
            start := start st + limit;
            hasMore := Z.of_nat (length results) =? limit |})
    (fun message =>
       throw (str "Failed to fetch pages from space " ++ spaceKey ++ str ": "
                ++ message)).

(** The [while] loop; [None] tells that [fuel] turns were not enough. *)
Fixpoint getAllPages_loop (fuel : nat) (spaceKey : jsstring) (limit : Z)
    (st : FetchState) : M (option (list Page)) :=
  fun w =>
    if hasMore st
       && (Z.of_nat (length (fetched st)) <? maxPagesPerSync (config w))
    then
      match fuel with
      | O => (Ok None, w)
      | S fuel' =>
          (st' <- getAllPages_turn spaceKey limit st ;;
           getAllPages_loop fuel' spaceKey limit st') w
      end
    else (Ok (Some (fetched st)), w).

(** [ConfluenceClient.getAllPages] *)
Definition getAllPages (fuel : nat) (spaceKey : jsstring) (limit : Z)
    : M (option (list Page)) :=
  getAllPages_loop fuel spaceKey limit
    {| fetched := []; start := 0; hasMore := true |}.

(** * Properties named by the specification *)

(** ** File names *)

(** The characters of a sanitised file name: [a-z0-9-_]. *)
Definition isSafeChar (c : Z) : bool :=
  isLower c || isDigit c || isHyphen c || (c =? UNDERSCORE).

Fixpoint noDoubleHyphen (s : jsstring) : Prop :=
  match s with
  | c :: t =>
      match t with
      | c' :: _ => ~ (c = HYPHEN /\ c' = HYPHEN) /\ noDoubleHyphen t
      | [] => True
      end
  | [] => True
  end.

Definition noLeadingHyphen (s : jsstring) : Prop :=
  forall t, s <> HYPHEN :: t.

Definition noTrailingHyphen (s : jsstring) : Prop :=
  forall t, s <> t ++ [HYPHEN].

(** What the specification asks of a sanitised file name. *)
Definition safeFilename (s : jsstring) : Prop :=
  (length s <= 100)%nat /\ Forall (fun c => isSafeChar c = true) s
  /\ noDoubleHyphen s /\ noLeadingHyphen s /\ noTrailingHyphen s.

(** The primary key of [synced_pages]: at most one record per id. *)
Definition primary_key (rows : list SyncedPage) : Prop :=
  NoDup (map page_id rows).

(** ** Classification *)

(** The record that [db.getPage] finds in a world. *)
Definition lookup (w : World) (pid : jsstring) : option SyncedPage :=
  find (has_id pid) (synced_pages w).

(** The three outcomes of the loop of [detectChanges] for a page: the
    branch that counts it as new, as updated or as unchanged. *)
Inductive Classification := NEW | UPDATED | UNCHANGED.

Definition classification (w : World) (page : Page) : Classification :=
  match lookup w (id page) with
  | None => NEW
  | Some syncedPage =>
      if hasPageChanged page syncedPage then UPDATED else UNCHANGED
  end.

Definition is_class (c : Classification) (w : World) (page : Page) : bool :=
  match c, classification w page with
  | NEW, NEW | UPDATED, UPDATED | UNCHANGED, UNCHANGED => true
  | _, _ => false
  end.

Definition count_class (c : Classification) (w : World) (pages : list Page)
    : Z :=
  Z.of_nat (length (filter (is_class c w) pages)).

(** The pages that the loop pushes: those that are not unchanged. *)
Definition emits (w : World) (page : Page) : bool :=
  negb (is_class UNCHANGED w page).

(** The locals of [detectChanges] after a page of the given class. *)
Definition after_page (c : Classification) (page : Page)
    (locals : list Page * Stats) : list Page * Stats :=
  match c with
  | NEW => (fst locals ++ [page], incr_new (snd locals))
  | UPDATED => (fst locals ++ [page], incr_updated (snd locals))
  | UNCHANGED => (fst locals, incr_unchanged (snd locals))
  end.

(** [xs] is [ys] with some elements left out, the order kept. *)
Inductive Subsequence {A : Type} : list A -> list A -> Prop :=
| Subsequence_nil : Subsequence [] []
| Subsequence_skip x xs ys : Subsequence xs ys -> Subsequence xs (x :: ys)
| Subsequence_keep x xs ys : Subsequence xs ys -> Subsequence (x :: xs) (x :: ys).

(** Every page of the snapshot has been synced: the store holds a record
    with its id, its version number and its title. *)
Definition all_synced (w : World) (pages : list Page) : Prop :=
  forall page, In page pages ->
    exists r, lookup w (id page) = Some r
              /\ version r = version_number page
              /\ synced_title r = title page.

(** No stale record is left in the spaces of the snapshot: what the
    deletion stage of a run establishes. *)
Definition no_stale_record (w : World) (pages : list Page) : Prop :=
  forall r, In r (synced_pages w) ->
    In (space_key r) (map page_space_key pages) ->
    In (page_id r) (map id pages).

Definition Page_eq_dec (p q : Page) : {p = q} + {p <> q}.
Proof.
  decide equality; try apply Z.eq_dec; try apply jsstring_dec.
  decide equality; apply jsstring_dec.
Defined.

(** How many times a page occurs in a list. *)
Definition occurrences (page : Page) (pages : list Page) : nat :=
  count_occ Page_eq_dec pages page.

(** ** Deletion, drift and storage *)

(** The records of a space. *)
Definition rows_of_space (w : World) (spaceKey : jsstring) : list SyncedPage :=
  filter (fun r => str_eqb (space_key r) spaceKey) (synced_pages w).

(** Whether the artifact of a record is there: what [fileExists] answers. *)
Definition artifact_present (w : World) (r : SyncedPage) : bool :=
  truthy (file_path r)
  && (is_dir (fs w) (path_of (file_path r))
      || is_file (fs w) (path_of (file_path r))).

(** A file removed from outside, by another process. *)
Definition external_delete (p : jsstring) (w : World) : World :=
  set_fs (remove_file p (fs w)) w.

(** The path that [savePage] writes for a page. *)
Definition artifact_path (w : World) (page : Page) : jsstring :=
  path_join (contentDir (config w)) (generateFilename page ++ str ".md").

(** The record that [savePageWithMetadata] hands to [db.upsertPage]. *)
Definition record_of (w : World) (page : Page)
    (fileSearchStoreName : option jsstring) : SyncedPage :=
  {| page_id := id page;
     space_key := page_space_key page;
     synced_title := title page;
     version := version_number page;
     last_synced := clock w;
     file_path := Some (artifact_path w page);
     file_search_store_name := fileSearchStoreName;
     url := if truthy (links_webui page)
            then Some (baseUrl (config w) ++ str "/wiki"
                         ++ path_of (links_webui page))
            else None |}.

(** ** Cleanup *)

(** What happened to a page in the first loop of [cleanup]. *)
Inductive Attempt :=
| RecordFailed (message : jsstring)   (* db.deletePage threw *)
| FileFailed (message : jsstring)     (* record deleted, fs.unlinkSync threw *)
| RecordOnly                          (* record deleted, no file on disk *)
| RecordAndFile.                      (* record and file deleted *)

(** The attempt on one page, from the operations of the record store and
    of the file system. *)
Definition attempt_page (page : SyncedPage) (w : World) : Attempt * World :=
  match db_deletePage (page_id page) w with
  | (Throw m, w1) => (RecordFailed m, w1)
  | (Ok _, w1) =>
      if artifact_present w1 page then
        match unlinkSync (path_of (file_path page)) w1 with
        | (Throw m, w2) => (FileFailed m, w2)
        | (Ok _, w2) => (RecordAndFile, w2)
        end
      else (RecordOnly, w1)
  end.

(** The attempts on the pages of a list, one after the other, each with
    its page, and the world they leave. *)
Fixpoint attempts (pages : list SyncedPage) (w : World)
    : list (SyncedPage * Attempt) * World :=
  match pages with
  | [] => ([], w)
  | page :: rest =>
      let '(a, w1) := attempt_page page w in
      let '(trace, w2) := attempts rest w1 in
      ((page, a) :: trace, w2)
  end.

Definition record_deleted (pa : SyncedPage * Attempt) : bool :=
  match snd pa with
  | RecordFailed _ => false
  | _ => true
  end.

Definition file_deleted (pa : SyncedPage * Attempt) : bool :=
  match snd pa with
  | RecordAndFile => true
  | _ => false
  end.

(** The error entry of an attempt that failed: the id of its page and the
    message. *)
Definition attempt_error (pa : SyncedPage * Attempt) : list CleanupError :=
  match snd pa with
  | RecordFailed m | FileFailed m => [PageError (page_id (fst pa)) m]
  | _ => []
  end.

(** The entries of [results.errors] that name a page. *)
Definition page_errors (es : list CleanupError) : list CleanupError :=
  filter (fun e => match e with PageError _ _ => true | FileError _ _ => false end)
    es.

(** The local [results] after an attempt. *)
Definition after_attempt (pa : SyncedPage * Attempt) (r : CleanupResults)
    : CleanupResults :=
  match snd pa with
  | RecordFailed m => push_error (PageError (page_id (fst pa)) m) r
  | FileFailed m =>
      push_error (PageError (page_id (fst pa)) m) (incr_deletedPages r)
  | RecordOnly => incr_deletedPages r
  | RecordAndFile => incr_deletedFiles (incr_deletedPages r)
  end.

(** The directories with a longer path than [dir]: those that can lie
    below it. *)
Definition longer_dirs (f : FileSystem) (dir : jsstring) : nat :=
  length (filter (fun d => (length dir <? length d)%nat) (fs_dirs f)).

(** * Sample data: the scenario of section 8 of the specification *)

Definition sample_config : Config :=
  {| contentDir := str "/content"; baseUrl := str "https://wiki.example";
     maxPagesPerSync := 150; excludeArchived := true |}.

Definition sample_page (i t : string) (v : Z) : Page :=
  {| id := str i; title := str t; page_space_key := str "DEV";
     version_number := v; links_webui := None |}.

Definition sample_row (i t : string) (v : Z) (p : string) : SyncedPage :=
  {| page_id := str i; space_key := str "DEV"; synced_title := str t;
     version := v; last_synced := str "2024-01-01T00:00:00.000Z";
     file_path := Some (str p); file_search_store_name := None;
     url := None |}.

(** A remote space of 250 pages with the ids 1 to 250, served in batches:
    the request for [limit] pages from [start] gets that slice. *)
Definition remote_space : list Page :=
  map (fun n => sample_page (NilEmpty.string_of_uint (Nat.to_uint n)) "Page" 1)
    (seq 1 250).

Definition sample_remote (q : ContentQuery) : Outcome (option (list Page)) :=
  Ok (Some (firstn (Z.to_nat (q_limit q))
              (skipn (Z.to_nat (q_start q)) remote_space))).

Definition sample_world : World :=
  {| synced_pages := [sample_row "1" "A" 1 "/content/dev_1_a.md";
                      sample_row "3" "C" 1 "/content/dev_3_c.md"];
     fs := {| fs_dirs := [str "/content"];
              fs_files := [(str "/content/dev_1_a.md", str "# A");
                           (str "/content/dev_3_c.md", str "# C")] |};
     config := sample_config;
     clock := str "2024-02-01T00:00:00.000Z";
     db_fault := fun _ => None;
     fs_fault := fun _ => None;
     remote := sample_remote |}.

(** The sample world with a record store that refuses every upsert and
    the deletion of page 1, and a file system that refuses to remove the
    file of page 3. *)
Definition locked_world : World :=
  {| synced_pages := synced_pages sample_world;
     fs := fs sample_world;
     config := config sample_world;
     clock := clock sample_world;
     db_fault := fun op =>
       match op with
       | DbUpsert _ => Some (str "database is locked")
       | DbDelete pid =>
           if str_eqb pid (str "1") then Some (str "database is locked")
           else None
       end;
     fs_fault := fun op =>
       match op with
       | FsUnlink p =>
           if str_eqb p (str "/content/dev_3_c.md")
           then Some (str "EACCES: permission denied") else None
       | FsWrite _ => None
       end;
     remote := remote sample_world |}.

(** * ChangeDetector: the change summary *)

(** The object that [generateChangeSummary] returns: [total], [synced],
    [changes.new], [changes.updated], [changes.deleted],
    [issues.missingFiles] and [needsSync]. *)
Record ChangeSummary := {
  summary_total : Z;
  summary_synced : Z;
  changes_new : Z;
  changes_updated : Z;
  changes_deleted : Z;
  issues_missingFiles : Z;
  needsSync : bool
}.

(** [changedPages.filter(p => keep(db.getPage(p.id))).length] *)
Definition count_by_record (keep : option SyncedPage -> bool)
    (changedPages : list Page) : M Z :=
  for_of changedPages
    (fun p n =>
       syncedPage <- db_getPage (id p) ;;
       ret (if keep syncedPage then n + 1 else n))
    0.

(** [!x] and [x] as a condition, for the result of [db.getPage]. *)
Definition is_absent (r : option SyncedPage) : bool :=
  match r with
  | None => true
  | Some _ => false
  end.

Definition is_found (r : option SyncedPage) : bool := negb (is_absent r).

(** [ChangeDetector.generateChangeSummary] *)
Definition generateChangeSummary (confluencePages : list Page)
    : M ChangeSummary :=
  changedPages <- detectChanges confluencePages ;;
  deletedPages <- detectDeletedPages confluencePages ;;
  missingFiles <- findMissingFiles ;;
  allPages <- db_getAllPages ;;
  new <- count_by_record is_absent changedPages ;;
  updated <- count_by_record is_found changedPages ;;
  ret {| summary_total := Z.of_nat (length confluencePages);
         summary_synced := Z.of_nat (length allPages);
         changes_new := new;
         changes_updated := updated;
         changes_deleted := Z.of_nat (length deletedPages);
         issues_missingFiles := Z.of_nat (length missingFiles);
         needsSync := (0 <? Z.of_nat (length changedPages))
                      || (0 <? Z.of_nat (length deletedPages))
                      || (0 <? Z.of_nat (length missingFiles)) |}.

(** * PageStorage: deleting files *)

(** [PageStorage.deletePage] *)
Definition deletePage (filePath : jsstring) : M bool :=
  try_catch
    (present <- existsSync filePath ;;
     if present then unlinkSync filePath ;;; ret true
     else ret false)
    (fun _ => ret false).




(** * Orphaned files *)

(** The markdown files at or below [dir] whose path is not among the known
    paths: a file of [dir] itself, or an orphaned file of a directory of
    [dir]. *)
Inductive Orphaned (f : FileSystem) (known : list (option jsstring))
    : jsstring -> jsstring -> Prop :=
| Orphaned_here dir file :
    In file (children dir (fs_paths f)) ->
    is_dir f (path_join dir file) = false ->
    endsWith file (str ".md") = true ->
    has_path known (path_join dir file) = false ->
    Orphaned f known dir (path_join dir file)
| Orphaned_below dir sub p :
    In sub (children dir (fs_paths f)) ->
    is_dir f (path_join dir sub) = true ->
    Orphaned f known (path_join dir sub) p ->
    Orphaned f known dir p.

(** The orphaned files reached through the names of a list. *)
Definition orphaned_via (f : FileSystem) (known : list (option jsstring))
    (dir : jsstring) (files : list jsstring) (p : jsstring) : Prop :=
  exists file,
    In file files
    /\ (is_dir f (path_join dir file) = false
        /\ endsWith file (str ".md") = true
        /\ has_path known (path_join dir file) = false
        /\ p = path_join dir file
        \/ is_dir f (path_join dir file) = true
           /\ Orphaned f known (path_join dir file) p).

(** The [file_path] values of the records: what the scans compare with. *)
Definition known_paths (w : World) : list (option jsstring) :=
  map file_path (synced_pages w).

(** The entries of [results.errors] that name a file. *)
Definition file_errors (es : list CleanupError) : list CleanupError :=
  filter (fun e => match e with PageError _ _ => false | FileError _ _ => true end)
    es.

(** The content of the regular file at a path, if there is one: what
    [fs.readFileSync] would read. *)
Definition file_content (f : FileSystem) (p : jsstring) : option jsstring :=
  match find (fun e => str_eqb (fst e) p) (fs_files f) with
  | Some e => Some (snd e)
  | None => None
  end.

(** The value of an outcome, or a default where it is a thrown error. *)
Definition value_or {A : Type} (d : A) (o : Outcome A) : A :=
  match o with
  | Ok a => a
  | Throw _ => d
  end.

Definition no_result : SaveResult :=
  {| success := false; filePath := None; pageId := None; error := None |}.


(** The query of [getAllPages] for the pages of a space from [from]. *)
Definition page_query (w : World) (spaceKey : jsstring) (limit from : Z)
    : ContentQuery :=
  {| q_spaceKey := spaceKey;
     q_status := if excludeArchived (config w) then str "current"
                 else str "any";
     q_limit := limit;
     q_start := from |}.

(** A paginated source: the space holds the pages [space], and the request
    for [limit] pages from [from] gets that slice of them. *)
Definition serves (w : World) (spaceKey : jsstring) (space : list Page)
    : Prop :=
  forall limit from,
    0 <= limit -> 0 <= from ->
    remote w (page_query w spaceKey limit from)
    = Ok (Some (firstn (Z.to_nat limit) (skipn (Z.to_nat from) space))).

(** The message of the error that [getAllPages] throws. *)
Definition fetch_error (spaceKey message : jsstring) : jsstring :=
  str "Failed to fetch pages from space " ++ spaceKey ++ str ": " ++ message.

(** The sample world with a source that fails on the second batch. *)
Definition flaky_world : World :=
  {| synced_pages := synced_pages sample_world;
     fs := fs sample_world;
     config := config sample_world;
     clock := clock sample_world;
     db_fault := db_fault sample_world;
     fs_fault := fs_fault sample_world;
     remote := fun q => if q_start q =? 100 then Throw (str "ETIMEDOUT")
                        else sample_remote q |}.

(** * Configuration *)

Definition COMMA : Z := 44.

(** [s.split(sep)] for a separator of one character: the pieces between
    the separators, one more than there are separators. *)
Fixpoint js_split (sep : Z) (s : jsstring) : list jsstring :=
  match s with
  | [] => [[]]
  | c :: rest =>
      if c =? sep then [] :: js_split sep rest
      else match js_split sep rest with
           | piece :: pieces => (c :: piece) :: pieces
           | [] => [[c]]
           end
  end.

(** [s.trimStart()], [s.trimEnd()] and [s.trim()]: white space and line
    terminators go from the ends. *)
Fixpoint trimStart (s : jsstring) : jsstring :=
  match s with
  | [] => []
  | c :: rest => if isSpace c then trimStart rest else s
  end.

Definition trimEnd (s : jsstring) : jsstring := rev (trimStart (rev s)).

Definition trim (s : jsstring) : jsstring := trimEnd (trimStart s).

(** [parseSpaceKeys] of src/config.js; the argument is a variable of the
    environment, [None] where it is not set. *)
Definition parseSpaceKeys (spaceKeysString : option jsstring)
    : list jsstring :=
  match spaceKeysString with
  | Some s =>
      if truthy spaceKeysString then
        filter (fun key => 0 <? Z.of_nat (length key))
          (map trim (js_split COMMA s))
      else []
  | None => []
  end.

(** [keys.join(sep)] *)
Fixpoint join (sep : jsstring) (keys : list jsstring) : jsstring :=
  match keys with
  | [] => []
  | [key] => key
  | key :: rest => key ++ sep ++ join sep rest
  end.

Definition starts_with_space (s : jsstring) : bool :=
  match s with
  | c :: _ => isSpace c
  | [] => false
  end.

(** A space key as the program uses it: not empty, without a comma, and
    without white space at either end. *)
Definition clean_key (key : jsstring) : bool :=
  (0 <? Z.of_nat (length key))
  && negb (existsb (Z.eqb COMMA) key)
  && negb (starts_with_space key)
  && negb (starts_with_space (rev key)).

(** * Strings *)

Lemma str_eqb_eq a b : str_eqb a b = true <-> a = b.
Proof. unfold str_eqb; destruct (jsstring_dec a b); split; congruence. Qed.

Lemma str_eqb_neq a b : str_eqb a b = false <-> a <> b.
Proof. unfold str_eqb; destruct (jsstring_dec a b); split; congruence. Qed.

Lemma str_eqb_refl a : str_eqb a a = true.
Proof. now apply str_eqb_eq. Qed.

Lemma str_mem_In x l : str_mem x l = true <-> In x l.
Proof.
  unfold str_mem; rewrite existsb_exists; split.
  - intros (y & Hy & E). apply str_eqb_eq in E. now subst.
  - intros H. exists x. split; [assumption | apply str_eqb_refl].
Qed.

Lemma str_mem_not_In x l : str_mem x l = false <-> ~ In x l.
Proof.
  rewrite <- str_mem_In. destruct (str_mem x l); split; congruence.
Qed.

(** * The record store keeps its primary key *)

Lemma upsert_row_ids row rows :
  forall pid,
    In pid (map page_id (upsert_row row rows))
    <-> pid = page_id row \/ In pid (map page_id rows).
Proof.
  induction rows as [|r rest IH]; intros pid; simpl.
  - intuition congruence.
  - unfold has_id at 1. destruct (str_eqb (page_id r) (page_id row)) eqn:E.
    + apply str_eqb_eq in E. simpl. rewrite E. intuition congruence.
    + simpl. rewrite IH. intuition congruence.
Qed.

Lemma upsert_row_primary_key row rows :
  primary_key rows -> primary_key (upsert_row row rows).
Proof.
  unfold primary_key. induction rows as [|r rest IH]; intros H; simpl.
  - constructor; [intros [] | constructor].
  - inversion H as [|? ? Hnotin Hrest]. subst.
    unfold has_id at 1. destruct (str_eqb (page_id r) (page_id row)) eqn:E.
    + apply str_eqb_eq in E. simpl. rewrite <- E. now constructor.
    + apply str_eqb_neq in E. simpl. constructor; [|now apply IH].
      rewrite upsert_row_ids. intros [Heq|Hin]; [congruence | contradiction].
Qed.

Lemma delete_primary_key pid rows :
  primary_key rows ->
  primary_key (filter (fun r => negb (has_id pid r)) rows).
Proof.
  unfold primary_key. induction rows as [|r rest IH]; intros H; simpl.
  - constructor.
  - inversion H as [|? ? Hnotin Hrest]. subst.
    destruct (negb (has_id pid r)); simpl; [|now apply IH].
    constructor; [|now apply IH].
    intros Hin. apply Hnotin. apply in_map_iff in Hin.
    destruct Hin as (x & Hx & Hf). apply filter_In in Hf.
    apply in_map_iff. exists x. tauto.
Qed.

(** Under the primary key, [db.getPage] finds every stored record by its
    id. *)
Lemma lookup_stored w r :
  primary_key (synced_pages w) ->
  In r (synced_pages w) ->
  lookup w (page_id r) = Some r.
Proof.
  unfold lookup, primary_key.
  induction (synced_pages w) as [|x rest IH]; intros Hk Hin; [contradiction|].
  inversion Hk as [|? ? Hnotin Hrest]. subst. simpl.
  unfold has_id at 1. destruct Hin as [->|Hin].
  - now rewrite str_eqb_refl.
  - destruct (str_eqb (page_id x) (page_id r)) eqn:E; [|now apply IH].
    apply str_eqb_eq in E. exfalso. apply Hnotin. rewrite E.
    now apply in_map.
Qed.

(** * File names *)

Lemma isHyphen_spec c : isHyphen c = true <-> c = HYPHEN.
Proof. unfold isHyphen. apply Z.eqb_eq. Qed.

Lemma noDoubleHyphen_tail c s : noDoubleHyphen (c :: s) -> noDoubleHyphen s.
Proof. destruct s; simpl; tauto. Qed.

Lemma noDoubleHyphen_cons c s :
  noDoubleHyphen s -> (c = HYPHEN -> noLeadingHyphen s) ->
  noDoubleHyphen (c :: s).
Proof.
  intros Hs Hc. destruct s as [|c' t]; simpl; [exact I|].
  split; [|exact Hs]. intros [E1 E2]. subst. now apply (Hc eq_refl t).
Qed.

(** Collapsing the runs of hyphens leaves no two hyphens side by side,
    and after a hyphen the output goes on with another character. *)
Lemma collapse_hyphens s :
  forall inRun,
    noDoubleHyphen (replaceRuns_from isHyphen [HYPHEN] inRun s)
    /\ (inRun = true ->
        noLeadingHyphen (replaceRuns_from isHyphen [HYPHEN] inRun s)).
Proof.
  induction s as [|c t IH]; intros inRun; simpl.
  - split; [exact I | intros _ u; discriminate].
  - destruct (isHyphen c) eqn:Hc.
    + destruct inRun.
      * apply IH.
      * split; [|discriminate]. simpl.
        apply noDoubleHyphen_cons; [apply IH|].
        intros _. now apply IH.
    + split.
      * apply noDoubleHyphen_cons; [apply IH|].
        intros E. apply isHyphen_spec in E. congruence.
      * intros _ u E. inversion E. subst c.
        now rewrite (proj2 (isHyphen_spec HYPHEN) eq_refl) in Hc.
Qed.

Lemma replaceRuns_from_Forall (P : Z -> Prop) X r s :
  Forall P r -> Forall P s ->
  forall inRun, Forall P (replaceRuns_from X r inRun s).
Proof.
  intros Hr Hs. induction Hs as [|c t Hc Ht IH]; intros inRun; simpl.
  - constructor.
  - destruct (X c); [destruct inRun|]; auto using Forall_app.
    apply Forall_app. split; auto.
Qed.

Lemma dropLeadingHyphen_Forall (P : Z -> Prop) s :
  Forall P s -> Forall P (dropLeadingHyphen s).
Proof.
  intros H. destruct H as [|c t Hc Ht]; simpl; [constructor|].
  destruct (isHyphen c); auto.
Qed.

Lemma dropLeadingHyphen_shape s :
  noDoubleHyphen s ->
  noDoubleHyphen (dropLeadingHyphen s)
  /\ noLeadingHyphen (dropLeadingHyphen s).
Proof.
  intros H. destruct s as [|c t]; simpl.
  - split; [exact I | intros u; discriminate].
  - destruct (isHyphen c) eqn:Hc.
    + apply isHyphen_spec in Hc. subst c. split.
      * now apply noDoubleHyphen_tail in H.
      * intros u E. subst t. simpl in H. now apply (proj1 H).
    + split; [exact H|]. intros u E. inversion E. subst c.
      now rewrite (proj2 (isHyphen_spec HYPHEN) eq_refl) in Hc.
Qed.

Lemma dropTrailingHyphen_Forall (P : Z -> Prop) s :
  Forall P s -> Forall P (dropTrailingHyphen s).
Proof.
  induction 1 as [|c t Hc Ht IH]; simpl; [constructor|].
  destruct t as [|c' t'].
  - destruct (isHyphen c); auto.
  - constructor; assumption.
Qed.

Lemma dropTrailingHyphen_noLeading s :
  noLeadingHyphen s -> noLeadingHyphen (dropTrailingHyphen s).
Proof.
  intros H u E. destruct s as [|c [|c' t]]; simpl in E.
  - discriminate.
  - destruct (isHyphen c); [discriminate|]. now apply (H u).
  - inversion E. subst c. now apply (H (c' :: t)).
Qed.

Lemma dropTrailingHyphen_noDouble s :
  noDoubleHyphen s -> noDoubleHyphen (dropTrailingHyphen s).
Proof.
  induction s as [|c t IH]; intros H; [exact I|].
  destruct t as [|c' t'].
  - simpl. destruct (isHyphen c); exact I.
  - change (noDoubleHyphen (c :: dropTrailingHyphen (c' :: t'))).
    destruct H as [Hcc Ht]. specialize (IH Ht).
    apply noDoubleHyphen_cons; [exact IH|].
    intros E u E'. subst c.
    destruct t' as [|c'' t'']; simpl in E'.
    + destruct (isHyphen c'); [discriminate|]. inversion E'. tauto.
    + inversion E'. tauto.
Qed.

Lemma dropTrailingHyphen_noTrailing s :
  noDoubleHyphen s -> noTrailingHyphen (dropTrailingHyphen s).
Proof.
  induction s as [|c t IH]; intros H u E.
  - destruct u; discriminate.
  - destruct t as [|c' t'].
    + simpl in E. destruct (isHyphen c) eqn:Hc.
      * destruct u; discriminate.
      * destruct u as [|x [|y u]]; try discriminate.
        inversion E. subst c.
        now rewrite (proj2 (isHyphen_spec HYPHEN) eq_refl) in Hc.
    + change (c :: dropTrailingHyphen (c' :: t') = u ++ [HYPHEN]) in E.
      destruct H as [Hcc Ht]. specialize (IH Ht).
      destruct u as [|x u]; simpl in E.
      * inversion E as [[E1 E2]]. subst c.
        destruct t' as [|c'' t'']; simpl in E2.
        -- destruct (isHyphen c') eqn:Hc'; [|discriminate].
           apply isHyphen_spec in Hc'. tauto.
        -- discriminate.
      * inversion E as [[E1 E2]]. now apply (IH u).
Qed.

Lemma lowerChar_hyphen c : lowerChar c = HYPHEN <-> c = HYPHEN.
Proof.
  unfold lowerChar, isUpper, HYPHEN.
  destruct ((65 <=? c) && (c <=? 90)) eqn:E; [|tauto].
  apply andb_true_iff in E. destruct E as [E1 E2].
  apply Z.leb_le in E1, E2. lia.
Qed.

Lemma lowerChar_safe c : isNameChar c = true -> isSafeChar (lowerChar c) = true.
Proof.
  unfold isNameChar, isSafeChar, lowerChar, isLower, isUpper, isDigit,
    isHyphen, HYPHEN, UNDERSCORE.
  intros H.
  destruct ((65 <=? c) && (c <=? 90)) eqn:E.
  - apply andb_true_iff in E. destruct E as [E1 E2].
    apply Z.leb_le in E1, E2.
    replace (97 <=? c + 32) with true by (symmetry; apply Z.leb_le; lia).
    replace (c + 32 <=? 122) with true by (symmetry; apply Z.leb_le; lia).
    reflexivity.
  - rewrite orb_false_r in H. exact H.
Qed.

Lemma toLowerCase_noDouble s : noDoubleHyphen s -> noDoubleHyphen (toLowerCase s).
Proof.
  induction s as [|c t IH]; intros H; [exact I|].
  destruct t as [|c' t']; [exact I|].
  destruct H as [Hcc Ht]. split; [|exact (IH Ht)].
  rewrite !lowerChar_hyphen. exact Hcc.
Qed.

Lemma toLowerCase_noLeading s : noLeadingHyphen s -> noLeadingHyphen (toLowerCase s).
Proof.
  intros H u E. destruct s as [|c t]; [discriminate|].
  simpl in E. injection E as E1 E2. apply (proj1 (lowerChar_hyphen _)) in E1.
  apply (H t). now rewrite E1.
Qed.

Lemma toLowerCase_noTrailing s : noTrailingHyphen s -> noTrailingHyphen (toLowerCase s).
Proof.
  intros H u E. unfold toLowerCase in E.
  destruct (exists_last (l := s)) as (s' & c & ->).
  { intros ->. destruct u; discriminate. }
  rewrite map_app in E. simpl in E.
  apply app_inj_tail in E. destruct E as [_ E].
  apply (proj1 (lowerChar_hyphen _)) in E. subst c. now apply (H s').
Qed.

Lemma firstn_noDouble n : forall s, noDoubleHyphen s -> noDoubleHyphen (firstn n s).
Proof.
  induction n as [|n IH]; intros s H; [exact I|].
  destruct s as [|c t]; [exact I|].
  simpl. apply noDoubleHyphen_cons.
  - apply IH. now apply noDoubleHyphen_tail in H.
  - intros E u E'. subst c. destruct n; [discriminate|].
    destruct t as [|c' t']; [discriminate|].
    simpl in E'. inversion E'. destruct H as [Hcc _]. tauto.
Qed.

Lemma firstn_noLeading n s : noLeadingHyphen s -> noLeadingHyphen (firstn n s).
Proof.
  intros H u E. destruct n; [discriminate|].
  destruct s as [|c t]; [discriminate|].
  simpl in E. inversion E. subst c. now apply (H t).
Qed.


Lemma replaceRuns_from_length X b s :
  (length (replaceRuns_from X [HYPHEN] b s) <= length s)%nat.
Proof.
  induction s as [|c t IH] in b |- *; simpl; [lia|].
  destruct (X c); [destruct b|]; simpl;
    [specialize (IH true) | specialize (IH true) | specialize (IH false)];
    lia.
Qed.

Lemma trimHyphens_length s : (length (trimHyphens s) <= length s)%nat.
Proof.
  unfold trimHyphens.
  assert (B : forall u, (length (dropTrailingHyphen u) <= length u)%nat).
  { induction u as [|c [|c' t] IH]; simpl in *; [lia| |lia].
    destruct (isHyphen c); simpl; lia. }
  specialize (B (dropLeadingHyphen s)).
  destruct s as [|c t]; simpl in *; [lia|].
  destruct (isHyphen c); simpl in *; lia.
Qed.

(** The name before [substring(0, 100)] cuts it. *)
Lemma sanitizeFilename_uncut filename :
  exists full,
    sanitizeFilename filename = firstn 100 full
    /\ (length full <= length filename)%nat
    /\ Forall (fun c => isSafeChar c = true) full
    /\ noDoubleHyphen full /\ noLeadingHyphen full /\ noTrailingHyphen full.
Proof.
  unfold sanitizeFilename, substring0, replaceRuns, removeOutside.
  set (spaced := replaceRuns_from isSpace [HYPHEN] false filename).
  set (kept := filter isNameChar spaced).
  set (collapsed := replaceRuns_from isHyphen [HYPHEN] false kept).
  assert (Hkept : Forall (fun c => isNameChar c = true) kept).
  { apply Forall_forall. intros c Hc. now apply filter_In in Hc. }
  assert (Hcol : Forall (fun c => isNameChar c = true) collapsed).
  { apply replaceRuns_from_Forall; [|exact Hkept].
    constructor; [reflexivity | constructor]. }
  destruct (collapse_hyphens kept false) as [Hnd _]. fold collapsed in Hnd.
  destruct (dropLeadingHyphen_shape _ Hnd) as [Hnd1 Hnl1].
  eexists. split; [reflexivity|]. repeat split.
  - unfold toLowerCase. rewrite length_map.
    pose proof (trimHyphens_length collapsed).
    pose proof (replaceRuns_from_length isHyphen false kept).
    pose proof (filter_length_le isNameChar spaced).
    pose proof (replaceRuns_from_length isSpace false filename).
    unfold collapsed, kept, spaced in *. lia.
  - unfold toLowerCase, trimHyphens. apply Forall_map.
    eapply Forall_impl; [intros c; apply lowerChar_safe|].
    now apply dropTrailingHyphen_Forall, dropLeadingHyphen_Forall.
  - now apply toLowerCase_noDouble, dropTrailingHyphen_noDouble.
  - now apply toLowerCase_noLeading, dropTrailingHyphen_noLeading.
  - now apply toLowerCase_noTrailing, dropTrailingHyphen_noTrailing.
Qed.

(** What [sanitizeFilename] does guarantee of every title: the length, the
    alphabet, no doubled hyphen and no hyphen in front. *)
Lemma sanitizeFilename_guarantees filename :
  (length (sanitizeFilename filename) <= 100)%nat
  /\ Forall (fun c => isSafeChar c = true) (sanitizeFilename filename)
  /\ noDoubleHyphen (sanitizeFilename filename)
  /\ noLeadingHyphen (sanitizeFilename filename).
Proof.
  destruct (sanitizeFilename_uncut filename)
    as (full & -> & _ & Hc & Hd & Hl & _).
  repeat split.
  - apply firstn_le_length.
  - rewrite <- (firstn_skipn 100 full) in Hc. now apply Forall_app in Hc.
  - now apply firstn_noDouble.
  - now apply firstn_noLeading.
Qed.

(** A name that the cut does not shorten is a safe file name. *)
Lemma sanitizeFilename_safe_when_short filename :
  (length filename <= 100)%nat -> safeFilename (sanitizeFilename filename).
Proof.
  intros Hlen.
  destruct (sanitizeFilename_guarantees filename) as (H1 & H2 & H3 & H4).
  repeat split; try assumption.
  destruct (sanitizeFilename_uncut filename)
    as (full & E & Hfull & _ & _ & _ & Ht).
  rewrite E, firstn_all2 by lia. exact Ht.
Qed.

(** C10: at a title whose sanitised form is longer than 100 characters and
    has a hyphen as its 100th, [sanitizeFilename] returns a name that ends
    in a hyphen: the hyphens are trimmed before the name is cut, so the
    result is not the safe file name the specification describes. *)
Theorem sanitizeFilename_cut_leaves_trailing_hyphen :
  let filename := repeat 97 99 ++ str " b" in
  sanitizeFilename filename = repeat 97 99 ++ [HYPHEN]
  /\ ~ safeFilename (sanitizeFilename filename).
Proof.
  split.
  - vm_compute. reflexivity.
  - intros (_ & _ & _ & _ & Ht). apply (Ht (repeat 97 99)).
    vm_compute. reflexivity.
Qed.

(** [generateFilename] is built from the space key, the page id and the
    title alone. *)
Lemma generateFilename_deterministic p q :
  page_space_key p = page_space_key q -> id p = id q -> title p = title q ->
  generateFilename p = generateFilename q.
Proof. unfold generateFilename. now intros -> -> ->. Qed.

(** * Change detection *)

Section Detection.

Variable w : World.

Lemma db_getPage_run pid : db_getPage pid w = (Ok (lookup w pid), w).
Proof. reflexivity. Qed.

(** The loop body follows the classification of the page and leaves the
    world as it is. *)
Lemma detectChanges_step_run page locals :
  detectChanges_step page locals w
  = (Ok (after_page (classification w page) page locals), w).
Proof.
  destruct locals as [changedPages stats].
  unfold detectChanges_step, classification, bind.
  rewrite db_getPage_run.
  destruct (lookup w (id page)) as [r|]; [|reflexivity].
  destruct (hasPageChanged page r); reflexivity.
Qed.

Lemma after_page_fst page locals :
  fst (after_page (classification w page) page locals)
  = fst locals ++ (if emits w page then [page] else []).
Proof.
  unfold emits, is_class.
  destruct (classification w page); simpl; now rewrite ?app_nil_r.
Qed.

Lemma after_page_stats page locals :
  let s := snd locals in
  let s' := snd (after_page (classification w page) page locals) in
  stat_total s' = stat_total s
  /\ stat_new s' = stat_new s + count_class NEW w [page]
  /\ stat_updated s' = stat_updated s + count_class UPDATED w [page]
  /\ stat_unchanged s' = stat_unchanged s + count_class UNCHANGED w [page].
Proof.
  unfold count_class, is_class. simpl.
  destruct (classification w page); simpl; repeat split; lia.
Qed.

Lemma count_class_cons c page pages :
  count_class c w (page :: pages)
  = count_class c w [page] + count_class c w pages.
Proof.
  unfold count_class. cbn [filter].
  destruct (is_class c w page); cbn [length]; lia.
Qed.

Lemma detectChanges_loop_run pages :
  forall locals,
  exists stats,
    for_of pages detectChanges_step locals w
    = (Ok (fst locals ++ filter (emits w) pages, stats), w)
    /\ stat_total stats = stat_total (snd locals)
    /\ stat_new stats = stat_new (snd locals) + count_class NEW w pages
    /\ stat_updated stats
       = stat_updated (snd locals) + count_class UPDATED w pages
    /\ stat_unchanged stats
       = stat_unchanged (snd locals) + count_class UNCHANGED w pages.
Proof.
  induction pages as [|page rest IH]; intros locals.
  - exists (snd locals). destruct locals as [changedPages stats].
    unfold count_class. simpl. unfold ret. rewrite app_nil_r.
    repeat split; lia.
  - simpl. unfold bind at 1. rewrite detectChanges_step_run.
    destruct (IH (after_page (classification w page) page locals))
      as (stats & Hrun & Ht & Hn & Hu & Hc).
    exists stats. rewrite Hrun, after_page_fst.
    destruct (after_page_stats page locals) as (Ht' & Hn' & Hu' & Hc').
    rewrite !(count_class_cons _ page rest).
    repeat split; try lia.
    destruct (emits w page); simpl; now rewrite <- ?app_assoc, ?app_nil_r.
Qed.

(** [detectChanges_scan]: the pages that are not unchanged, in the order
    of the input, and the three counts. *)
Lemma detectChanges_scan_run pages :
  detectChanges_scan pages w
  = (Ok (filter (emits w) pages,
         {| stat_total := Z.of_nat (length pages);
            stat_new := count_class NEW w pages;
            stat_updated := count_class UPDATED w pages;
            stat_unchanged := count_class UNCHANGED w pages |}), w).
Proof.
  unfold detectChanges_scan.
  match goal with |- for_of _ _ ?l _ = _ =>
    destruct (detectChanges_loop_run pages l)
      as (stats & Hrun & Ht & Hn & Hu & Hc)
  end.
  rewrite Hrun. simpl in *. destruct stats; simpl in *. now subst.
Qed.

Lemma detectChanges_run pages :
  detectChanges pages w = (Ok (filter (emits w) pages), w).
Proof.
  unfold detectChanges, bind. now rewrite detectChanges_scan_run.
Qed.

End Detection.

Lemma filter_Subsequence {A} (f : A -> bool) (l : list A) :
  Subsequence (filter f l) l.
Proof.
  induction l as [|x l IH]; simpl; [constructor|].
  destruct (f x); now constructor.
Qed.

Lemma hasPageChanged_cases page r :
  hasPageChanged page r = true
  <-> version_number page > version r \/ title page <> synced_title r.
Proof.
  unfold hasPageChanged.
  destruct (version_number page >? version r) eqn:Hv.
  - apply Z.gtb_gt in Hv. split; auto.
  - assert (~ version_number page > version r).
    { intros G. apply Z.gtb_gt in G. congruence. }
    destruct (str_eqb (title page) (synced_title r)) eqn:Ht; simpl.
    + apply str_eqb_eq in Ht. split; [discriminate | tauto].
    + apply str_eqb_neq in Ht. split; auto.
Qed.

Lemma emits_In w page pages :
  In page (filter (emits w) pages)
  <-> In page pages /\ classification w page <> UNCHANGED.
Proof.
  rewrite filter_In. unfold emits, is_class.
  destruct (classification w page); simpl; intuition congruence.
Qed.

(** C2: the loop of [detectChanges] treats every page by its class (the
    counter it increments and whether it pushes the page), and for a page
    of the input: without a record it is NEW and in the changed list; with
    a record of a smaller version it is UPDATED and in the list; with a
    record of the same version and another title it is UPDATED and in the
    list; with a record of the same version and the same title it is
    UNCHANGED and not in the list. *)
Theorem detectChanges_classification_correct (w : World) (pages : list Page)
    (page : Page) :
  In page pages ->
  (forall locals,
     detectChanges_step page locals w
     = (Ok (after_page (classification w page) page locals), w))
  /\ exists changed,
       detectChanges pages w = (Ok changed, w)
       /\ (lookup w (id page) = None ->
           classification w page = NEW /\ In page changed)
       /\ (forall r, lookup w (id page) = Some r ->
           version_number page > version r ->
           classification w page = UPDATED /\ In page changed)
       /\ (forall r, lookup w (id page) = Some r ->
           version_number page = version r ->
           title page <> synced_title r ->
           classification w page = UPDATED /\ In page changed)
       /\ (forall r, lookup w (id page) = Some r ->
           version_number page = version r ->
           title page = synced_title r ->
           classification w page = UNCHANGED /\ ~ In page changed).
Proof.
  intros Hin. split; [intros locals; apply detectChanges_step_run|].
  exists (filter (emits w) pages). split; [apply detectChanges_run|].
  assert (Hemit : classification w page <> UNCHANGED ->
                  In page (filter (emits w) pages)).
  { intros Hc. apply emits_In. now split. }
  assert (Hskip : classification w page = UNCHANGED ->
                  ~ In page (filter (emits w) pages)).
  { intros Hc Hp. apply emits_In in Hp. tauto. }
  revert Hemit Hskip. unfold classification.
  intros Hemit Hskip. split; [|split; [|split]].
  - intros E. rewrite E in *. split; [reflexivity|].
    apply Hemit. discriminate.
  - intros r E Hv. rewrite E in *.
    rewrite (proj2 (hasPageChanged_cases page r) (or_introl Hv)) in *.
    split; [reflexivity|]. apply Hemit. discriminate.
  - intros r E _ Ht. rewrite E in *.
    rewrite (proj2 (hasPageChanged_cases page r) (or_intror Ht)) in *.
    split; [reflexivity|]. apply Hemit. discriminate.
  - intros r E Hv Ht. rewrite E in *.
    destruct (hasPageChanged page r) eqn:Hch.
    + apply hasPageChanged_cases in Hch. destruct Hch; [lia | contradiction].
    + split; [reflexivity|]. now apply Hskip.
Qed.

Lemma detectChanges_classification_correct_witness :
  In (sample_page "2" "B" 2) [sample_page "1" "A" 1; sample_page "2" "B" 2]
  /\ exists changed,
       detectChanges [sample_page "1" "A" 1; sample_page "2" "B" 2] sample_world
       = (Ok changed, sample_world)
       /\ In (sample_page "2" "B" 2) changed.
Proof.
  assert (Hin : In (sample_page "2" "B" 2)
                  [sample_page "1" "A" 1; sample_page "2" "B" 2])
    by (right; left; reflexivity).
  split; [exact Hin|].
  destruct (detectChanges_classification_correct sample_world _ _ Hin)
    as (_ & changed & Hrun & Hnew & _).
  exists changed. split; [exact Hrun|].
  apply Hnew. vm_compute. reflexivity.
Defined.

(** C4, as stated, fails: a page whose version is below the stored one and
    whose title differs from the stored title is classified UPDATED and
    emitted. *)
Lemma version_decrease_with_rename_is_emitted :
  ~ (forall (w : World) (page : Page) (r : SyncedPage),
       lookup w (id page) = Some r ->
       version_number page < version r ->
       classification w page = UNCHANGED
       /\ fst (detectChanges [page] w) = Ok []).
Proof.
  intros H.
  destruct (H sample_world (sample_page "1" "Renamed" 0)
              (sample_row "1" "A" 1 "/content/dev_1_a.md")) as [Hc _].
  - vm_compute. reflexivity.
  - vm_compute. reflexivity.
  - vm_compute in Hc. discriminate.
Qed.

(** C4, amended: for a page with a record of a greater version, the title
    alone decides: with the stored title the page is UNCHANGED and not
    emitted, with another title it is UPDATED and emitted. *)
Theorem version_decrease_follows_title (w : World) (pages : list Page)
    (page : Page) (r : SyncedPage) :
  lookup w (id page) = Some r ->
  version_number page < version r ->
  exists changed,
    detectChanges pages w = (Ok changed, w)
    /\ (title page = synced_title r ->
        classification w page = UNCHANGED /\ ~ In page changed)
    /\ (title page <> synced_title r ->
        classification w page = UPDATED
        /\ (In page pages -> In page changed)).
Proof.
  intros E Hv. exists (filter (emits w) pages).
  split; [apply detectChanges_run|].
  assert (Hc : classification w page
               = if hasPageChanged page r then UPDATED else UNCHANGED).
  { unfold classification. now rewrite E. }
  split; intros Ht.
  - destruct (hasPageChanged page r) eqn:Hch.
    + apply hasPageChanged_cases in Hch. destruct Hch; [lia | contradiction].
    + split; [exact Hc|]. intros Hp. apply emits_In in Hp. tauto.
  - rewrite (proj2 (hasPageChanged_cases page r) (or_intror Ht)) in Hc.
    split; [exact Hc|]. intros Hin. apply emits_In. split; [exact Hin|].
    rewrite Hc. discriminate.
Qed.

Lemma version_decrease_follows_title_witness :
  exists changed,
    detectChanges [sample_page "1" "A" 0] sample_world
    = (Ok changed, sample_world)
    /\ ~ In (sample_page "1" "A" 0) changed.
Proof.
  destruct (version_decrease_follows_title sample_world
              [sample_page "1" "A" 0] (sample_page "1" "A" 0)
              (sample_row "1" "A" 1 "/content/dev_1_a.md"))
    as (changed & Hrun & Hsame & _).
  - vm_compute. reflexivity.
  - vm_compute. reflexivity.
  - exists changed. split; [exact Hrun|]. apply Hsame. reflexivity.
Defined.

(** C6: [detectChanges] returns the pages of the input that are classified
    NEW or UPDATED, each occurrence once and in the order of the input, so
    a subsequence of the input; and it leaves the world, the record store
    included, as it was. *)
Theorem detectChanges_preserves_order (w : World) (pages : list Page) :
  exists changed,
    detectChanges pages w = (Ok changed, w)
    /\ changed = filter (emits w) pages
    /\ Subsequence changed pages
    /\ (forall page, emits w page = true
                     <-> classification w page = NEW
                         \/ classification w page = UPDATED)
    /\ (forall page, occurrences page changed
                     = if emits w page then occurrences page pages else O).
Proof.
  exists (filter (emits w) pages).
  split; [apply detectChanges_run|]. split; [reflexivity|].
  split; [apply filter_Subsequence|]. split.
  - intros page. unfold emits, is_class.
    destruct (classification w page); simpl; intuition congruence.
  - intros page. unfold occurrences.
    induction pages as [|p rest IH]; simpl.
    + now destruct (emits w page).
    + destruct (emits w p) eqn:Ep; simpl;
        destruct (Page_eq_dec p page) as [->|Hne]; rewrite IH;
        try rewrite Ep; reflexivity.
Qed.

(** * Deletion detection *)

Lemma unique_from_In x xs :
  forall seen, In x (unique_from seen xs) <-> In x xs /\ ~ In x seen.
Proof.
  induction xs as [|y rest IH]; intros seen; simpl; [tauto|].
  destruct (str_mem y seen) eqn:Hy.
  - apply str_mem_In in Hy. rewrite IH. split.
    + tauto.
    + intros [[->|Hx] Hn]; tauto.
  - apply str_mem_not_In in Hy. simpl. rewrite IH, in_app_iff. simpl.
    destruct (jsstring_dec y x) as [->|Hne]; tauto.
Qed.

Lemma unique_In x xs : In x (unique xs) <-> In x xs.
Proof. unfold unique. rewrite unique_from_In. simpl. tauto. Qed.

Lemma unique_from_NoDup xs :
  forall seen, NoDup (unique_from seen xs).
Proof.
  induction xs as [|y rest IH]; intros seen; simpl; [constructor|].
  destruct (str_mem y seen); [apply IH|].
  constructor; [|apply IH].
  rewrite unique_from_In, in_app_iff. simpl. tauto.
Qed.

Lemma gather_spaces_run w spaceKeys :
  forall syncedPages,
    for_of spaceKeys
      (fun spaceKey syncedPages =>
         rows <- db_getPagesBySpace spaceKey ;;
         ret (syncedPages ++ rows))
      syncedPages w
    = (Ok (syncedPages ++ flat_map (rows_of_space w) spaceKeys), w).
Proof.
  induction spaceKeys as [|k rest IH]; intros acc; simpl.
  - unfold ret. now rewrite app_nil_r.
  - unfold bind at 1. unfold bind at 1. unfold db_getPagesBySpace, ret.
    rewrite IH. unfold rows_of_space. now rewrite <- app_assoc.
Qed.

Lemma detectDeletedPages_run w pages :
  detectDeletedPages pages w
  = (Ok (not_in_confluence (unique (map id pages))
           (flat_map (rows_of_space w) (unique (map page_space_key pages)))),
     w).
Proof.
  unfold detectDeletedPages, bind. now rewrite gather_spaces_run.
Qed.

Lemma detectDeletedPagesInSpace_run w spaceKey pages :
  detectDeletedPagesInSpace spaceKey pages w
  = (Ok (not_in_confluence (unique (map id pages)) (rows_of_space w spaceKey)),
     w).
Proof. reflexivity. Qed.

Lemma not_in_confluence_In r ids rows :
  In r (not_in_confluence (unique ids) rows)
  <-> In r rows /\ ~ In (page_id r) ids.
Proof.
  unfold not_in_confluence. rewrite filter_In, negb_true_iff.
  now rewrite str_mem_not_In, unique_In.
Qed.

Lemma rows_of_space_In w r spaceKey :
  In r (rows_of_space w spaceKey)
  <-> In r (synced_pages w) /\ space_key r = spaceKey.
Proof. unfold rows_of_space. now rewrite filter_In, str_eqb_eq. Qed.

(** C3: [detectDeletedPages] leaves the world as it is and reports a
    stored record exactly when its space key is one of the space keys of
    the snapshot and its id is not an id of the snapshot; so a record of a
    space that the snapshot does not show is never reported.  The variant
    for one space reports the records of that space whose id is not in the
    snapshot. *)
Theorem detectDeletedPages_scoped (w : World) (pages : list Page) :
  exists deleted,
    detectDeletedPages pages w = (Ok deleted, w)
    /\ (forall r,
          In r deleted
          <-> In r (synced_pages w)
              /\ In (space_key r) (map page_space_key pages)
              /\ ~ In (page_id r) (map id pages))
    /\ (forall r,
          ~ In (space_key r) (map page_space_key pages) -> ~ In r deleted)
    /\ (forall spaceKey,
        exists deletedInSpace,
          detectDeletedPagesInSpace spaceKey pages w = (Ok deletedInSpace, w)
          /\ forall r,
               In r deletedInSpace
               <-> In r (synced_pages w) /\ space_key r = spaceKey
                   /\ ~ In (page_id r) (map id pages)).
Proof.
  eexists. split; [apply detectDeletedPages_run|].
  assert (Hiff : forall r,
            In r (not_in_confluence (unique (map id pages))
                    (flat_map (rows_of_space w)
                       (unique (map page_space_key pages))))
            <-> In r (synced_pages w)
                /\ In (space_key r) (map page_space_key pages)
                /\ ~ In (page_id r) (map id pages)).
  { intros r. rewrite not_in_confluence_In, in_flat_map. split.
    - intros [(k & Hk & Hr) Hid]. apply (proj1 (unique_In _ _)) in Hk.
      apply (proj1 (rows_of_space_In _ _ _)) in Hr.
      destruct Hr as [Hr <-]. tauto.
    - intros (Hr & Hk & Hid). split; [|exact Hid].
      exists (space_key r). split; [now apply unique_In|].
      now apply rows_of_space_In. }
  split; [exact Hiff|]. split.
  - intros r Hk Hr. apply Hiff in Hr. tauto.
  - intros spaceKey. eexists.
    split; [apply detectDeletedPagesInSpace_run|].
    intros r. rewrite not_in_confluence_In, rows_of_space_In. tauto.
Qed.

Lemma detectDeletedPages_scoped_witness :
  exists deleted,
    detectDeletedPages
      [{| id := str "9"; title := str "Runbook"; page_space_key := str "OPS";
          version_number := 1; links_webui := None |}]
      sample_world
    = (Ok deleted, sample_world)
    /\ ~ In (sample_row "3" "C" 1 "/content/dev_3_c.md") deleted.
Proof.
  destruct (detectDeletedPages_scoped sample_world
              [{| id := str "9"; title := str "Runbook";
                  page_space_key := str "OPS"; version_number := 1;
                  links_webui := None |}])
    as (deleted & Hrun & _ & Hscope & _).
  exists deleted. split; [exact Hrun|].
  apply Hscope. vm_compute. intros [H|[]]. discriminate.
Defined.

(** * Idempotence of a second pass *)

Lemma synced_page_unchanged w page :
  (exists r, lookup w (id page) = Some r
             /\ version r = version_number page
             /\ synced_title r = title page) ->
  classification w page = UNCHANGED.
Proof.
  intros (r & E & Hv & Ht). unfold classification. rewrite E.
  destruct (hasPageChanged page r) eqn:Hch; [|reflexivity].
  apply hasPageChanged_cases in Hch. destruct Hch; [lia | congruence].
Qed.

Lemma all_unchanged_scan w pages :
  (forall page, In page pages -> classification w page = UNCHANGED) ->
  filter (emits w) pages = []
  /\ count_class NEW w pages = 0
  /\ count_class UPDATED w pages = 0
  /\ count_class UNCHANGED w pages = Z.of_nat (length pages).
Proof.
  induction pages as [|page rest IH]; intros H.
  - repeat split.
  - destruct IH as (I1 & I2 & I3 & I4); [intros q Hq; apply H; now right|].
    pose proof (H page (or_introl eq_refl)) as Hc.
    assert (F0 : emits w page = false)
      by (unfold emits, is_class; now rewrite Hc).
    assert (F1 : is_class NEW w page = false)
      by (unfold is_class; now rewrite Hc).
    assert (F2 : is_class UPDATED w page = false)
      by (unfold is_class; now rewrite Hc).
    assert (F3 : is_class UNCHANGED w page = true)
      by (unfold is_class; now rewrite Hc).
    rewrite !(count_class_cons _ _ page rest), I2, I3, I4.
    unfold count_class. cbn [filter]. rewrite F0, F1, F2, F3, I1.
    cbn [length]. repeat split; lia.
Qed.

Lemma filter_nil_when {A} (f : A -> bool) (l : list A) :
  (forall x, In x l -> f x = false) -> filter f l = [].
Proof.
  induction l as [|x l IH]; intros H; simpl; [reflexivity|].
  rewrite (H x (or_introl eq_refl)). apply IH. intros y Hy. apply H. now right.
Qed.

(** C1, as stated, fails: the records of the snapshot being in the store
    does not keep the store from holding a stale record of the same space,
    which deletion detection reports. *)
Lemma synced_snapshot_with_stale_record_reports_deletion :
  ~ (forall (w : World) (pages : list Page),
       all_synced w pages ->
       fst (detectChanges pages w) = Ok []
       /\ fst (detectDeletedPages pages w) = Ok []).
Proof.
  intros H.
  destruct (H sample_world [sample_page "1" "A" 1]) as [_ Hd].
  - intros page [<-|[]].
    exists (sample_row "1" "A" 1 "/content/dev_1_a.md").
    repeat split.
  - vm_compute in Hd. discriminate.
Qed.

(** C1, amended: when every page of the snapshot has its record (same id,
    version number and title) and the store holds no stale record in the
    spaces of the snapshot, as after a run that has applied its deletions,
    a second pass emits nothing, counts every page as unchanged, and
    detects no deletion; the world is left as it was. *)
Theorem second_pass_idempotent (w : World) (pages : list Page) :
  all_synced w pages ->
  no_stale_record w pages ->
  detectChanges pages w = (Ok [], w)
  /\ detectChanges_scan pages w
     = (Ok ([], {| stat_total := Z.of_nat (length pages);
                   stat_new := 0;
                   stat_updated := 0;
                   stat_unchanged := Z.of_nat (length pages) |}), w)
  /\ detectDeletedPages pages w = (Ok [], w).
Proof.
  intros Hsync Hstale.
  destruct (all_unchanged_scan w pages) as (E1 & E2 & E3 & E4).
  { intros page Hp. apply synced_page_unchanged. now apply Hsync. }
  rewrite detectChanges_run, detectChanges_scan_run, detectDeletedPages_run.
  rewrite E1, E2, E3, E4. repeat split.
  unfold not_in_confluence. rewrite filter_nil_when; [reflexivity|].
  intros r Hr. apply in_flat_map in Hr. destruct Hr as (k & Hk & Hr).
  apply (proj1 (unique_In _ _)) in Hk.
  apply (proj1 (rows_of_space_In _ _ _)) in Hr. destruct Hr as [Hr <-].
  apply negb_false_iff, str_mem_In, unique_In. now apply Hstale.
Qed.

Lemma second_pass_idempotent_witness :
  detectChanges [sample_page "1" "A" 1; sample_page "3" "C" 1] sample_world
  = (Ok [], sample_world)
  /\ detectDeletedPages [sample_page "1" "A" 1; sample_page "3" "C" 1]
       sample_world
     = (Ok [], sample_world).
Proof.
  destruct (second_pass_idempotent sample_world
              [sample_page "1" "A" 1; sample_page "3" "C" 1])
    as (H1 & _ & H3).
  - intros page [<-|[<-|[]]]; eexists; repeat split; vm_compute; reflexivity.
  - intros r [<-|[<-|[]]] _; vm_compute; auto.
  - split; assumption.
Defined.

(** * Drift between the records and the files *)

Lemma insert_desc_In x r rows :
  In x (insert_desc r rows) <-> x = r \/ In x rows.
Proof.
  induction rows as [|r' rest IH]; simpl; [intuition congruence|].
  destruct (str_ltb (last_synced r) (last_synced r')); simpl.
  - rewrite IH. intuition congruence.
  - intuition congruence.
Qed.

Lemma order_by_last_synced_desc_In x rows :
  In x (order_by_last_synced_desc rows) <-> In x rows.
Proof.
  induction rows as [|r rest IH]; simpl; [tauto|].
  rewrite insert_desc_In, IH. intuition congruence.
Qed.

Lemma fileExists_run w r : fileExists r w = (Ok (artifact_present w r), w).
Proof.
  unfold fileExists, artifact_present.
  destruct (truthy (file_path r)); reflexivity.
Qed.

Lemma findMissingFiles_loop_run w rows :
  forall missingFiles,
    for_of rows
      (fun page missingFiles =>
         present <- fileExists page ;;
         if negb present then ret (missingFiles ++ [page])
         else ret missingFiles)
      missingFiles w
    = (Ok (missingFiles
           ++ filter (fun r => negb (artifact_present w r)) rows), w).
Proof.
  induction rows as [|r rest IH]; intros acc; simpl.
  - unfold ret. now rewrite app_nil_r.
  - unfold bind at 1. unfold bind at 1. rewrite fileExists_run.
    destruct (artifact_present w r); simpl; unfold ret; rewrite IH.
    + reflexivity.
    + now rewrite <- app_assoc.
Qed.

Lemma findMissingFiles_run w :
  findMissingFiles w
  = (Ok (filter (fun r => negb (artifact_present w r))
           (order_by_last_synced_desc (synced_pages w))), w).
Proof.
  unfold findMissingFiles, bind, db_getAllPages.
  now rewrite findMissingFiles_loop_run.
Qed.

Lemma is_file_remove_file p f : is_file (remove_file p f) p = false.
Proof.
  unfold is_file, remove_file. simpl. apply str_mem_not_In.
  rewrite in_map_iff. intros ((q & d) & E & Hin). simpl in E. subst q.
  apply filter_In in Hin. destruct Hin as [_ Hn]. simpl in Hn.
  now rewrite str_eqb_refl in Hn.
Qed.

(** A record whose file has been removed from outside has no artifact. *)
Lemma artifact_gone_after_external_delete w r p :
  file_path r = Some p ->
  is_dir (fs w) p = false ->
  artifact_present (external_delete p w) r = false.
Proof.
  intros Hp Hd. unfold artifact_present. rewrite Hp. simpl path_of.
  unfold external_delete. simpl fs. rewrite is_file_remove_file.
  unfold is_dir in *. simpl. rewrite Hd. now rewrite andb_false_r.
Qed.

(** C7: [findMissingFiles] leaves the world as it is and lists a stored
    record exactly when its [file_path] is missing or empty or names
    nothing that exists; so once the artifact file of a record has been
    deleted from outside, the record is listed. *)
Theorem findMissingFiles_lists_drift (w : World) :
  (exists missing,
     findMissingFiles w = (Ok missing, w)
     /\ forall r,
          In r missing
          <-> In r (synced_pages w)
              /\ (truthy (file_path r) = false
                  \/ fst (existsSync (path_of (file_path r)) w) = Ok false))
  /\ (forall r p,
        In r (synced_pages w) ->
        file_path r = Some p ->
        is_dir (fs w) p = false ->
        exists missing,
          findMissingFiles (external_delete p w)
          = (Ok missing, external_delete p w)
          /\ In r missing).
Proof.
  split.
  - eexists. split; [apply findMissingFiles_run|].
    intros r. rewrite filter_In, order_by_last_synced_desc_In.
    unfold artifact_present, existsSync. simpl.
    destruct (truthy (file_path r)); simpl.
    + destruct (is_dir (fs w) (path_of (file_path r))
                || is_file (fs w) (path_of (file_path r))); simpl;
        intuition congruence.
    + intuition congruence.
  - intros r p Hr Hp Hd. eexists. split; [apply findMissingFiles_run|].
    rewrite filter_In, order_by_last_synced_desc_In. split; [exact Hr|].
    now rewrite (artifact_gone_after_external_delete w r p Hp Hd).
Qed.

Lemma findMissingFiles_lists_drift_witness :
  exists missing,
    findMissingFiles (external_delete (str "/content/dev_1_a.md") sample_world)
    = (Ok missing, external_delete (str "/content/dev_1_a.md") sample_world)
    /\ In (sample_row "1" "A" 1 "/content/dev_1_a.md") missing.
Proof.
  apply (proj2 (findMissingFiles_lists_drift sample_world)).
  - left. reflexivity.
  - reflexivity.
  - vm_compute. reflexivity.
Defined.

(** * Saving a page *)

Lemma writeFileSync_keeps w w' p data o :
  writeFileSync p data w = (o, w') ->
  synced_pages w' = synced_pages w /\ config w' = config w
  /\ clock w' = clock w /\ db_fault w' = db_fault w
  /\ (forall m, o = Throw m -> w' = w)
  /\ (o = Ok tt -> is_file (fs w') p = true).
Proof.
  unfold writeFileSync.
  destruct (fs_fault w (FsWrite p)) as [m|].
  { intros E. inversion E. subst. repeat split; auto. discriminate. }
  destruct (is_dir (fs w) p).
  { intros E. inversion E. subst. repeat split; auto. discriminate. }
  destruct (negb (parent_exists (fs w) p)).
  { intros E. inversion E. subst. repeat split; auto. discriminate. }
  intros E. inversion E. subst. simpl. repeat split; auto.
  - intros m Hm. discriminate.
  - intros _. unfold is_file. simpl. apply str_mem_In.
    induction (fs_files (fs w)) as [|[q d] rest IH]; simpl; [now left|].
    destruct (str_eqb q p); simpl; auto.
Qed.

Lemma savePage_run w page markdown :
  savePage page markdown w
  = match writeFileSync (artifact_path w page) markdown w with
    | (Ok _, w') =>
        (Ok {| success := true; filePath := Some (artifact_path w page);
               pageId := None; error := None |}, w')
    | (Throw m, w') =>
        (Ok {| success := false; filePath := None; pageId := None;
               error := Some m |}, w')
    end.
Proof.
  unfold savePage, try_catch, bind, getPageFilePath, artifact_path.
  destruct (writeFileSync _ markdown w) as [[u|m] w']; reflexivity.
Qed.

(** C9: [savePageWithMetadata] never throws.  When the write of the file
    throws, it returns [success = false] with the message and the record
    store is what it was (the world is); when the write succeeds and the
    upsert throws, it returns [success = false] with the path of the file,
    which is on disk, and the record store is what it was. *)
Theorem savePageWithMetadata_failures (w : World) (page : Page)
    (markdown : jsstring) (fileSearchStoreName : option jsstring) :
  (forall m w1,
     writeFileSync (artifact_path w page) markdown w = (Throw m, w1) ->
     savePageWithMetadata page markdown fileSearchStoreName w
     = (Ok {| success := false; filePath := None; pageId := None;
              error := Some m |}, w)
     /\ w1 = w)
  /\ (forall m w1,
        writeFileSync (artifact_path w page) markdown w = (Ok tt, w1) ->
        db_upsertPage (record_of w page fileSearchStoreName) w1
        = (Throw m, w1) ->
        savePageWithMetadata page markdown fileSearchStoreName w
        = (Ok {| success := false;
                 filePath := Some (artifact_path w page);
                 pageId := None;
                 error := Some (str "File saved but database update failed: "
                                  ++ m) |}, w1)
        /\ synced_pages w1 = synced_pages w
        /\ is_file (fs w1) (artifact_path w page) = true).
Proof.
  split.
  - intros m w1 Hw.
    destruct (writeFileSync_keeps _ _ _ _ _ Hw) as (_ & _ & _ & _ & Hsame & _).
    specialize (Hsame m eq_refl). subst w1. split; [|reflexivity].
    unfold savePageWithMetadata, bind. now rewrite savePage_run, Hw.
  - intros m w1 Hw Hup.
    destruct (writeFileSync_keeps _ _ _ _ _ Hw) as (Hs & Hc & Hk & _ & _ & Hf).
    split; [|split; [exact Hs | now apply Hf]].
    unfold savePageWithMetadata, bind at 1. rewrite savePage_run, Hw.
    cbn [success negb filePath].
    unfold try_catch, bind, now_iso, page_url.
    unfold record_of in Hup. rewrite <- Hk, <- Hc in Hup.
    match goal with
    | |- context [db_upsertPage ?row w1] =>
        replace (db_upsertPage row w1) with (@Throw unit m, w1)
          by (symmetry; exact Hup)
    end.
    reflexivity.
Qed.

Lemma savePageWithMetadata_failures_witness :
  fst (savePageWithMetadata (sample_page "2" "B" 2) (str "# B") None
         locked_world)
  = Ok {| success := false;
          filePath := Some (str "/content/dev_2_b.md");
          pageId := None;
          error := Some (str "File saved but database update failed: database is locked") |}.
Proof.
  destruct (proj2 (savePageWithMetadata_failures locked_world
                     (sample_page "2" "B" 2) (str "# B") None)
              (str "database is locked")
              (snd (writeFileSync (str "/content/dev_2_b.md") (str "# B")
                      locked_world)))
    as (Hrun & _).
  - vm_compute. reflexivity.
  - vm_compute. reflexivity.
  - rewrite Hrun. vm_compute. reflexivity.
Defined.

Lemma lookup_upsert_row row rows :
  find (has_id (page_id row)) (upsert_row row rows) = Some row.
Proof.
  induction rows as [|r rest IH]; simpl.
  - unfold has_id. now rewrite str_eqb_refl.
  - destruct (has_id (page_id row) r) eqn:E; simpl.
    + unfold has_id. now rewrite str_eqb_refl.
    + now rewrite E.
Qed.

(** A save that reports success has put the record of the page in the
    store: the id, the version number and the title of the page. *)
Lemma savePageWithMetadata_success_records w page markdown store r w' :
  savePageWithMetadata page markdown store w = (Ok r, w') ->
  success r = true ->
  lookup w' (id page) = Some (record_of w page store).
Proof.
  unfold savePageWithMetadata, bind at 1. rewrite savePage_run.
  destruct (writeFileSync (artifact_path w page) markdown w)
    as [[u|m] w1] eqn:Hw.
  2:{ cbn. intros E. inversion E. subst. discriminate. }
  destruct (writeFileSync_keeps _ _ _ _ _ Hw) as (Hs & Hc & Hk & Hd & _ & _).
  cbn [success negb filePath].
  unfold try_catch, bind, now_iso, page_url, db_upsertPage, ret.
  destruct (db_fault w1 _) as [m|] eqn:Hf.
  - intros E. inversion E. subst. discriminate.
  - intros E _. inversion E. subst. unfold lookup. cbn [synced_pages set_synced_pages].
    rewrite Hk, Hc.
    exact (lookup_upsert_row (record_of w page store) (synced_pages w1)).
Qed.

Lemma writeFileSync_dirs w w' p data :
  writeFileSync p data w = (Ok tt, w') ->
  fs_dirs (fs w') = fs_dirs (fs w) /\ is_dir (fs w) p = false.
Proof.
  unfold writeFileSync.
  destruct (fs_fault w (FsWrite p)); [discriminate|].
  destruct (is_dir (fs w) p); [discriminate|].
  destruct (negb (parent_exists (fs w) p)); [discriminate|].
  intros E. inversion E. now split.
Qed.

(** The round trip of section 8: a page is saved and recorded, its file is
    then removed from outside, and [findMissingFiles] lists its record. *)
Lemma saved_then_deleted_is_missing w page markdown store r w' :
  savePageWithMetadata page markdown store w = (Ok r, w') ->
  success r = true ->
  exists missing,
    findMissingFiles (external_delete (artifact_path w page) w')
    = (Ok missing, external_delete (artifact_path w page) w')
    /\ In (record_of w page store) missing.
Proof.
  intros Hsave Hok.
  pose proof (savePageWithMetadata_success_records _ _ _ _ _ _ Hsave Hok)
    as Hrec.
  eexists. split; [apply findMissingFiles_run|].
  rewrite filter_In, order_by_last_synced_desc_In. split.
  - unfold lookup in Hrec. apply find_some in Hrec. apply Hrec.
  - rewrite artifact_gone_after_external_delete; [reflexivity..|].
    revert Hsave. unfold savePageWithMetadata, bind at 1.
    rewrite savePage_run.
    destruct (writeFileSync (artifact_path w page) markdown w)
      as [[[]|m] w1] eqn:Hw.
    2:{ cbn. intros E. inversion E. subst. discriminate. }
    destruct (writeFileSync_dirs _ _ _ _ Hw) as (Hd & Hn).
    cbn [success negb filePath].
    unfold try_catch, bind, now_iso, page_url, db_upsertPage, ret.
    destruct (db_fault w1 _).
    + intros E. inversion E. subst. discriminate.
    + intros E. inversion E. subst. unfold is_dir in *. simpl.
      now rewrite Hd.
Qed.

(** * Fetching the pages of a space *)

(** The query of a turn. *)
Lemma getAllPages_turn_cases spaceKey limit st w :
  let q := {| q_spaceKey := spaceKey;
              q_status := if excludeArchived (config w)
                          then str "current" else str "any";
              q_limit := limit;
              q_start := start st |} in
  (exists m, getAllPages_turn spaceKey limit st w = (Throw m, w))
  \/ (exists results,
        getAllPages_turn spaceKey limit st w
        = (Ok {| fetched := fetched st ++ results;
                 start := start st + limit;
                 hasMore := Z.of_nat (length results) =? limit |}, w)
        /\ (remote w q = Ok (Some results)
            \/ remote w q = Ok None /\ results = [])).
Proof.
  unfold getAllPages_turn, try_catch, bind, get_content, throw, ret.
  cbv zeta. destruct (remote w _) as [[results|]|m] eqn:E.
  - right. exists results. split; [reflexivity | now left].
  - right. exists []. split; [reflexivity | now right].
  - left. eexists. reflexivity.
Qed.

(** The loop ends: with [limit >= 1], every turn that lets the loop go on
    has added [limit] pages, so [maxPagesPerSync] turns and one more are
    enough fuel. *)
Lemma getAllPages_loop_terminates spaceKey limit w :
  1 <= limit ->
  forall fuel st,
    hasMore st = false
    \/ maxPagesPerSync (config w) - Z.of_nat (length (fetched st))
       < Z.of_nat fuel ->
    exists o, getAllPages_loop fuel spaceKey limit st w = (o, w)
              /\ o <> Ok None.
Proof.
  intros Hlimit fuel.
  induction fuel as [|fuel IH]; intros st Hfuel; simpl.
  - destruct (hasMore st) eqn:Hm; simpl.
    + destruct Hfuel as [|Hfuel]; [discriminate|].
      destruct (Z.ltb_spec (Z.of_nat (length (fetched st)))
                  (maxPagesPerSync (config w))); [simpl in Hfuel; lia|].
      eexists. split; [reflexivity | discriminate].
    + eexists. split; [reflexivity | discriminate].
  - destruct (hasMore st) eqn:Hm; simpl.
    2:{ eexists. split; [reflexivity | discriminate]. }
    destruct Hfuel as [|Hfuel]; [discriminate|].
    destruct (Z.ltb_spec (Z.of_nat (length (fetched st)))
                (maxPagesPerSync (config w))) as [Hlt|Hge].
    2:{ eexists. split; [reflexivity | discriminate]. }
    unfold bind.
    destruct (getAllPages_turn_cases spaceKey limit st w)
      as [(m & ->) | (results & -> & _)].
    + eexists. split; [reflexivity | discriminate].
    + apply IH. cbn [hasMore fetched].
      destruct (Z.eqb_spec (Z.of_nat (length results)) limit); [right|now left].
      rewrite length_app. lia.
Qed.

(** What the loop does bound: when no batch is longer than [limit], the
    result has fewer than [maxPagesPerSync + limit] pages. *)
Lemma getAllPages_loop_bound spaceKey limit w bound :
  (forall q results,
     remote w q = Ok (Some results) ->
     Z.of_nat (length results) <= q_limit q) ->
  0 <= limit ->
  maxPagesPerSync (config w) - 1 + limit <= bound ->
  forall fuel st pages w',
    Z.of_nat (length (fetched st)) <= bound ->
    getAllPages_loop fuel spaceKey limit st w = (Ok (Some pages), w') ->
    Z.of_nat (length pages) <= bound.
Proof.
  intros Hbatch Hlimit Hbound fuel.
  induction fuel as [|fuel IH]; intros st pages w' Hst; simpl.
  - destruct (hasMore st && _); intros E; inversion E. now subst.
  - destruct (hasMore st); simpl.
    2:{ intros E. inversion E. now subst. }
    destruct (Z.ltb_spec (Z.of_nat (length (fetched st)))
                (maxPagesPerSync (config w))) as [Hlt|Hge].
    2:{ intros E. inversion E. now subst. }
    unfold bind.
    destruct (getAllPages_turn_cases spaceKey limit st w)
      as [(m & ->) | (results & -> & Hr)]; [discriminate|].
    apply IH. cbn [fetched]. rewrite length_app.
    destruct Hr as [Hr | [_ ->]].
    + apply Hbatch in Hr. cbn [q_limit] in Hr. lia.
    + simpl. lia.
Qed.

(** C5: with [maxPagesPerSync = 150], [limit = 100] and a remote space of
    250 pages, [getAllPages] returns the first 200 pages: the loop tests
    the bound before a request and keeps the whole batch, so the result is
    not bounded by [maxPagesPerSync]. *)
Theorem getAllPages_exceeds_maxPagesPerSync :
  maxPagesPerSync (config sample_world) = 150
  /\ getAllPages 3 (str "DEV") 100 sample_world
     = (Ok (Some (firstn 200 remote_space)), sample_world)
  /\ length (firstn 200 remote_space) = 200%nat.
Proof.
  split; [reflexivity|]. split; [|reflexivity].
  vm_compute. reflexivity.
Qed.

(** * Cleaning up *)

(** ** The scan for orphaned files *)

Lemma split_last_slash_join p :
  forall d b, split_last_slash p = Some (d, b) -> p = path_join d b.
Proof.
  induction p as [|c t IH]; intros d b; simpl; [discriminate|].
  destruct (split_last_slash t) as [[d' b']|].
  - intros E. inversion E. subst. now rewrite (IH d' b eq_refl).
  - destruct (Z.eqb_spec c SLASH) as [->|]; [|discriminate].
    intros E. inversion E. reflexivity.
Qed.

Lemma children_In n dir paths :
  In n (children dir paths) -> In (path_join dir n) paths.
Proof.
  unfold children. rewrite in_flat_map. intros (e & He & Hn).
  destruct (split_last_slash e) as [[d b]|] eqn:E; [|contradiction].
  destruct (str_eqb d dir) eqn:Ed; [|contradiction].
  apply str_eqb_eq in Ed. destruct Hn as [<-|[]]. subst d.
  now rewrite <- (split_last_slash_join e _ _ E).
Qed.

Lemma statSync_isDirectory_run p w :
  In p (fs_paths (fs w)) ->
  statSync_isDirectory p w = (Ok (is_dir (fs w) p), w).
Proof.
  intros Hp. unfold statSync_isDirectory.
  destruct (is_dir (fs w) p) eqn:Hd; [reflexivity|].
  replace (is_file (fs w) p) with true; [reflexivity|].
  symmetry. apply str_mem_In. unfold fs_paths in Hp.
  apply in_app_or in Hp. destruct Hp as [Hp|Hp]; [|exact Hp].
  apply str_mem_In in Hp. unfold is_dir in Hd. congruence.
Qed.

Lemma each_file_total descend tracked dir w :
  (forall n acc,
     is_dir (fs w) (path_join dir n) = true ->
     exists l, descend (path_join dir n) acc w = (Ok (Some l), w)) ->
  forall files,
    (forall n, In n files -> In (path_join dir n) (fs_paths (fs w))) ->
    forall acc,
    exists l, each_file descend tracked dir files acc w = (Ok (Some l), w).
Proof.
  intros Hdesc files. induction files as [|n rest IH]; intros Hin acc.
  - eexists. reflexivity.
  - assert (Hrest : forall acc', exists l,
              each_file descend tracked dir rest acc' w = (Ok (Some l), w)).
    { apply IH. intros k Hk. apply Hin. now right. }
    simpl. unfold bind at 1.
    rewrite statSync_isDirectory_run by (apply Hin; now left).
    destruct (is_dir (fs w) (path_join dir n)) eqn:Hd.
    + unfold bind. destruct (Hdesc n acc Hd) as (l & ->). apply Hrest.
    + destruct (endsWith n (str ".md")); [|apply Hrest].
      destruct (negb (has_path tracked (path_join dir n))); apply Hrest.
Qed.

Lemma filter_length_lt {A} (P Q : A -> bool) (x : A) (l : list A) :
  (forall y, Q y = true -> P y = true) ->
  In x l -> P x = true -> Q x = false ->
  (length (filter Q l) < length (filter P l))%nat.
Proof.
  intros HQP Hx HP HQ.
  assert (Hle : forall l', (length (filter Q l') <= length (filter P l'))%nat).
  { induction l' as [|y l' IH]; simpl; [lia|].
    destruct (Q y) eqn:Qy; [rewrite (HQP y Qy); simpl; lia|].
    destruct (P y); simpl; lia. }
  induction l as [|y l IH]; [contradiction|].
  destruct Hx as [->|Hx]; simpl.
  - rewrite HP, HQ. simpl. specialize (Hle l). lia.
  - specialize (IH Hx). destruct (Q y) eqn:Qy.
    + rewrite (HQP y Qy). simpl. lia.
    + destruct (P y); simpl; lia.
Qed.

Lemma longer_dirs_decreases f dir n :
  is_dir f (path_join dir n) = true ->
  (longer_dirs f (path_join dir n) < longer_dirs f dir)%nat.
Proof.
  intros Hd. unfold longer_dirs.
  assert (Hlen : (length (path_join dir n) = length dir + 1 + length n)%nat).
  { unfold path_join. rewrite !length_app. simpl. lia. }
  apply filter_length_lt with (x := path_join dir n).
  - intros d Hq. apply Nat.ltb_lt in Hq. apply Nat.ltb_lt. lia.
  - now apply str_mem_In.
  - apply Nat.ltb_lt. lia.
  - apply Nat.ltb_ge. lia.
Qed.

(** The recursion of [findMarkdownFiles] ends: from a directory, fuel above
    the number of directories with a longer path is enough, and the scan
    reads the file system without changing the world. *)
Lemma findMarkdownFiles_enough_fuel tracked w :
  forall fuel dir acc,
    is_dir (fs w) dir = true ->
    (longer_dirs (fs w) dir < fuel)%nat ->
    exists l, findMarkdownFiles fuel tracked dir acc w = (Ok (Some l), w).
Proof.
  induction fuel as [|fuel IH]; intros dir acc Hd Hfuel; [lia|].
  simpl. unfold bind, readdirSync. rewrite Hd.
  apply each_file_total.
  - intros n acc' Hn. apply IH; [exact Hn|].
    pose proof (longer_dirs_decreases (fs w) dir n Hn). lia.
  - intros n. apply children_In.
Qed.

Lemma each_file_reads descend tracked dir w :
  (forall d acc o w', descend d acc w = (o, w') -> w' = w) ->
  forall files acc o w',
    each_file descend tracked dir files acc w = (o, w') -> w' = w.
Proof.
  intros Hdesc files. induction files as [|n rest IH]; intros acc o w'.
  - simpl. unfold ret. intros E. now inversion E.
  - simpl. unfold bind at 1. unfold statSync_isDirectory.
    destruct (is_dir (fs w) (path_join dir n)).
    + unfold bind.
      destruct (descend (path_join dir n) acc w) as [[[l|]|m] w1] eqn:E;
        pose proof (Hdesc _ _ _ _ E); subst w1.
      * apply IH.
      * unfold ret. intros E'. now inversion E'.
      * intros E'. now inversion E'.
    + destruct (is_file (fs w) (path_join dir n)).
      * destruct (endsWith n (str ".md")); [|apply IH].
        destruct (negb (has_path tracked (path_join dir n))); apply IH.
      * intros E. now inversion E.
Qed.

Lemma findMarkdownFiles_reads tracked w :
  forall fuel dir acc o w',
    findMarkdownFiles fuel tracked dir acc w = (o, w') -> w' = w.
Proof.
  induction fuel as [|fuel IH]; intros dir acc o w'; simpl.
  - unfold ret. intros E. now inversion E.
  - unfold bind, readdirSync.
    destruct (is_dir (fs w) dir).
    + apply each_file_reads. exact IH.
    + destruct (is_file (fs w) dir); intros E; now inversion E.
Qed.

(** [findOrphanedFiles] changes nothing, and returns a list unless the
    content directory is a regular file. *)
Lemma findOrphanedFiles_run contentDir w :
  exists o,
    findOrphanedFiles contentDir w = (o, w)
    /\ (is_dir (fs w) contentDir = true \/ is_file (fs w) contentDir = false ->
        exists l, o = Ok l).
Proof.
  unfold findOrphanedFiles, bind at 1. unfold existsSync.
  destruct (is_dir (fs w) contentDir) eqn:Hd; cbn [orb negb].
  - unfold bind, db_getAllPages.
    assert (Hfuel : (longer_dirs (fs w) contentDir
                     < S (length (fs_dirs (fs w))))%nat).
    { unfold longer_dirs. apply Nat.lt_succ_r, filter_length_le. }
    destruct (findMarkdownFiles_enough_fuel
                (map file_path (order_by_last_synced_desc (synced_pages w)))
                w (S (length (fs_dirs (fs w)))) contentDir [] Hd Hfuel)
      as (l & ->).
    eexists. split; [reflexivity|]. intros _. eexists. reflexivity.
  - destruct (is_file (fs w) contentDir) eqn:Hf; cbn [orb negb].
    + unfold bind, db_getAllPages.
      destruct (findMarkdownFiles _ _ contentDir [] w) as [[[l|]|m] w1] eqn:E;
        pose proof (findMarkdownFiles_reads _ _ _ _ _ _ _ E); subst w1;
        (eexists; split; [reflexivity|]);
        intros [?|?]; discriminate.
    + eexists. split; [reflexivity|]. intros _. eexists. reflexivity.
Qed.

(** ** The operations that [cleanup] performs *)

Lemma find_filter_none {A} (f g : A -> bool) (l : list A) :
  find f l = None -> find f (filter g l) = None.
Proof.
  induction l as [|x l IH]; simpl; [reflexivity|].
  destruct (f x) eqn:Fx; [discriminate|]. intros H.
  destruct (g x); simpl; [rewrite Fx|]; now apply IH.
Qed.

Lemma find_filter_out {A} (f : A -> bool) (l : list A) :
  find f (filter (fun x => negb (f x)) l) = None.
Proof.
  induction l as [|x l IH]; simpl; [reflexivity|].
  destruct (f x) eqn:Fx; simpl; [exact IH|]. now rewrite Fx.
Qed.

Lemma db_deletePage_facts pid w o w' :
  db_deletePage pid w = (o, w') ->
  fs w' = fs w /\ db_fault w' = db_fault w
  /\ (forall q, lookup w q = None -> lookup w' q = None)
  /\ (db_fault w (DbDelete pid) = None -> lookup w' pid = None)
  /\ (forall m, db_fault w (DbDelete pid) = Some m -> o = Throw m).
Proof.
  unfold db_deletePage.
  destruct (db_fault w (DbDelete pid)) as [m|]; intros E; inversion E; subst.
  - repeat split; auto. discriminate.
    intros m' Hm. now inversion Hm.
  - unfold lookup. simpl. repeat split.
    + intros q. apply find_filter_none.
    + intros _. apply find_filter_out.
    + discriminate.
Qed.

Lemma is_file_filter p g (files : list (jsstring * jsstring)) :
  str_mem p (map fst (filter g files)) = true ->
  str_mem p (map fst files) = true.
Proof.
  rewrite !str_mem_In, !in_map_iff. intros (e & E & He).
  apply filter_In in He. exists e. tauto.
Qed.

Lemma unlinkSync_facts p w o w' :
  unlinkSync p w = (o, w') ->
  synced_pages w' = synced_pages w /\ db_fault w' = db_fault w
  /\ fs_dirs (fs w') = fs_dirs (fs w)
  /\ (forall q, is_file (fs w') q = true -> is_file (fs w) q = true).
Proof.
  unfold unlinkSync.
  destruct (fs_fault w (FsUnlink p)) as [m|].
  { intros E; inversion E; subst. repeat split; auto. }
  destruct (is_file (fs w) p); intros E; inversion E; subst.
  - simpl. repeat split. intros q. unfold is_file. simpl.
    apply is_file_filter.
  - repeat split; auto.
Qed.

(** What an attempt leaves of the world. *)
Lemma attempt_page_facts page w :
  let w' := snd (attempt_page page w) in
  db_fault w' = db_fault w
  /\ fs_dirs (fs w') = fs_dirs (fs w)
  /\ (forall q, is_file (fs w') q = true -> is_file (fs w) q = true)
  /\ (forall q, lookup w q = None -> lookup w' q = None)
  /\ (db_fault w (DbDelete (page_id page)) = None ->
      lookup w' (page_id page) = None)
  /\ (forall m, db_fault w (DbDelete (page_id page)) = Some m ->
      fst (attempt_page page w) = RecordFailed m).
Proof.
  unfold attempt_page.
  destruct (db_deletePage (page_id page) w) as [[u|m] w1] eqn:Ed;
    destruct (db_deletePage_facts _ _ _ _ Ed) as (Hfs & Hf & Hl & Hn & Hm).
  2:{ simpl. rewrite Hfs. repeat split; auto.
      intros m' E. specialize (Hm m' E). now inversion Hm. }
  assert (Hno : forall m, db_fault w (DbDelete (page_id page)) = Some m ->
                          False).
  { intros m E. specialize (Hm m E). discriminate. }
  destruct (artifact_present w1 page).
  - destruct (unlinkSync (path_of (file_path page)) w1) as [[u'|m'] w2] eqn:Eu;
      destruct (unlinkSync_facts _ _ _ _ Eu) as (Hs & Hf' & Hd & Hmono);
      simpl; rewrite <- Hfs; repeat split; try congruence; auto;
      try (intros q Hq; unfold lookup in *; rewrite Hs; now apply Hl);
      try (intros Hq; unfold lookup in *; rewrite Hs; now apply Hn);
      try (intros m0 E; now destruct (Hno m0 E)).
  - simpl. rewrite Hfs. repeat split; auto.
    intros m0 E. now destruct (Hno m0 E).
Qed.

(** The body of the first loop never throws: it ends with the results and
    the world of the attempt on its page. *)
Lemma cleanup_page_run page r w :
  cleanup_page page (r, w)
  = (Ok tt, (after_attempt (page, fst (attempt_page page w)) r,
             snd (attempt_page page w))).
Proof.
  unfold cleanup_page, attempt_page, try_catch, bind, lift, update,
    after_attempt, artifact_present.
  cbn [fst snd].
  destruct (db_deletePage (page_id page) w) as [[u|m] w1]; cbn [fst snd];
    [|reflexivity].
  destruct (truthy (file_path page)); cbn [andb].
  - unfold existsSync. cbn [fst snd].
    destruct (is_dir (fs w1) (path_of (file_path page))
              || is_file (fs w1) (path_of (file_path page))); cbn [fst snd].
    + destruct (unlinkSync (path_of (file_path page)) w1) as [[u'|m'] w2];
        reflexivity.
    + reflexivity.
  - reflexivity.
Qed.

Lemma cleanup_pages_run pages :
  forall r w,
    for_each pages cleanup_page (r, w)
    = (Ok tt, (fold_left (fun r pa => after_attempt pa r)
                 (fst (attempts pages w)) r,
               snd (attempts pages w))).
Proof.
  induction pages as [|page rest IH]; intros r w; [reflexivity|].
  simpl. unfold bind. rewrite cleanup_page_run, IH.
  destruct (attempt_page page w) as [a w1]. cbn [fst snd].
  destruct (attempts rest w1) as [trace w2]. reflexivity.
Qed.

Lemma attempts_pages pages :
  forall w, map fst (fst (attempts pages w)) = pages.
Proof.
  induction pages as [|page rest IH]; intros w; [reflexivity|].
  simpl. destruct (attempt_page page w) as [a w1].
  specialize (IH w1). destruct (attempts rest w1) as [trace w2].
  simpl in *. now rewrite IH.
Qed.

Lemma page_errors_app es es' :
  page_errors (es ++ es') = page_errors es ++ page_errors es'.
Proof. unfold page_errors. apply filter_app. Qed.

Lemma after_attempts_results trace :
  forall r,
    let r' := fold_left (fun r pa => after_attempt pa r) trace r in
    deletedPages r'
    = deletedPages r + Z.of_nat (length (filter record_deleted trace))
    /\ deletedFiles r'
       = deletedFiles r + Z.of_nat (length (filter file_deleted trace))
    /\ orphanedFiles r' = orphanedFiles r
    /\ errors r' = errors r ++ flat_map attempt_error trace.
Proof.
  induction trace as [|[page a] rest IH]; intros r.
  - simpl. rewrite app_nil_r. repeat split; lia.
  - cbn [fold_left]. specialize (IH (after_attempt (page, a) r)).
    destruct IH as (I1 & I2 & I3 & I4).
    cbv zeta. rewrite I1, I2, I3, I4.
    cbn [filter flat_map].
    unfold after_attempt, record_deleted, file_deleted, attempt_error.
    cbn [fst snd].
    destruct a; cbn [length deletedPages deletedFiles orphanedFiles errors
                     push_error incr_deletedPages incr_deletedFiles app];
      rewrite <- ?app_assoc; repeat split; cbn [app]; try lia; reflexivity.
Qed.

Lemma attempts_facts pages :
  forall w,
    let trace := fst (attempts pages w) in
    let w' := snd (attempts pages w) in
    db_fault w' = db_fault w
    /\ fs_dirs (fs w') = fs_dirs (fs w)
    /\ (forall q, is_file (fs w') q = true -> is_file (fs w) q = true)
    /\ (forall q, lookup w q = None -> lookup w' q = None)
    /\ (forall page, In page pages ->
        db_fault w (DbDelete (page_id page)) = None ->
        lookup w' (page_id page) = None)
    /\ (forall page m, In page pages ->
        db_fault w (DbDelete (page_id page)) = Some m ->
        In (page, RecordFailed m) trace).
Proof.
  induction pages as [|page rest IH]; intros w.
  - simpl. repeat split; auto; contradiction.
  - cbv zeta. simpl.
    destruct (attempt_page_facts page w) as (A1 & A2 & A3 & A4 & A5 & A6).
    destruct (attempt_page page w) as [a w1]. cbn [fst snd] in *.
    specialize (IH w1). cbv zeta in IH.
    destruct (attempts rest w1) as [trace w2]. cbn [fst snd] in *.
    destruct IH as (I1 & I2 & I3 & I4 & I5 & I6).
    repeat split.
    + congruence.
    + congruence.
    + auto.
    + auto.
    + intros q [<-|Hq] Hf; [now apply I4, A5|].
      apply I5; [exact Hq | congruence].
    + intros q m [<-|Hq] Hf.
      * left. now rewrite (A6 m Hf).
      * right. apply I6; [exact Hq | congruence].
Qed.

Lemma cleanup_orphan_run filePath r w :
  exists r' w',
    cleanup_orphan filePath (r, w) = (Ok tt, (r', w'))
    /\ deletedPages r' = deletedPages r
    /\ deletedFiles r' = deletedFiles r
    /\ page_errors (errors r') = page_errors (errors r)
    /\ synced_pages w' = synced_pages w.
Proof.
  unfold cleanup_orphan, try_catch, bind, lift, update. cbn [fst snd].
  destruct (unlinkSync filePath w) as [[u|m] w1] eqn:Eu;
    destruct (unlinkSync_facts _ _ _ _ Eu) as (Hs & _);
    cbn [fst snd]; eexists; eexists; (split; [reflexivity|]);
    repeat split; try assumption.
  cbn [errors push_error]. rewrite page_errors_app.
  cbn. now rewrite app_nil_r.
Qed.

(** The second loop never throws and touches neither the counts of the
    first loop, nor the entries that name a page, nor the record store. *)
Lemma cleanup_orphans_run orphaned :
  forall r w,
  exists r' w',
    for_each orphaned cleanup_orphan (r, w) = (Ok tt, (r', w'))
    /\ deletedPages r' = deletedPages r
    /\ deletedFiles r' = deletedFiles r
    /\ page_errors (errors r') = page_errors (errors r)
    /\ synced_pages w' = synced_pages w.
Proof.
  induction orphaned as [|filePath rest IH]; intros r w.
  - exists r, w. repeat split.
  - simpl. unfold bind at 1.
    destruct (cleanup_orphan_run filePath r w)
      as (r1 & w1 & -> & A1 & A2 & A3 & A4).
    destruct (IH r1 w1) as (r' & w' & -> & H1 & H2 & H3 & H4).
    exists r', w'. repeat split; congruence.
Qed.

(** [cleanup] in two steps: the attempts on the pages, and then, unless the
    scan for orphaned files throws, the second loop. *)
Lemma cleanup_run pages contentDir w :
  let trace := fst (attempts pages w) in
  let w1 := snd (attempts pages w) in
  (exists m, cleanup pages contentDir w = (Throw m, w1)
             /\ is_dir (fs w1) contentDir = false
             /\ is_file (fs w1) contentDir = true)
  \/ (exists results w',
        cleanup pages contentDir w = (Ok results, w')
        /\ deletedPages results
           = Z.of_nat (length (filter record_deleted trace))
        /\ deletedFiles results
           = Z.of_nat (length (filter file_deleted trace))
        /\ page_errors (errors results) = flat_map attempt_error trace
        /\ synced_pages w' = synced_pages w1).
Proof.
  cbv zeta.
  destruct (cleanup pages contentDir w) as [o wf] eqn:E.
  unfold cleanup, bind in E. rewrite cleanup_pages_run in E.
  unfold lift in E. cbn [fst snd] in E.
  destruct (after_attempts_results (fst (attempts pages w)) results0)
    as (R1 & R2 & _ & R4).
  destruct (findOrphanedFiles_run contentDir (snd (attempts pages w)))
    as (oo & Hoo & Ho).
  rewrite Hoo in E. destruct oo as [orphaned|m].
  - right.
    destruct (cleanup_orphans_run orphaned
                (fold_left (fun r pa => after_attempt pa r)
                   (fst (attempts pages w)) results0)
                (snd (attempts pages w)))
      as (r' & w' & Hrun & H1 & H2 & H3 & H4).
    rewrite Hrun in E. inversion E. subst o wf.
    exists r', w'. split; [reflexivity|]. repeat split.
    + rewrite H1, R1. reflexivity.
    + rewrite H2, R2. reflexivity.
    + rewrite H3, R4. cbn [errors results0 app].
      unfold page_errors. apply forallb_filter_id.
      apply forallb_forall. intros e He. apply in_flat_map in He.
      destruct He as ([page a] & _ & He).
      unfold attempt_error in He. cbn [fst snd] in He.
      destruct a; cbn in He; try contradiction;
        destruct He as [<-|[]]; reflexivity.
    + exact H4.
  - left. inversion E. subst o wf. exists m. split; [reflexivity|].
    destruct (is_dir (fs (snd (attempts pages w))) contentDir) eqn:Hd.
    + destruct (Ho (or_introl eq_refl)) as (l & El). discriminate.
    + destruct (is_file (fs (snd (attempts pages w))) contentDir) eqn:Hf;
        [now split|].
      destruct (Ho (or_intror eq_refl)) as (l & El). discriminate.
Qed.

(** C8: [cleanup] attempts every page of the list, in order, whatever
    happened to the pages before it.  An attempt that throws, at the
    deletion of the record or at the deletion of the file, leaves exactly
    one entry with the id of its page and the message, and the other
    attempts leave none; the counts that [cleanup] returns are the numbers
    of records and of files whose deletion succeeded.  [cleanup] returns
    unless the content directory is a regular file, and in any case a page
    whose record deletion does not fail has no record left afterwards. *)
Theorem cleanup_isolates_failures (w : World) (pages : list SyncedPage)
    (contentDir : jsstring) :
  let trace := fst (attempts pages w) in
  map fst trace = pages
  /\ (forall pa, In pa trace ->
        match snd pa with
        | RecordFailed m | FileFailed m =>
            attempt_error pa = [PageError (page_id (fst pa)) m]
        | RecordOnly | RecordAndFile => attempt_error pa = []
        end)
  /\ (forall results w',
        cleanup pages contentDir w = (Ok results, w') ->
        page_errors (errors results) = flat_map attempt_error trace
        /\ deletedPages results
           = Z.of_nat (length (filter record_deleted trace))
        /\ deletedFiles results
           = Z.of_nat (length (filter file_deleted trace)))
  /\ (is_dir (fs w) contentDir = true \/ is_file (fs w) contentDir = false ->
      exists results w', cleanup pages contentDir w = (Ok results, w'))
  /\ (forall page m,
        In page pages ->
        db_fault w (DbDelete (page_id page)) = Some m ->
        In (page, RecordFailed m) trace)
  /\ (forall page o w',
        cleanup pages contentDir w = (o, w') ->
        In page pages ->
        db_fault w (DbDelete (page_id page)) = None ->
        lookup w' (page_id page) = None).
Proof.
  cbv zeta.
  destruct (attempts_facts pages w) as (F1 & F2 & F3 & F4 & F5 & F6).
  pose proof (cleanup_run pages contentDir w) as Hrun. cbv zeta in Hrun.
  split; [apply attempts_pages|]. split; [|split; [|split; [|split]]].
  - intros [page a] _. unfold attempt_error. cbn [fst snd].
    destruct a; reflexivity.
  - intros results w' E.
    destruct Hrun as [(m & Hm & _) | (r & w2 & Hr & H1 & H2 & H3 & _)].
    + rewrite Hm in E. discriminate.
    + rewrite Hr in E. inversion E. subst. auto.
  - intros Hdir.
    destruct Hrun as [(m & _ & Hd & Hf) | (r & w2 & Hr & _)].
    + exfalso. destruct Hdir as [Hdir|Hdir].
      * unfold is_dir in *. rewrite F2 in Hd. congruence.
      * apply F3 in Hf. congruence.
    + now exists r, w2.
  - exact F6.
  - intros page o w' E Hin Hf.
    assert (Hs : synced_pages w' = synced_pages (snd (attempts pages w))).
    { destruct Hrun as [(m & Hm & _) | (r & w2 & Hr & _ & _ & _ & Hs)].
      - rewrite Hm in E. now inversion E.
      - rewrite Hr in E. inversion E. now subst. }
    unfold lookup. rewrite Hs. now apply F5.
Qed.

Lemma cleanup_isolates_failures_witness :
  exists results w',
    cleanup [sample_row "1" "A" 1 "/content/dev_1_a.md";
             sample_row "3" "C" 1 "/content/dev_3_c.md"]
      (str "/content") locked_world
    = (Ok results, w')
    /\ lookup w' (str "3") = None.
Proof.
  destruct (cleanup_isolates_failures locked_world
              [sample_row "1" "A" 1 "/content/dev_1_a.md";
               sample_row "3" "C" 1 "/content/dev_3_c.md"]
              (str "/content"))
    as (_ & _ & _ & Hret & _ & Hgone).
  destruct Hret as (results & w' & E); [left; vm_compute; reflexivity|].
  exists results, w'. split; [exact E|].
  apply (Hgone (sample_row "3" "C" 1 "/content/dev_3_c.md") _ _ E).
  - right. left. reflexivity.
  - vm_compute. reflexivity.
Defined.

(** The run behind the witness: the record of page 1 cannot be deleted,
    the file of page 3 cannot be removed; both failures are recorded, the
    record of page 3 is gone and counted. *)
Example cleanup_after_two_failures :
  fst (cleanup [sample_row "1" "A" 1 "/content/dev_1_a.md";
                sample_row "3" "C" 1 "/content/dev_3_c.md"]
         (str "/content") locked_world)
  = Ok {| deletedPages := 1; deletedFiles := 0; orphanedFiles := 0;
          errors := [PageError (str "1") (str "database is locked");
                     PageError (str "3") (str "EACCES: permission denied");
                     FileError (str "/content/dev_3_c.md")
                       (str "EACCES: permission denied")] |}.
Proof. vm_compute. reflexivity. Qed.

(** * The change summary *)

Lemma count_by_record_run (keep : option SyncedPage -> bool) (w : World)
    (changedPages : list Page) :
  forall n : Z,
    for_of changedPages
      (fun (p : Page) (n : Z) =>
         syncedPage <- db_getPage (id p) ;;
         ret (if keep syncedPage then n + 1 else n))
      n w
    = (Ok (n + Z.of_nat
                 (length (filter (fun p => keep (lookup w (id p)))
                            changedPages))), w).
Proof.
  induction changedPages as [|p rest IH]; intros n; simpl.
  - unfold ret. now rewrite Z.add_0_r.
  - unfold bind at 1. unfold bind at 1. rewrite db_getPage_run.
    unfold ret at 1. rewrite IH.
    destruct (keep (lookup w (id p))); cbn [length]; do 2 f_equal; lia.
Qed.

Lemma filter_filter_and {A} (f g : A -> bool) (l : list A) :
  filter f (filter g l) = filter (fun x => g x && f x) l.
Proof.
  induction l as [|x l IH]; simpl; [reflexivity|].
  destruct (g x); simpl; [destruct (f x)|]; now rewrite IH.
Qed.

(** Among the emitted pages, those without a record are the NEW ones and
    those with a record the UPDATED ones. *)
Lemma emitted_by_record w pages :
  filter (fun p => is_absent (lookup w (id p))) (filter (emits w) pages)
  = filter (is_class NEW w) pages
  /\ filter (fun p => is_found (lookup w (id p))) (filter (emits w) pages)
     = filter (is_class UPDATED w) pages.
Proof.
  rewrite !filter_filter_and. split; apply filter_ext; intros p;
    unfold emits, is_class, classification, is_found, is_absent;
    destruct (lookup w (id p)) as [r|]; simpl; try reflexivity;
    destruct (hasPageChanged p r); reflexivity.
Qed.

Lemma insert_desc_length r rows :
  length (insert_desc r rows) = S (length rows).
Proof.
  induction rows as [|r' rest IH]; simpl; [reflexivity|].
  destruct (str_ltb (last_synced r) (last_synced r')); simpl; now rewrite ?IH.
Qed.

Lemma order_by_last_synced_desc_length rows :
  length (order_by_last_synced_desc rows) = length rows.
Proof.
  induction rows as [|r rest IH]; simpl; [reflexivity|].
  now rewrite insert_desc_length, IH.
Qed.

Lemma generateChangeSummary_run w pages :
  generateChangeSummary pages w
  = (Ok {| summary_total := Z.of_nat (length pages);
           summary_synced := Z.of_nat (length (synced_pages w));
           changes_new := count_class NEW w pages;
           changes_updated := count_class UPDATED w pages;
           changes_deleted :=
             Z.of_nat (length
                         (not_in_confluence (unique (map id pages))
                            (flat_map (rows_of_space w)
                               (unique (map page_space_key pages)))));
           issues_missingFiles :=
             Z.of_nat (length
                         (filter (fun r => negb (artifact_present w r))
                            (order_by_last_synced_desc (synced_pages w))));
           needsSync :=
             (0 <? Z.of_nat (length (filter (emits w) pages)))
             || (0 <? Z.of_nat
                        (length
                           (not_in_confluence (unique (map id pages))
                              (flat_map (rows_of_space w)
                                 (unique (map page_space_key pages))))))
             || (0 <? Z.of_nat
                        (length
                           (filter (fun r => negb (artifact_present w r))
                              (order_by_last_synced_desc (synced_pages w)))))
        |}, w).
Proof.
  unfold generateChangeSummary, bind.
  rewrite detectChanges_run, detectDeletedPages_run, findMissingFiles_run.
  unfold db_getAllPages, count_by_record.
  rewrite !count_by_record_run.
  destruct (emitted_by_record w pages) as [-> ->].
  rewrite order_by_last_synced_desc_length. reflexivity.
Qed.

Lemma count_classes_total w pages :
  count_class NEW w pages + count_class UPDATED w pages
  + count_class UNCHANGED w pages
  = Z.of_nat (length pages).
Proof.
  induction pages as [|p rest IH].
  - reflexivity.
  - rewrite !(count_class_cons w _ p rest). cbn [length].
    unfold count_class at 1 3 5. cbn [filter]. unfold is_class.
    destruct (classification w p); cbn [length]; lia.
Qed.

Lemma length_pos_iff {A} (l : list A) :
  (0 <? Z.of_nat (length l)) = false <-> l = [].
Proof.
  destruct l; simpl; split; try reflexivity; discriminate.
Qed.

Lemma filter_nil_iff {A} (f : A -> bool) (l : list A) :
  filter f l = [] <-> forall x, In x l -> f x = false.
Proof.
  split; [|apply filter_nil_when].
  intros H x Hx. destruct (f x) eqn:E; [|reflexivity].
  assert (Hin : In x (filter f l)) by (apply filter_In; now split).
  rewrite H in Hin. contradiction.
Qed.

(** X1: [generateChangeSummary] reads only, and its counts agree with the
    classification: although it counts the new and the updated pages again
    from [db.getPage], [changes.new] and [changes.updated] are the numbers
    of pages classified NEW and UPDATED, with the unchanged ones they add
    up to [total], and [needsSync] is false exactly when every page is
    UNCHANGED, no deletion is detected and no file is missing. *)
Theorem generateChangeSummary_agrees_with_detection (w : World)
    (pages : list Page) :
  exists summary,
    generateChangeSummary pages w = (Ok summary, w)
    /\ changes_new summary = count_class NEW w pages
    /\ changes_updated summary = count_class UPDATED w pages
    /\ changes_new summary + changes_updated summary
       + count_class UNCHANGED w pages
       = summary_total summary
    /\ summary_synced summary = Z.of_nat (length (synced_pages w))
    /\ (needsSync summary = false
        <-> (forall page, In page pages -> classification w page = UNCHANGED)
            /\ detectDeletedPages pages w = (Ok [], w)
            /\ findMissingFiles w = (Ok [], w)).
Proof.
  eexists. split; [apply generateChangeSummary_run|].
  cbn [changes_new changes_updated summary_total summary_synced needsSync].
  split; [reflexivity|]. split; [reflexivity|].
  split; [apply count_classes_total|]. split; [reflexivity|].
  rewrite detectDeletedPages_run, findMissingFiles_run.
  rewrite !orb_false_iff, !length_pos_iff, filter_nil_iff.
  split.
  - intros ((Hc & ->) & ->). repeat split. intros page Hp.
    specialize (Hc page Hp). unfold emits, is_class in Hc.
    destruct (classification w page); simpl in Hc; congruence.
  - intros (Hc & Hd & Hm). inversion Hd as [Hd']. inversion Hm as [Hm'].
    rewrite Hd', Hm'. repeat split. intros page Hp.
    unfold emits, is_class. now rewrite (Hc page Hp).
Qed.

Lemma all_present_none_missing w :
  (forall r, In r (synced_pages w) -> artifact_present w r = true) ->
  findMissingFiles w = (Ok [], w).
Proof.
  intros H. rewrite findMissingFiles_run. rewrite filter_nil_when; [reflexivity|].
  intros r Hr. apply (proj1 (order_by_last_synced_desc_In _ _)) in Hr.
  now rewrite (H r Hr).
Qed.

Lemma settled_no_deletion w pages :
  no_stale_record w pages -> detectDeletedPages pages w = (Ok [], w).
Proof.
  intros Hstale. rewrite detectDeletedPages_run.
  unfold not_in_confluence. rewrite filter_nil_when; [reflexivity|].
  intros r Hr. apply in_flat_map in Hr. destruct Hr as (k & Hk & Hr).
  apply (proj1 (unique_In _ _)) in Hk.
  apply (proj1 (rows_of_space_In _ _ _)) in Hr. destruct Hr as [Hr <-].
  apply negb_false_iff, str_mem_In, unique_In. now apply Hstale.
Qed.

(** X2: when every page of the snapshot has its record (same version and
    title), the spaces of the snapshot hold no stale record and every
    record has its file, the summary reports nothing to do: no new, updated
    or deleted page, no missing file, [needsSync = false]. *)
Theorem generateChangeSummary_settled (w : World) (pages : list Page) :
  all_synced w pages ->
  no_stale_record w pages ->
  (forall r, In r (synced_pages w) -> artifact_present w r = true) ->
  generateChangeSummary pages w
  = (Ok {| summary_total := Z.of_nat (length pages);
           summary_synced := Z.of_nat (length (synced_pages w));
           changes_new := 0;
           changes_updated := 0;
           changes_deleted := 0;
           issues_missingFiles := 0;
           needsSync := false |}, w).
Proof.
  intros Hsync Hstale Hfiles.
  destruct (all_unchanged_scan w pages) as (E1 & E2 & E3 & _).
  { intros page Hp. apply synced_page_unchanged. now apply Hsync. }
  pose proof (settled_no_deletion w pages Hstale) as Hd.
  pose proof (all_present_none_missing w Hfiles) as Hm.
  rewrite detectDeletedPages_run in Hd. rewrite findMissingFiles_run in Hm.
  inversion Hd as [Hd']. inversion Hm as [Hm'].
  rewrite generateChangeSummary_run, E1, E2, E3, Hd', Hm'. reflexivity.
Qed.

Lemma generateChangeSummary_settled_witness :
  fst (generateChangeSummary [sample_page "1" "A" 1; sample_page "3" "C" 1]
         sample_world)
  = Ok {| summary_total := 2; summary_synced := 2; changes_new := 0;
          changes_updated := 0; changes_deleted := 0;
          issues_missingFiles := 0; needsSync := false |}.
Proof.
  rewrite (generateChangeSummary_settled sample_world
             [sample_page "1" "A" 1; sample_page "3" "C" 1]).
  - reflexivity.
  - intros page [<-|[<-|[]]]; eexists; repeat split; vm_compute; reflexivity.
  - intros r [<-|[<-|[]]] _; vm_compute; auto.
  - intros r [<-|[<-|[]]]; vm_compute; reflexivity.
Defined.

(** * The two deletion detectors compared *)

Lemma unique_from_seen seen xs :
  (forall x, In x xs -> In x seen) -> unique_from seen xs = [].
Proof.
  induction xs as [|x rest IH]; intros H; simpl; [reflexivity|].
  rewrite (proj2 (str_mem_In x seen)) by (apply H; now left).
  apply IH. intros y Hy. apply H. now right.
Qed.

Lemma unique_single k xs :
  xs <> [] -> (forall x, In x xs -> x = k) -> unique xs = [k].
Proof.
  intros Hne H. destruct xs as [|x rest]; [congruence|].
  assert (x = k) by (apply H; now left). subst x.
  unfold unique. simpl. f_equal. apply unique_from_seen.
  intros y Hy. left. symmetry. apply H. now right.
Qed.

Lemma not_in_confluence_nil rows : not_in_confluence (unique []) rows = rows.
Proof.
  unfold not_in_confluence. apply forallb_filter_id.
  apply forallb_forall. reflexivity.
Qed.

(** X3: a space of which the snapshot shows no page, be it that the space
    was not fetched or that it is empty now: [detectDeletedPages] reports
    none of its records, and [detectDeletedPagesInSpace], given the pages
    of that space, reports all of them. *)
Theorem emptied_space_seen_only_by_space_variant (w : World)
    (pages : list Page) (spaceKey : jsstring) :
  ~ In spaceKey (map page_space_key pages) ->
  (exists deleted,
     detectDeletedPages pages w = (Ok deleted, w)
     /\ forall r, space_key r = spaceKey -> ~ In r deleted)
  /\ detectDeletedPagesInSpace spaceKey
       (filter (fun p => str_eqb (page_space_key p) spaceKey) pages) w
     = (Ok (rows_of_space w spaceKey), w).
Proof.
  intros Hk. split.
  - eexists. split; [apply detectDeletedPages_run|].
    intros r Hr Hin. apply not_in_confluence_In in Hin.
    destruct Hin as [Hin _]. apply in_flat_map in Hin.
    destruct Hin as (k & Hk' & Hrow).
    apply (proj1 (unique_In _ _)) in Hk'.
    apply (proj1 (rows_of_space_In _ _ _)) in Hrow.
    destruct Hrow as [_ Hrow]. congruence.
  - rewrite detectDeletedPagesInSpace_run.
    rewrite (filter_nil_when _ pages).
    + simpl map. now rewrite not_in_confluence_nil.
    + intros p Hp. apply str_eqb_neq. intros E. apply Hk. rewrite <- E.
      now apply in_map.
Qed.

Lemma emptied_space_seen_only_by_space_variant_witness :
  detectDeletedPages [] sample_world = (Ok [], sample_world)
  /\ detectDeletedPagesInSpace (str "DEV") [] sample_world
     = (Ok (synced_pages sample_world), sample_world).
Proof.
  destruct (emptied_space_seen_only_by_space_variant sample_world []
              (str "DEV")) as [_ Hspace]; [intros []|].
  split; [reflexivity | exact Hspace].
Defined.

(** X4: on a snapshot whose pages all belong to one space, the two
    detectors return the same list. *)
Theorem detectDeletedPages_single_space (w : World) (pages : list Page)
    (spaceKey : jsstring) :
  pages <> [] ->
  (forall page, In page pages -> page_space_key page = spaceKey) ->
  detectDeletedPages pages w = detectDeletedPagesInSpace spaceKey pages w.
Proof.
  intros Hne Hall.
  rewrite detectDeletedPages_run, detectDeletedPagesInSpace_run.
  rewrite (unique_single spaceKey (map page_space_key pages)).
  - simpl. now rewrite app_nil_r.
  - destruct pages; [congruence | discriminate].
  - intros k Hk. apply in_map_iff in Hk. destruct Hk as (p & <- & Hp).
    now apply Hall.
Qed.

Lemma detectDeletedPages_single_space_witness :
  detectDeletedPages [sample_page "1" "A" 1; sample_page "2" "B" 2]
    sample_world
  = detectDeletedPagesInSpace (str "DEV")
      [sample_page "1" "A" 1; sample_page "2" "B" 2] sample_world.
Proof.
  apply detectDeletedPages_single_space.
  - discriminate.
  - intros page [<-|[<-|[]]]; reflexivity.
Defined.

(** X5: a page that has moved to another space.  When the snapshot shows
    the page of a record, but in another space than the record's, the
    record is not reported by [detectDeletedPages] on the whole snapshot,
    while [detectDeletedPagesInSpace] on the pages of the record's space
    reports it. *)
Theorem moved_page_seen_only_by_space_variant (w : World) (pages : list Page)
    (r : SyncedPage) :
  In r (synced_pages w) ->
  In (page_id r) (map id pages) ->
  (forall page, In page pages -> id page = page_id r ->
                page_space_key page <> space_key r) ->
  (exists deleted,
     detectDeletedPages pages w = (Ok deleted, w) /\ ~ In r deleted)
  /\ (exists deletedInSpace,
        detectDeletedPagesInSpace (space_key r)
          (filter (fun p => str_eqb (page_space_key p) (space_key r)) pages) w
        = (Ok deletedInSpace, w)
        /\ In r deletedInSpace).
Proof.
  intros Hr Hid Hmoved. split.
  - eexists. split; [apply detectDeletedPages_run|].
    intros Hin. apply not_in_confluence_In in Hin. tauto.
  - eexists. split; [apply detectDeletedPagesInSpace_run|].
    apply not_in_confluence_In. split.
    + now apply rows_of_space_In.
    + intros Hin. apply in_map_iff in Hin. destruct Hin as (p & Hp & Hf).
      apply filter_In in Hf. destruct Hf as [Hf Hk].
      apply str_eqb_eq in Hk. now apply (Hmoved p Hf Hp).
Qed.

Lemma moved_page_seen_only_by_space_variant_witness :
  exists deletedInSpace,
    detectDeletedPagesInSpace (str "DEV")
      (filter (fun p => str_eqb (page_space_key p) (str "DEV"))
         [{| id := str "3"; title := str "C"; page_space_key := str "OPS";
             version_number := 1; links_webui := None |}])
      sample_world
    = (Ok deletedInSpace, sample_world)
    /\ In (sample_row "3" "C" 1 "/content/dev_3_c.md") deletedInSpace.
Proof.
  apply (moved_page_seen_only_by_space_variant sample_world
           [{| id := str "3"; title := str "C"; page_space_key := str "OPS";
               version_number := 1; links_webui := None |}]
           (sample_row "3" "C" 1 "/content/dev_3_c.md")).
  - right. left. reflexivity.
  - left. reflexivity.
  - intros page [<-|[]] _. vm_compute. discriminate.
Defined.

Lemma rows_of_spaces_NoDup w keys :
  NoDup keys -> NoDup (synced_pages w) ->
  NoDup (flat_map (rows_of_space w) keys).
Proof.
  intros Hkeys Hrows. induction Hkeys as [|k rest Hk Hrest IH]; simpl.
  - constructor.
  - apply NoDup_app; [now apply NoDup_filter | exact IH |].
    intros r Hr Hin. apply (proj1 (rows_of_space_In _ _ _)) in Hr.
    apply in_flat_map in Hin. destruct Hin as (k' & Hk' & Hr').
    apply (proj1 (rows_of_space_In _ _ _)) in Hr'.
    destruct Hr as [_ <-]. destruct Hr' as [_ <-]. contradiction.
Qed.

(** X6: over a store without repeated rows, [detectDeletedPages] reports
    every stale record once, however many pages of its space the snapshot
    shows: the space keys are made distinct before the store is queried. *)
Theorem detectDeletedPages_reports_once (w : World) (pages : list Page) :
  NoDup (synced_pages w) ->
  exists deleted,
    detectDeletedPages pages w = (Ok deleted, w) /\ NoDup deleted.
Proof.
  intros Hrows. eexists. split; [apply detectDeletedPages_run|].
  unfold not_in_confluence. apply NoDup_filter.
  apply rows_of_spaces_NoDup; [apply unique_from_NoDup | exact Hrows].
Qed.

Lemma detectDeletedPages_reports_once_witness :
  exists deleted,
    detectDeletedPages [sample_page "1" "A" 1; sample_page "2" "B" 2]
      sample_world
    = (Ok deleted, sample_world)
    /\ NoDup deleted.
Proof.
  apply detectDeletedPages_reports_once.
  repeat constructor; simpl; intuition discriminate.
Defined.

(** * The scan for orphaned files, characterised *)

Lemma has_path_In known p : has_path known p = true <-> In (Some p) known.
Proof.
  unfold has_path. rewrite existsb_exists. split.
  - intros ([q|] & Hq & E); [|discriminate].
    apply str_eqb_eq in E. now subst.
  - intros H. exists (Some p). split; [exact H | apply str_eqb_refl].
Qed.

Lemma has_path_ext known known' p :
  (forall q, In (Some q) known <-> In (Some q) known') ->
  has_path known p = has_path known' p.
Proof.
  intros H. destruct (has_path known' p) eqn:E.
  - apply has_path_In, H, has_path_In, E.
  - destruct (has_path known p) eqn:E'; [|reflexivity].
    apply has_path_In, H, has_path_In in E'. congruence.
Qed.

Lemma Orphaned_ext f known known' dir p :
  (forall q, In (Some q) known <-> In (Some q) known') ->
  Orphaned f known dir p -> Orphaned f known' dir p.
Proof.
  intros H. induction 1 as [dir file Hc Hd He Hk | dir sub p Hc Hd _ IH].
  - apply Orphaned_here; try assumption.
    now rewrite <- (has_path_ext known known' _ H).
  - now apply Orphaned_below with (sub := sub).
Qed.

Lemma Orphaned_via_children f known dir p :
  Orphaned f known dir p
  <-> orphaned_via f known dir (children dir (fs_paths f)) p.
Proof.
  split.
  - intros H. destruct H as [dir file Hc Hd He Hk | dir sub p Hc Hd Hp].
    + exists file. split; [exact Hc|]. left. now repeat split.
    + exists sub. split; [exact Hc|]. right. now split.
  - intros (file & Hc & [(Hd & He & Hk & ->) | (Hd & Hp)]).
    + now apply Orphaned_here.
    + now apply Orphaned_below with (sub := file).
Qed.

Lemma orphaned_via_cons f known dir file rest p :
  orphaned_via f known dir (file :: rest) p
  <-> orphaned_via f known dir [file] p \/ orphaned_via f known dir rest p.
Proof.
  unfold orphaned_via. split.
  - intros (x & [<-|Hx] & H).
    + left. exists file. split; [now left | exact H].
    + right. exists x. now split.
  - intros [(x & [<-|[]] & H) | (x & Hx & H)].
    + exists file. split; [now left | exact H].
    + exists x. split; [now right | exact H].
Qed.

Lemma each_file_exact descend known dir w :
  (forall d acc o w', descend d acc w = (o, w') -> w' = w) ->
  (forall sub acc l,
     is_dir (fs w) (path_join dir sub) = true ->
     descend (path_join dir sub) acc w = (Ok (Some l), w) ->
     forall p, In p l
               <-> In p acc \/ Orphaned (fs w) known (path_join dir sub) p) ->
  forall files acc l,
    (forall n, In n files -> In (path_join dir n) (fs_paths (fs w))) ->
    each_file descend known dir files acc w = (Ok (Some l), w) ->
    forall p, In p l <-> In p acc \/ orphaned_via (fs w) known dir files p.
Proof.
  intros Hreads Hdesc files.
  induction files as [|file rest IH]; intros acc l Hin.
  - simpl. unfold ret. intros E p. inversion E. subst l. split; [now left|].
    intros [H|(x & [] & _)]. exact H.
  - assert (Hrest : forall n, In n rest ->
                              In (path_join dir n) (fs_paths (fs w))).
    { intros n Hn. apply Hin. now right. }
    simpl. unfold bind at 1.
    rewrite statSync_isDirectory_run by (apply Hin; now left).
    destruct (is_dir (fs w) (path_join dir file)) eqn:Hd.
    + unfold bind.
      destruct (descend (path_join dir file) acc w) as [[[l1|]|m] w1] eqn:E1;
        try (unfold ret; discriminate).
      pose proof (Hreads _ _ _ _ E1). subst w1. intros E p.
      rewrite (IH l1 l Hrest E p), (Hdesc file acc l1 Hd E1 p).
      rewrite orphaned_via_cons. unfold orphaned_via at 2.
      split.
      * intros [[H|H]|H]; auto. right. left. exists file.
        split; [now left|]. right. now split.
      * intros [H|[(x & [<-|[]] & [(Hd' & _)|(_ & H)])|H]]; auto; congruence.
    + destruct (endsWith file (str ".md")) eqn:He.
      * destruct (has_path known (path_join dir file)) eqn:Hk; cbn [negb].
        -- intros E p. rewrite (IH acc l Hrest E p), orphaned_via_cons.
           unfold orphaned_via at 2. split; [tauto|].
           intros [H|[(x & [<-|[]] & [(_ & _ & Hk' & _)|(Hd' & _)])|H]];
             auto; congruence.
        -- intros E p.
           rewrite (IH (acc ++ [path_join dir file]) l Hrest E p),
             orphaned_via_cons, in_app_iff.
           unfold orphaned_via at 2. simpl. split.
           ++ intros [[H|[<-|[]]]|H]; auto. right. left. exists file.
              split; [now left|]. left. now repeat split.
           ++ intros [H|[(x & [<-|[]] & [(_ & _ & _ & ->)|(Hd' & _)])|H]];
                auto; congruence.
      * intros E p. rewrite (IH acc l Hrest E p), orphaned_via_cons.
        unfold orphaned_via at 2. split; [tauto|].
        intros [H|[(x & [<-|[]] & [(_ & He' & _)|(Hd' & _)])|H]];
          auto; congruence.
Qed.

Lemma findMarkdownFiles_exact known w :
  forall fuel dir acc l,
    findMarkdownFiles fuel known dir acc w = (Ok (Some l), w) ->
    forall p, In p l <-> In p acc \/ Orphaned (fs w) known dir p.
Proof.
  induction fuel as [|fuel IH]; intros dir acc l; simpl.
  - unfold ret. discriminate.
  - unfold bind, readdirSync.
    destruct (is_dir (fs w) dir) eqn:Hd.
    + intros E p. rewrite Orphaned_via_children.
      apply (each_file_exact (findMarkdownFiles fuel known) known dir w)
        with (files := children dir (fs_paths (fs w))) (acc := acc) (l := l).
      * apply findMarkdownFiles_reads.
      * intros sub acc' l' _ E'. now apply IH.
      * intros n. apply children_In.
      * exact E.
    + destruct (is_file (fs w) dir); discriminate.
Qed.

Lemma known_paths_sorted w q :
  In (Some q) (map file_path (order_by_last_synced_desc (synced_pages w)))
  <-> In (Some q) (known_paths w).
Proof.
  unfold known_paths. rewrite !in_map_iff. split.
  - intros (r & E & Hr). exists r. split; [exact E|].
    now apply order_by_last_synced_desc_In.
  - intros (r & E & Hr). exists r. split; [exact E|].
    now apply order_by_last_synced_desc_In.
Qed.

Lemma endsWith_app a b suffix :
  endsWith b suffix = true -> endsWith (a ++ b) suffix = true.
Proof.
  unfold endsWith. intros H. apply andb_true_iff in H. destruct H as [H1 H2].
  apply Nat.leb_le in H2. apply andb_true_iff. split.
  - rewrite length_app.
    replace (length a + length b - length suffix)%nat
      with (length a + (length b - length suffix))%nat by lia.
    rewrite skipn_app.
    replace (length a + (length b - length suffix) - length a)%nat
      with (length b - length suffix)%nat by lia.
    rewrite skipn_all2 by lia. exact H1.
  - apply Nat.leb_le. rewrite length_app. lia.
Qed.

Lemma Orphaned_is_untracked_markdown f known dir p :
  Orphaned f known dir p ->
  is_file f p = true /\ is_dir f p = false
  /\ endsWith p (str ".md") = true /\ has_path known p = false.
Proof.
  induction 1 as [dir file Hc Hd He Hk | dir sub p Hc Hd _ IH]; [|exact IH].
  repeat split; try assumption.
  - apply children_In in Hc. unfold fs_paths in Hc.
    apply in_app_or in Hc. destruct Hc as [Hc|Hc].
    + apply str_mem_In in Hc. unfold is_dir in Hd. congruence.
    + now apply str_mem_In.
  - unfold path_join. rewrite app_assoc. now apply endsWith_app.
Qed.

Lemma findOrphanedFiles_exact_run contentDir w :
  is_dir (fs w) contentDir = true ->
  exists orphaned,
    findOrphanedFiles contentDir w = (Ok orphaned, w)
    /\ forall p, In p orphaned
                 <-> Orphaned (fs w) (known_paths w) contentDir p.
Proof.
  intros Hd.
  assert (Hfuel : (longer_dirs (fs w) contentDir
                   < S (length (fs_dirs (fs w))))%nat).
  { unfold longer_dirs. apply Nat.lt_succ_r, filter_length_le. }
  destruct (findMarkdownFiles_enough_fuel
              (map file_path (order_by_last_synced_desc (synced_pages w)))
              w (S (length (fs_dirs (fs w)))) contentDir [] Hd Hfuel)
    as (l & Hl).
  exists l. split.
  - unfold findOrphanedFiles, bind at 1. unfold existsSync.
    rewrite Hd. cbn [orb negb]. unfold bind, db_getAllPages.
    now rewrite Hl.
  - intros p. rewrite (findMarkdownFiles_exact _ _ _ _ _ _ Hl p). simpl.
    split.
    + intros [[]|H]. revert H. apply Orphaned_ext, known_paths_sorted.
    + intros H. right. revert H. apply Orphaned_ext.
      intros q. symmetry. apply known_paths_sorted.
Qed.

(** X7: [findOrphanedFiles] reads only.  Without a content directory it
    returns the empty list; on a content directory it returns exactly the
    markdown files at or below it that no record names as its
    [file_path], so every path it returns is a regular file ending in
    [.md] that no record tracks. *)
Theorem findOrphanedFiles_exact (w : World) (contentDir : jsstring) :
  (is_dir (fs w) contentDir = false -> is_file (fs w) contentDir = false ->
   findOrphanedFiles contentDir w = (Ok [], w))
  /\ (is_dir (fs w) contentDir = true ->
      exists orphaned,
        findOrphanedFiles contentDir w = (Ok orphaned, w)
        /\ (forall p, In p orphaned
                      <-> Orphaned (fs w) (known_paths w) contentDir p)
        /\ (forall p, In p orphaned ->
              is_file (fs w) p = true
              /\ endsWith p (str ".md") = true
              /\ forall r, In r (synced_pages w) -> file_path r <> Some p)).
Proof.
  split.
  - intros Hd Hf. unfold findOrphanedFiles, bind, existsSync.
    now rewrite Hd, Hf.
  - intros Hd.
    destruct (findOrphanedFiles_exact_run contentDir w Hd) as (l & Hrun & Hl).
    exists l. split; [exact Hrun|]. split; [exact Hl|].
    intros p Hp. apply Hl in Hp.
    destruct (Orphaned_is_untracked_markdown _ _ _ _ Hp)
      as (Hf & _ & He & Hk).
    repeat split; try assumption.
    intros r Hr E.
    assert (Hin : In (Some p) (known_paths w)).
    { unfold known_paths. rewrite <- E. now apply in_map. }
    apply has_path_In in Hin. congruence.
Qed.

Lemma findOrphanedFiles_exact_witness :
  findOrphanedFiles (str "/nowhere") sample_world = (Ok [], sample_world)
  /\ exists orphaned,
       findOrphanedFiles (str "/content") sample_world
       = (Ok orphaned, sample_world).
Proof.
  destruct (findOrphanedFiles_exact sample_world (str "/nowhere"))
    as [Hnone _].
  destruct (findOrphanedFiles_exact sample_world (str "/content"))
    as [_ Hsome].
  split.
  - apply Hnone; vm_compute; reflexivity.
  - destruct Hsome as (orphaned & Hrun & _); [vm_compute; reflexivity|].
    now exists orphaned.
Defined.

(** * What [cleanup] leaves alone *)

Lemma find_filter_other pid q rows :
  q <> pid ->
  find (has_id q) (filter (fun r => negb (has_id pid r)) rows)
  = find (has_id q) rows.
Proof.
  intros Hne. induction rows as [|r rest IH]; simpl; [reflexivity|].
  destruct (has_id pid r) eqn:Ep; simpl.
  - destruct (has_id q r) eqn:Eq; [|exact IH].
    unfold has_id in *. apply str_eqb_eq in Ep, Eq. congruence.
  - now rewrite IH.
Qed.

Lemma db_deletePage_others pid w o w' :
  db_deletePage pid w = (o, w') ->
  (forall q, q <> pid -> lookup w' q = lookup w q)
  /\ incl (synced_pages w') (synced_pages w).
Proof.
  unfold db_deletePage.
  destruct (db_fault w (DbDelete pid)); intros E; inversion E; subst.
  - split; [reflexivity | apply incl_refl].
  - split.
    + intros q Hq. unfold lookup. simpl. now apply find_filter_other.
    + simpl. apply incl_filter.
Qed.

Lemma unlinkSync_others p w o w' :
  unlinkSync p w = (o, w') ->
  incl (fs_files (fs w')) (fs_files (fs w))
  /\ (forall q data, q <> p -> In (q, data) (fs_files (fs w)) ->
                     In (q, data) (fs_files (fs w')))
  /\ (o = Ok tt -> is_file (fs w') p = false)
  /\ (forall m, o = Throw m -> w' = w).
Proof.
  unfold unlinkSync.
  destruct (fs_fault w (FsUnlink p)).
  { intros E; inversion E; subst. repeat split; auto using incl_refl.
    discriminate. }
  destruct (is_file (fs w) p); intros E; inversion E; subst.
  - simpl. repeat split.
    + apply incl_filter.
    + intros q data Hq Hin. apply filter_In. split; [exact Hin|].
      simpl. apply negb_true_iff, str_eqb_neq. exact Hq.
    + intros _. apply (is_file_remove_file p (fs w)).
    + discriminate.
  - repeat split; auto using incl_refl. discriminate.
Qed.

Lemma truthy_path fp : truthy fp = true -> fp = Some (path_of fp).
Proof. destruct fp as [[|c t]|]; simpl; congruence. Qed.

(** An attempt removes at most the record with the id of its page and the
    file of its page. *)
Lemma attempt_page_others page w :
  let w' := snd (attempt_page page w) in
  (forall q, q <> page_id page -> lookup w' q = lookup w q)
  /\ incl (synced_pages w') (synced_pages w)
  /\ incl (fs_files (fs w')) (fs_files (fs w))
  /\ (forall q data, file_path page <> Some q ->
        In (q, data) (fs_files (fs w)) -> In (q, data) (fs_files (fs w'))).
Proof.
  unfold attempt_page.
  destruct (db_deletePage (page_id page) w) as [[u|m] w1] eqn:Ed;
    destruct (db_deletePage_others _ _ _ _ Ed) as (Hl & Hi);
    destruct (db_deletePage_facts _ _ _ _ Ed) as (Hfs & _).
  2:{ simpl. rewrite Hfs. repeat split; auto using incl_refl. }
  unfold artifact_present.
  destruct (truthy (file_path page)) eqn:Ht; cbn [andb].
  2:{ simpl. rewrite Hfs. repeat split; auto using incl_refl. }
  destruct (is_dir (fs w1) (path_of (file_path page))
            || is_file (fs w1) (path_of (file_path page))).
  2:{ simpl. rewrite Hfs. repeat split; auto using incl_refl. }
  destruct (unlinkSync (path_of (file_path page)) w1) as [[u'|m'] w2] eqn:Eu;
    destruct (unlinkSync_others _ _ _ _ Eu) as (Hfi & Hkeep & _);
    destruct (unlinkSync_facts _ _ _ _ Eu) as (Hs & _);
    simpl; unfold lookup in *; rewrite Hs; rewrite <- Hfs;
    (repeat split; auto);
    intros q data Hq Hin; apply Hkeep; auto;
    intros ->; apply Hq; now apply truthy_path.
Qed.

Lemma attempts_others pages :
  forall w,
    let w' := snd (attempts pages w) in
    (forall q, ~ In q (map page_id pages) -> lookup w' q = lookup w q)
    /\ incl (synced_pages w') (synced_pages w)
    /\ incl (fs_files (fs w')) (fs_files (fs w))
    /\ (forall q data,
          (forall page, In page pages -> file_path page <> Some q) ->
          In (q, data) (fs_files (fs w)) -> In (q, data) (fs_files (fs w'))).
Proof.
  induction pages as [|page rest IH]; intros w.
  - simpl. repeat split; auto using incl_refl.
  - cbv zeta. simpl.
    destruct (attempt_page_others page w) as (A1 & A2 & A3 & A4).
    destruct (attempt_page page w) as [a w1]. cbn [fst snd] in *.
    specialize (IH w1). cbv zeta in IH.
    destruct (attempts rest w1) as [trace w2]. cbn [fst snd] in *.
    destruct IH as (I1 & I2 & I3 & I4).
    repeat split.
    + intros q Hq. rewrite I1 by tauto. apply A1. intros ->. tauto.
    + eapply incl_tran; eassumption.
    + eapply incl_tran; eassumption.
    + intros q data Hq Hin. apply I4; [intros p Hp; apply Hq; now right|].
      apply A4; [apply Hq; now left | exact Hin].
Qed.

(** The second loop: the store and the directories stay, files only go,
    and a file goes only if it is in the list; every path of the list is
    gone afterwards or has left an entry. *)
Lemma cleanup_orphans_others orphaned :
  forall r w r' w',
    for_each orphaned cleanup_orphan (r, w) = (Ok tt, (r', w')) ->
    synced_pages w' = synced_pages w
    /\ fs_dirs (fs w') = fs_dirs (fs w)
    /\ incl (fs_files (fs w')) (fs_files (fs w))
    /\ (forall q data, ~ In q orphaned ->
          In (q, data) (fs_files (fs w)) -> In (q, data) (fs_files (fs w')))
    /\ orphanedFiles r' + Z.of_nat (length (file_errors (errors r')))
       = orphanedFiles r + Z.of_nat (length (file_errors (errors r)))
         + Z.of_nat (length orphaned)
    /\ (forall q, In q orphaned ->
          is_file (fs w') q = false
          \/ exists m, In (FileError q m) (errors r'))
    /\ (forall e, In e (errors r) -> In e (errors r')).
Proof.
  induction orphaned as [|filePath rest IH]; intros r w r' w'.
  - simpl. unfold ret. intros E. inversion E. subst.
    repeat split; auto using incl_refl; try lia; try (intros q []).
  - simpl. unfold bind at 1.
    unfold cleanup_orphan at 1. unfold try_catch, bind, lift, update.
    cbn [fst snd].
    destruct (unlinkSync filePath w) as [[[]|m] w1] eqn:Eu;
      destruct (unlinkSync_others _ _ _ _ Eu) as (Hfi & Hkeep & Hgone & _);
      destruct (unlinkSync_facts _ _ _ _ Eu) as (Hs & _ & Hd & Hmono);
      cbn [fst snd]; intros E;
      destruct (IH _ _ _ _ E) as (I1 & I2 & I3 & I4 & I5 & I6 & I7).
    + repeat split.
      * congruence.
      * congruence.
      * eapply incl_tran; eassumption.
      * intros q data Hq Hin. apply I4; [tauto|]. apply Hkeep; [|exact Hin].
        intros ->. apply Hq. now left.
      * rewrite I5. cbn [orphanedFiles errors incr_orphanedFiles length].
        lia.
      * intros q [<-|Hq]; [|now apply I6]. left.
        destruct (is_file (fs w') filePath) eqn:Hf; [|reflexivity].
        assert (Hf1 : is_file (fs w1) filePath = true).
        { apply str_mem_In. apply str_mem_In in Hf.
          apply in_map_iff in Hf. destruct Hf as ((q & d) & Eq & Hin).
          apply in_map_iff. exists (q, d). split; [exact Eq|].
          now apply I3. }
        rewrite (Hgone eq_refl) in Hf1. discriminate.
      * intros e He. now apply I7.
    + repeat split.
      * congruence.
      * congruence.
      * eapply incl_tran; eassumption.
      * intros q data Hq Hin. apply I4; [tauto|]. apply Hkeep; [|exact Hin].
        intros ->. apply Hq. now left.
      * rewrite I5. cbn [orphanedFiles errors push_error].
        unfold file_errors. rewrite filter_app, length_app. cbn. lia.
      * intros q [<-|Hq]; [|now apply I6]. right. exists m.
        apply I7. cbn [errors push_error]. apply in_or_app. right. now left.
      * intros e He. apply I7. cbn [errors push_error].
        apply in_or_app. now left.
Qed.

(** [cleanup] step by step: the attempts on the pages, the scan, and the
    second loop on what the scan found. *)
Lemma cleanup_steps pages contentDir w :
  let w1 := snd (attempts pages w) in
  let r1 := fold_left (fun r pa => after_attempt pa r)
              (fst (attempts pages w)) results0 in
  (exists m,
     findOrphanedFiles contentDir w1 = (Throw m, w1)
     /\ cleanup pages contentDir w = (Throw m, w1))
  \/ (exists orphaned r' w',
        findOrphanedFiles contentDir w1 = (Ok orphaned, w1)
        /\ for_each orphaned cleanup_orphan (r1, w1) = (Ok tt, (r', w'))
        /\ cleanup pages contentDir w = (Ok r', w')).
Proof.
  cbv zeta.
  destruct (cleanup pages contentDir w) as [o wf] eqn:E.
  unfold cleanup, bind in E. rewrite cleanup_pages_run in E.
  unfold lift in E. cbn [fst snd] in E.
  destruct (findOrphanedFiles_run contentDir (snd (attempts pages w)))
    as (oo & Hoo & _).
  rewrite Hoo in E. destruct oo as [orphaned|m].
  - right.
    destruct (cleanup_orphans_run orphaned
                (fold_left (fun r pa => after_attempt pa r)
                   (fst (attempts pages w)) results0)
                (snd (attempts pages w)))
      as (r' & w' & Hrun & _).
    rewrite Hrun in E. inversion E. subst o wf.
    exists orphaned, r', w'. now repeat split.
  - left. inversion E. subst o wf. exists m. now split.
Qed.

(** X8: whatever its outcome, [cleanup] creates nothing and touches no
    record but those of the listed pages: a record with another id is
    found as before, every record left was there before, the directories
    are the same, and every file left was there before with the same
    content. *)
Theorem cleanup_only_removes (w : World) (pages : list SyncedPage)
    (contentDir : jsstring) :
  let w' := snd (cleanup pages contentDir w) in
  (forall q, ~ In q (map page_id pages) -> lookup w' q = lookup w q)
  /\ incl (synced_pages w') (synced_pages w)
  /\ fs_dirs (fs w') = fs_dirs (fs w)
  /\ incl (fs_files (fs w')) (fs_files (fs w)).
Proof.
  cbv zeta.
  destruct (attempts_others pages w) as (O1 & O2 & O3 & _).
  destruct (attempts_facts pages w) as (_ & F2 & _).
  destruct (cleanup_steps pages contentDir w)
    as [(m & _ & Hc) | (orphaned & r' & w2 & _ & Hloop & Hc)];
    rewrite Hc; cbn [snd].
  - repeat split; assumption.
  - destruct (cleanup_orphans_others _ _ _ _ _ Hloop)
      as (S1 & S2 & S3 & _).
    repeat split.
    + intros q Hq. unfold lookup. rewrite S1. now apply O1.
    + now rewrite S1.
    + congruence.
    + eapply incl_tran; eassumption.
Qed.




Lemma attempts_no_file_error trace r :
  file_errors (errors r) = [] ->
  file_errors
    (errors (fold_left (fun r pa => after_attempt pa r) trace r)) = [].
Proof.
  intros H. destruct (after_attempts_results trace r) as (_ & _ & _ & ->).
  unfold file_errors in *. rewrite filter_app, H. simpl.
  apply filter_nil_when. intros e He. apply in_flat_map in He.
  destruct He as ([page a] & _ & He). unfold attempt_error in He.
  cbn [fst snd] in He.
  destruct a; cbn in He; try contradiction; destruct He as [<-|[]];
    reflexivity.
Qed.

(** X10: when [cleanup] returns, every orphaned file that the scan found
    after the first loop is accounted for: [orphanedFiles] and the number
    of entries that name a file add up to the number of files found, and
    each of them is gone or has its entry. *)
Theorem cleanup_accounts_for_orphans (w : World) (pages : list SyncedPage)
    (contentDir : jsstring) (results : CleanupResults) (w' : World) :
  cleanup pages contentDir w = (Ok results, w') ->
  exists orphaned,
    findOrphanedFiles contentDir (snd (attempts pages w))
    = (Ok orphaned, snd (attempts pages w))
    /\ orphanedFiles results
       + Z.of_nat (length (file_errors (errors results)))
       = Z.of_nat (length orphaned)
    /\ forall q, In q orphaned ->
          is_file (fs w') q = false
          \/ exists m, In (FileError q m) (errors results).
Proof.
  intros E.
  destruct (cleanup_steps pages contentDir w)
    as [(m & _ & Hc) | (orphaned & r' & w2 & Hscan & Hloop & Hc)];
    rewrite Hc in E; inversion E; subst.
  exists orphaned. split; [exact Hscan|].
  destruct (cleanup_orphans_others _ _ _ _ _ Hloop)
    as (_ & _ & _ & _ & S5 & S6 & _).
  split; [|exact S6].
  rewrite S5, attempts_no_file_error by reflexivity.
  destruct (after_attempts_results (fst (attempts pages w)) results0)
    as (_ & _ & -> & _).
  simpl. lia.
Qed.

Lemma cleanup_accounts_for_orphans_witness :
  exists orphaned,
    findOrphanedFiles (str "/content")
      (snd (attempts [sample_row "3" "C" 1 "/content/dev_3_c.md"]
              locked_world))
    = (Ok orphaned,
       snd (attempts [sample_row "3" "C" 1 "/content/dev_3_c.md"]
              locked_world))
    /\ length orphaned = 1%nat.
Proof.
  destruct (cleanup_accounts_for_orphans locked_world
              [sample_row "3" "C" 1 "/content/dev_3_c.md"] (str "/content")
              (match fst (cleanup [sample_row "3" "C" 1 "/content/dev_3_c.md"]
                            (str "/content") locked_world) with
               | Ok results => results
               | Throw _ => results0
               end)
              (snd (cleanup [sample_row "3" "C" 1 "/content/dev_3_c.md"]
                      (str "/content") locked_world)))
    as (orphaned & Hscan & Hcount & _).
  - vm_compute. reflexivity.
  - exists orphaned. split; [exact Hscan|].
    apply Nat2Z.inj. rewrite <- Hcount. vm_compute. reflexivity.
Defined.

Lemma children_incl dir paths paths' :
  incl paths' paths -> incl (children dir paths') (children dir paths).
Proof.
  intros H n Hn. unfold children in *. apply in_flat_map in Hn.
  destruct Hn as (e & He & Hn). apply in_flat_map. exists e.
  split; [now apply H | exact Hn].
Qed.

(** Removing files makes no file orphaned that was not. *)
Lemma Orphaned_after_removal f f' known known' dir p :
  fs_dirs f' = fs_dirs f ->
  incl (fs_files f') (fs_files f) ->
  (forall q, has_path known' q = has_path known q) ->
  Orphaned f' known' dir p -> Orphaned f known dir p.
Proof.
  intros Hd Hf Hk.
  assert (Hpaths : incl (fs_paths f') (fs_paths f)).
  { unfold fs_paths. rewrite Hd. apply incl_app; [now apply incl_appl|].
    apply incl_appr. intros q Hq. apply in_map_iff in Hq.
    destruct Hq as (e & <- & He). apply in_map. now apply Hf. }
  assert (Hdir : forall q, is_dir f' q = is_dir f q).
  { intros q. unfold is_dir. now rewrite Hd. }
  induction 1 as [dir file Hc Hdf He Hkn | dir sub p Hc Hdf _ IH].
  - apply Orphaned_here; try assumption.
    + now apply (children_incl dir _ _ Hpaths).
    + now rewrite <- Hdir.
    + now rewrite <- Hk.
  - apply Orphaned_below with (sub := sub); try assumption.
    + now apply (children_incl dir _ _ Hpaths).
    + now rewrite <- Hdir.
Qed.

Lemma findOrphanedFiles_returns contentDir w orphaned :
  findOrphanedFiles contentDir w = (Ok orphaned, w) ->
  is_dir (fs w) contentDir = true
  \/ is_dir (fs w) contentDir = false /\ is_file (fs w) contentDir = false.
Proof.
  intros H.
  destruct (is_dir (fs w) contentDir) eqn:Hd; [now left|]. right.
  split; [reflexivity|]. revert H.
  unfold findOrphanedFiles, bind at 1. unfold existsSync. rewrite Hd.
  destruct (is_file (fs w) contentDir) eqn:Hf; cbn [orb negb]; [|reflexivity].
  unfold bind, db_getAllPages. cbn [findMarkdownFiles].
  unfold bind, readdirSync. rewrite Hd, Hf. discriminate.
Qed.

(** X11: a [cleanup] that returns without an entry naming a file leaves no
    orphaned file behind: a scan of the content directory right after it
    finds nothing. *)
Theorem cleanup_leaves_no_orphan (w : World) (pages : list SyncedPage)
    (contentDir : jsstring) (results : CleanupResults) (w' : World) :
  cleanup pages contentDir w = (Ok results, w') ->
  file_errors (errors results) = [] ->
  findOrphanedFiles contentDir w' = (Ok [], w').
Proof.
  intros E Hclean.
  destruct (cleanup_steps pages contentDir w)
    as [(m & _ & Hc) | (orphaned & r' & w2 & Hscan & Hloop & Hc)];
    rewrite Hc in E; inversion E; subst.
  destruct (cleanup_orphans_others _ _ _ _ _ Hloop)
    as (S1 & S2 & S3 & _ & _ & S6 & _).
  set (w1 := snd (attempts pages w)) in *.
  assert (Hfile : forall q, is_file (fs w') q = true ->
                            is_file (fs w1) q = true).
  { intros q Hq. apply str_mem_In. apply str_mem_In in Hq.
    apply in_map_iff in Hq. destruct Hq as (e & <- & He).
    apply in_map. now apply S3. }
  destruct (findOrphanedFiles_returns _ _ _ Hscan) as [Hd | [Hd Hf]].
  - assert (Hd' : is_dir (fs w') contentDir = true).
    { unfold is_dir in *. now rewrite S2. }
    destruct (findOrphanedFiles_exact_run contentDir w' Hd')
      as (l' & Hrun & Hl').
    destruct (findOrphanedFiles_exact_run contentDir w1 Hd)
      as (l1 & Hrun1 & Hl1).
    rewrite Hrun1 in Hscan. inversion Hscan. subst l1.
    rewrite Hrun. f_equal. f_equal.
    destruct l' as [|p rest]; [reflexivity|]. exfalso.
    assert (Hp : Orphaned (fs w') (known_paths w') contentDir p)
      by (apply Hl'; now left).
    destruct (Orphaned_is_untracked_markdown _ _ _ _ Hp) as (Hf & _).
    assert (Hp1 : In p orphaned).
    { apply Hl1. revert Hp. apply Orphaned_after_removal; try assumption.
      intros q. unfold known_paths. now rewrite S1. }
    destruct (S6 p Hp1) as [Hgone | (m & Hm)]; [congruence|].
    assert (Hin : In (FileError p m) (file_errors (errors results))).
    { unfold file_errors. apply filter_In. now split. }
    rewrite Hclean in Hin. contradiction.
  - unfold findOrphanedFiles, bind, existsSync.
    replace (is_dir (fs w') contentDir) with false
      by (unfold is_dir in *; now rewrite S2).
    destruct (is_file (fs w') contentDir) eqn:Hf'; [|reflexivity].
    apply Hfile in Hf'. congruence.
Qed.

Lemma cleanup_leaves_no_orphan_witness :
  findOrphanedFiles (str "/content")
    (snd (cleanup [sample_row "3" "C" 1 "/content/dev_3_c.md"]
            (str "/content") sample_world))
  = (Ok [],
     snd (cleanup [sample_row "3" "C" 1 "/content/dev_3_c.md"]
            (str "/content") sample_world)).
Proof.
  apply (cleanup_leaves_no_orphan sample_world
           [sample_row "3" "C" 1 "/content/dev_3_c.md"] (str "/content")
           (match fst (cleanup [sample_row "3" "C" 1 "/content/dev_3_c.md"]
                         (str "/content") sample_world) with
            | Ok results => results
            | Throw _ => results0
            end)).
  - vm_compute. reflexivity.
  - vm_compute. reflexivity.
Defined.

(** * File names and files of pages *)

Lemma app_sep_inj (c : Z) (a b x y : jsstring) :
  ~ In c a -> ~ In c b -> a ++ c :: x = b ++ c :: y -> a = b /\ x = y.
Proof.
  revert b. induction a as [|h a IH]; intros b Ha Hb E.
  - destruct b as [|h' b]; simpl in E.
    + inversion E. now split.
    + inversion E. subst. exfalso. apply Hb. now left.
  - destruct b as [|h' b]; simpl in E.
    + inversion E. subst. exfalso. apply Ha. now left.
    + inversion E. subst.
      destruct (IH b) as [-> ->]; auto.
      * intros H. apply Ha. now right.
      * intros H. apply Hb. now right.
Qed.

Lemma toLowerCase_keeps_absent (c : Z) s :
  isLower c = false -> ~ In c s -> ~ In c (toLowerCase s).
Proof.
  intros Hc Hs Hin. unfold toLowerCase in Hin. apply in_map_iff in Hin.
  destruct Hin as (x & E & Hx). unfold lowerChar in E.
  destruct (isUpper x) eqn:Hu; [|now subst].
  unfold isUpper in Hu. apply andb_true_iff in Hu. destruct Hu as [H1 H2].
  apply Z.leb_le in H1, H2. subst c. unfold isLower in Hc.
  apply andb_false_iff in Hc. destruct Hc as [Hc|Hc];
    [apply Z.leb_gt in Hc | apply Z.leb_gt in Hc]; lia.
Qed.

(** X12: file names are unique per page where space keys and page ids hold
    no underscore (as alphanumeric keys and numeric ids): two pages with
    the same generated name have the same lower-cased space key, the same
    id and the same sanitised title. *)
Theorem generateFilename_injective (p q : Page) :
  ~ In UNDERSCORE (page_space_key p) -> ~ In UNDERSCORE (page_space_key q) ->
  ~ In UNDERSCORE (id p) -> ~ In UNDERSCORE (id q) ->
  generateFilename p = generateFilename q ->
  toLowerCase (page_space_key p) = toLowerCase (page_space_key q)
  /\ id p = id q
  /\ sanitizeFilename (title p) = sanitizeFilename (title q).
Proof.
  intros Hkp Hkq Hip Hiq E. unfold generateFilename in E. cbv zeta in E.
  cbn [app] in E.
  apply app_sep_inj in E;
    try (apply toLowerCase_keeps_absent; [reflexivity | assumption]).
  destruct E as [Ek E]. apply app_sep_inj in E; try assumption.
  destruct E as [Ei Et]. now repeat split.
Qed.

Lemma generateFilename_injective_witness :
  sanitizeFilename (title (sample_page "1" "A b" 1))
  = sanitizeFilename (title (sample_page "1" "a-b" 2)).
Proof.
  apply (generateFilename_injective (sample_page "1" "A b" 1)
           (sample_page "1" "a-b" 2));
    vm_compute; intuition discriminate.
Defined.

Lemma file_content_put p data files :
  file_content {| fs_dirs := []; fs_files := put_file p data files |} p
  = Some data.
Proof.
  unfold file_content. simpl.
  induction files as [|[q d] rest IH]; simpl.
  - now rewrite str_eqb_refl.
  - destruct (str_eqb q p) eqn:E; simpl.
    + now rewrite str_eqb_refl.
    + now rewrite E.
Qed.

Lemma find_put_other p q data (files : list (jsstring * jsstring)) :
  q <> p ->
  find (fun e => str_eqb (fst e) q) (put_file p data files)
  = find (fun e => str_eqb (fst e) q) files.
Proof.
  intros Hne. induction files as [|[x d] rest IH]; simpl.
  - replace (str_eqb p q) with false; [reflexivity|].
    symmetry. apply str_eqb_neq. congruence.
  - destruct (str_eqb x p) eqn:E; simpl.
    + apply str_eqb_eq in E. subst x.
      replace (str_eqb p q) with false; [reflexivity|].
      symmetry. apply str_eqb_neq. congruence.
    + now rewrite IH.
Qed.

Lemma writeFileSync_content w w' p data :
  writeFileSync p data w = (Ok tt, w') ->
  file_content (fs w') p = Some data
  /\ (forall q, q <> p -> file_content (fs w') q = file_content (fs w) q)
  /\ fs_dirs (fs w') = fs_dirs (fs w)
  /\ fs_files (fs w') = put_file p data (fs_files (fs w)).
Proof.
  unfold writeFileSync.
  destruct (fs_fault w (FsWrite p)); [discriminate|].
  destruct (is_dir (fs w) p); [discriminate|].
  destruct (negb (parent_exists (fs w) p)); [discriminate|].
  intros E. inversion E. subst. simpl. repeat split.
  - apply (file_content_put p data (fs_files (fs w))).
  - intros q Hq. unfold file_content. simpl. now rewrite find_put_other.
Qed.


Lemma split_last_slash_none n :
  ~ In SLASH n -> split_last_slash n = None.
Proof.
  induction n as [|c t IH]; intros H; simpl; [reflexivity|].
  rewrite IH by (intros Hin; apply H; now right).
  destruct (Z.eqb_spec c SLASH) as [->|]; [|reflexivity].
  exfalso. apply H. now left.
Qed.

(** A directory and a name without separator, joined and cut again. *)
Lemma split_last_slash_path_join d n :
  ~ In SLASH n -> split_last_slash (path_join d n) = Some (d, n).
Proof.
  intros H. unfold path_join. induction d as [|c d IH]; simpl.
  - now rewrite (split_last_slash_none n H).
  - simpl in IH. now rewrite IH.
Qed.

Lemma sanitizeFilename_no_slash s : ~ In SLASH (sanitizeFilename s).
Proof.
  destruct (sanitizeFilename_guarantees s) as (_ & Hc & _).
  intros Hin. rewrite Forall_forall in Hc. specialize (Hc _ Hin).
  discriminate.
Qed.

Lemma generateFilename_no_slash page :
  ~ In SLASH (page_space_key page) -> ~ In SLASH (id page) ->
  ~ In SLASH (generateFilename page ++ str ".md").
Proof.
  intros Hk Hi. unfold generateFilename. cbv zeta.
  rewrite !in_app_iff. intros [[H|[H|[H|[H|H]]]]|H].
  - revert H. apply toLowerCase_keeps_absent; [reflexivity | exact Hk].
  - simpl in H. destruct H as [H|[]]. discriminate.
  - contradiction.
  - simpl in H. destruct H as [H|[]]. discriminate.
  - now apply sanitizeFilename_no_slash in H.
  - vm_compute in H. intuition discriminate.
Qed.

(** X14: for a page whose space key and id hold no path separator,
    [savePage] succeeds exactly when the write is not refused, the content
    directory exists as a directory and the path of the artifact is not
    itself a directory. *)
Theorem savePage_succeeds_iff (w : World) (page : Page) (markdown : jsstring) :
  ~ In SLASH (page_space_key page) ->
  ~ In SLASH (id page) ->
  exists r,
    fst (savePage page markdown w) = Ok r
    /\ (success r = true
        <-> fs_fault w (FsWrite (artifact_path w page)) = None
            /\ is_dir (fs w) (contentDir (config w)) = true
            /\ is_dir (fs w) (artifact_path w page) = false).
Proof.
  intros Hk Hi. rewrite savePage_run. unfold writeFileSync, parent_exists.
  unfold artifact_path at 4.
  rewrite (split_last_slash_path_join _ _ (generateFilename_no_slash _ Hk Hi)).
  destruct (fs_fault w (FsWrite (artifact_path w page))) as [m|].
  { eexists. split; [reflexivity|]. cbn. split; [discriminate|].
    intros (H & _). discriminate. }
  destruct (is_dir (fs w) (artifact_path w page)).
  { eexists. split; [reflexivity|]. cbn. split; [discriminate|].
    intros (_ & _ & H). discriminate. }
  destruct (is_dir (fs w) (contentDir (config w))); cbn [negb].
  - eexists. split; [reflexivity|]. cbn. now repeat split.
  - eexists. split; [reflexivity|]. cbn. split; [discriminate|].
    intros (_ & H & _). discriminate.
Qed.

Lemma savePage_succeeds_iff_witness :
  exists r,
    fst (savePage (sample_page "2" "B" 2) (str "# B") sample_world) = Ok r
    /\ success r = true.
Proof.
  destruct (savePage_succeeds_iff sample_world (sample_page "2" "B" 2)
              (str "# B")) as (r & Hrun & Hiff).
  - vm_compute. intuition discriminate.
  - vm_compute. intuition discriminate.
  - exists r. split; [exact Hrun|]. apply Hiff. vm_compute. now repeat split.
Defined.

Lemma deletePage_run p w :
  deletePage p w
  = if is_dir (fs w) p || is_file (fs w) p
    then match unlinkSync p w with
         | (Ok _, w') => (Ok true, w')
         | (Throw _, w') => (Ok false, w')
         end
    else (Ok false, w).
Proof.
  unfold deletePage, try_catch, bind, existsSync, ret.
  destruct (is_dir (fs w) p || is_file (fs w) p); [|reflexivity].
  destruct (unlinkSync p w) as [[u|m] w']; reflexivity.
Qed.

(** X15: [PageStorage.deletePage] never throws.  It returns [true] exactly
    when the path is a regular file whose removal is not refused, and then
    the file is gone while every other file and the record store are as
    before; when it returns [false], also for a directory, nothing has
    changed. *)
Theorem deletePage_removes_or_leaves (w : World) (p : jsstring) :
  exists deleted,
    fst (deletePage p w) = Ok deleted
    /\ (deleted = true
        <-> is_file (fs w) p = true /\ fs_fault w (FsUnlink p) = None)
    /\ (deleted = true ->
        let w' := snd (deletePage p w) in
        is_file (fs w') p = false
        /\ (forall q, q <> p ->
              file_content (fs w') q = file_content (fs w) q)
        /\ fs_dirs (fs w') = fs_dirs (fs w)
        /\ synced_pages w' = synced_pages w)
    /\ (deleted = false -> snd (deletePage p w) = w).
Proof.
  rewrite deletePage_run. unfold unlinkSync.
  destruct (fs_fault w (FsUnlink p)) as [m|] eqn:Hfault.
  { destruct (is_dir (fs w) p || is_file (fs w) p);
      (exists false; split; [reflexivity|]);
      (split; [split; [discriminate | intros (_ & H); discriminate]|]);
      (split; [discriminate | reflexivity]). }
  destruct (is_file (fs w) p) eqn:Hf.
  - rewrite orb_true_r. exists true. split; [reflexivity|].
    split; [tauto|]. split; [|discriminate].
    intros _. cbn [snd set_fs fs synced_pages].
    split; [apply is_file_remove_file|]. split; [|now split].
    intros q Hq. unfold file_content, remove_file. cbn [fs_files].
    induction (fs_files (fs w)) as [|[x d] rest IH]; [reflexivity|].
    cbn [filter fst]. destruct (str_eqb x p) eqn:E; cbn [negb find fst].
    + apply str_eqb_eq in E. subst x.
      replace (str_eqb p q) with false; [exact IH|].
      symmetry. apply str_eqb_neq. congruence.
    + destruct (str_eqb x q); [reflexivity | exact IH].
  - rewrite orb_false_r.
    destruct (is_dir (fs w) p);
      (exists false; split; [reflexivity|]);
      (split; [split; [discriminate | intros (H & _); discriminate]|]);
      (split; [discriminate | reflexivity]).
Qed.

Lemma remove_put_new p data (files : list (jsstring * jsstring)) :
  ~ In p (map fst files) ->
  filter (fun e => negb (str_eqb (fst e) p)) (put_file p data files) = files.
Proof.
  induction files as [|[q d] rest IH]; intros H; simpl.
  - now rewrite str_eqb_refl.
  - destruct (str_eqb q p) eqn:E.
    + apply str_eqb_eq in E. subst q. exfalso. apply H. now left.
    + simpl. rewrite E. simpl. f_equal. apply IH.
      intros Hin. apply H. now right.
Qed.

(** X16: saving a page and deleting the file again is a round trip: after
    a successful [savePage] of a page that had no file, [deletePage] on the
    returned path returns [true], unless the removal is refused, and the
    file system is what it was before the save. *)
Theorem savePage_then_deletePage (w : World) (page : Page)
    (markdown : jsstring) (r : SaveResult) (w1 : World) :
  savePage page markdown w = (Ok r, w1) ->
  success r = true ->
  is_file (fs w) (artifact_path w page) = false ->
  fs_fault w (FsUnlink (artifact_path w page)) = None ->
  filePath r = Some (artifact_path w page)
  /\ fst (deletePage (artifact_path w page) w1) = Ok true
  /\ fs (snd (deletePage (artifact_path w page) w1)) = fs w.
Proof.
  intros Hsave Hok Hnew Hfault. rewrite savePage_run in Hsave.
  destruct (writeFileSync (artifact_path w page) markdown w)
    as [[[]|m] w'] eqn:Hw; inversion Hsave; subst; [|discriminate].
  split; [reflexivity|].
  destruct (writeFileSync_content _ _ _ _ Hw) as (_ & _ & Hd & Hfiles).
  destruct (writeFileSync_keeps _ _ _ _ _ Hw) as (_ & _ & _ & _ & _ & Hf).
  assert (Hfault1 : fs_fault w1 (FsUnlink (artifact_path w page)) = None).
  { revert Hw. unfold writeFileSync.
    destruct (fs_fault w (FsWrite _)); [discriminate|].
    destruct (is_dir (fs w) _); [discriminate|].
    destruct (negb _); [discriminate|].
    intros E. inversion E. subst. exact Hfault. }
  rewrite deletePage_run, (Hf eq_refl), orb_true_r.
  unfold unlinkSync. rewrite Hfault1, (Hf eq_refl). cbn [fst snd].
  split; [reflexivity|]. cbn [set_fs fs]. unfold remove_file.
  rewrite Hd, Hfiles, remove_put_new.
  - now destruct (fs w).
  - apply str_mem_not_In. exact Hnew.
Qed.

Lemma savePage_then_deletePage_witness :
  fs (snd (deletePage (str "/content/dev_2_b.md")
             (snd (savePage (sample_page "2" "B" 2) (str "# B")
                     sample_world))))
  = fs sample_world.
Proof.
  apply (savePage_then_deletePage sample_world (sample_page "2" "B" 2)
           (str "# B")
           (match fst (savePage (sample_page "2" "B" 2) (str "# B")
                         sample_world) with
            | Ok r => r
            | Throw _ => {| success := false; filePath := None;
                            pageId := None; error := None |}
            end)
           (snd (savePage (sample_page "2" "B" 2) (str "# B") sample_world)));
    vm_compute; reflexivity.
Defined.

(** * Saving, then detecting *)

Lemma find_upsert_other row rows q :
  q <> page_id row ->
  find (has_id q) (upsert_row row rows) = find (has_id q) rows.
Proof.
  intros Hne. induction rows as [|r rest IH]; simpl.
  - replace (has_id q row) with false; [reflexivity|].
    symmetry. apply str_eqb_neq. congruence.
  - destruct (has_id (page_id row) r) eqn:E; simpl.
    + unfold has_id in E. apply str_eqb_eq in E.
      replace (has_id q row) with false
        by (symmetry; apply str_eqb_neq; congruence).
      replace (has_id q r) with false
        by (symmetry; apply str_eqb_neq; congruence).
      reflexivity.
    + now rewrite IH.
Qed.

(** A save that reports success: the file was written, and the store is
    the old one with the record of the page upserted. *)
Lemma savePageWithMetadata_success_run w page markdown store r w' :
  savePageWithMetadata page markdown store w = (Ok r, w') ->
  success r = true ->
  exists w1,
    writeFileSync (artifact_path w page) markdown w = (Ok tt, w1)
    /\ w' = set_synced_pages
              (upsert_row (record_of w page store) (synced_pages w)) w1.
Proof.
  unfold savePageWithMetadata, bind at 1. rewrite savePage_run.
  destruct (writeFileSync (artifact_path w page) markdown w)
    as [[[]|m] w1] eqn:Hw.
  2:{ cbn. intros E. inversion E. subst. discriminate. }
  destruct (writeFileSync_keeps _ _ _ _ _ Hw) as (Hs & Hc & Hk & Hd & _ & _).
  cbn [success negb filePath].
  unfold try_catch, bind, now_iso, page_url, db_upsertPage, ret.
  destruct (db_fault w1 _) as [m|] eqn:Hf.
  - intros E. inversion E. subst. discriminate.
  - intros E _. inversion E. subst. exists w1. split; [reflexivity|].
    unfold record_of. now rewrite Hk, Hc, Hs.
Qed.

(** X17: saving makes a page unchanged and disturbs no other page.  After
    a [savePageWithMetadata] that reports success, the page is classified
    UNCHANGED and [detectChanges] does not emit it; the classification of
    the pages with another id is what it was; and a store with one record
    per id still has one record per id. *)
Theorem saved_page_is_unchanged (w : World) (page : Page)
    (markdown : jsstring) (store : option jsstring) (r : SaveResult)
    (w' : World) :
  savePageWithMetadata page markdown store w = (Ok r, w') ->
  success r = true ->
  classification w' page = UNCHANGED
  /\ (forall pages,
      exists changed,
        detectChanges pages w' = (Ok changed, w') /\ ~ In page changed)
  /\ (forall other, id other <> id page ->
        classification w' other = classification w other)
  /\ (primary_key (synced_pages w) -> primary_key (synced_pages w')).
Proof.
  intros Hsave Hok.
  pose proof (savePageWithMetadata_success_records _ _ _ _ _ _ Hsave Hok)
    as Hrec.
  assert (Hc : classification w' page = UNCHANGED).
  { apply synced_page_unchanged. exists (record_of w page store).
    now repeat split. }
  destruct (savePageWithMetadata_success_run _ _ _ _ _ _ Hsave Hok)
    as (w1 & Hw & ->).
  split; [exact Hc|]. split; [|split].
  - intros pages. eexists. split; [apply detectChanges_run|].
    intros Hin. apply emits_In in Hin. tauto.
  - intros other Hne. unfold classification, lookup.
    cbn [synced_pages set_synced_pages].
    now rewrite find_upsert_other.
  - cbn [synced_pages set_synced_pages]. apply upsert_row_primary_key.
Qed.

Lemma saved_page_is_unchanged_witness :
  classification
    (snd (savePageWithMetadata (sample_page "2" "B" 2) (str "# B") None
            sample_world))
    (sample_page "2" "B" 2)
  = UNCHANGED.
Proof.
  apply (saved_page_is_unchanged sample_world (sample_page "2" "B" 2)
           (str "# B") None
           (match fst (savePageWithMetadata (sample_page "2" "B" 2)
                         (str "# B") None sample_world) with
            | Ok r => r
            | Throw _ => {| success := false; filePath := None;
                            pageId := None; error := None |}
            end));
    vm_compute; reflexivity.
Defined.

(** * A renamed page leaves an orphaned file *)

Lemma upsert_row_twice r1 r2 rows :
  page_id r1 = page_id r2 ->
  upsert_row r2 (upsert_row r1 rows) = upsert_row r2 rows.
Proof.
  intros E. induction rows as [|r rest IH]; simpl.
  - unfold has_id. now rewrite E, str_eqb_refl.
  - rewrite E. destruct (has_id (page_id r2) r) eqn:Hr; simpl.
    + unfold has_id. now rewrite E, str_eqb_refl.
    + now rewrite Hr, IH.
Qed.

Lemma upsert_row_In r row rows :
  In r (upsert_row row rows) -> r = row \/ In r rows.
Proof.
  induction rows as [|x rest IH]; simpl.
  - intros [<-|[]]. now left.
  - destruct (has_id (page_id row) x); simpl.
    + intros [<-|H]; auto.
    + intros [<-|H]; auto. destruct (IH H); auto.
Qed.

Lemma file_content_is_file f p d :
  file_content f p = Some d -> is_file f p = true.
Proof.
  unfold file_content, is_file.
  destruct (find _ (fs_files f)) as [e|] eqn:E; [|discriminate].
  intros _. apply find_some in E. destruct E as [Hin He].
  apply str_eqb_eq in He. apply str_mem_In. rewrite <- He.
  now apply in_map.
Qed.

Lemma children_intro dir name paths :
  ~ In SLASH name -> In (path_join dir name) paths ->
  In name (children dir paths).
Proof.
  intros Hn Hin. unfold children. apply in_flat_map.
  exists (path_join dir name). split; [exact Hin|].
  rewrite (split_last_slash_path_join dir name Hn), str_eqb_refl.
  now left.
Qed.

Lemma writeFileSync_parent w w1 p data :
  writeFileSync p data w = (Ok tt, w1) ->
  parent_exists (fs w) p = true /\ is_dir (fs w) p = false.
Proof.
  unfold writeFileSync.
  destruct (fs_fault w (FsWrite p)); [discriminate|].
  destruct (is_dir (fs w) p); [discriminate|].
  destruct (parent_exists (fs w) p); [now split | discriminate].
Qed.

(** X18: a rename leaves the old file behind as an orphan.  When a page is
    saved, and saved again under a title with another sanitised form, the
    second save writes a new file and moves the record to it; the first
    file stays on disk, and unless a record named it before,
    [findOrphanedFiles] then reports it. *)
Theorem renamed_page_leaves_orphan (w w1 w2 : World) (page renamed : Page)
    (markdown markdown' : jsstring) (store store' : option jsstring)
    (r1 r2 : SaveResult) :
  savePageWithMetadata page markdown store w = (Ok r1, w1) ->
  success r1 = true ->
  savePageWithMetadata renamed markdown' store' w1 = (Ok r2, w2) ->
  success r2 = true ->
  id renamed = id page ->
  page_space_key renamed = page_space_key page ->
  sanitizeFilename (title renamed) <> sanitizeFilename (title page) ->
  ~ In SLASH (page_space_key page) ->
  ~ In SLASH (id page) ->
  (forall r, In r (synced_pages w) -> file_path r <> Some (artifact_path w page)) ->
  filePath r2 <> filePath r1
  /\ exists orphaned,
       findOrphanedFiles (contentDir (config w)) w2 = (Ok orphaned, w2)
       /\ In (artifact_path w page) orphaned.
Proof.
  intros H1 Hok1 H2 Hok2 Hid Hkey Htitle Hk Hi Hfree.
  destruct (savePageWithMetadata_success_run _ _ _ _ _ _ H1 Hok1)
    as (wa & Hwa & ->).
  destruct (savePageWithMetadata_success_run _ _ _ _ _ _ H2 Hok2)
    as (wb & Hwb & ->).
  destruct (writeFileSync_keeps _ _ _ _ _ Hwa) as (Hsa & Hca & _).
  destruct (writeFileSync_content _ _ _ _ Hwa) as (Cold & _ & Hda & _).
  destruct (writeFileSync_parent _ _ _ _ Hwa) as (Hpa & Hnda).
  set (w1 := set_synced_pages
               (upsert_row (record_of w page store) (synced_pages w)) wa)
    in *.
  destruct (writeFileSync_keeps _ _ _ _ _ Hwb) as (Hsb & Hcb & _).
  destruct (writeFileSync_content _ _ _ _ Hwb) as (_ & Cother & Hdb & _).
  assert (Hcfg : config w1 = config w) by exact Hca.
  assert (Hnew : artifact_path w1 renamed <> artifact_path w page).
  { unfold artifact_path, path_join, generateFilename. rewrite Hcfg.
    cbv zeta. rewrite Hid, Hkey. intros E.
    apply app_inv_head in E. apply app_inv_head in E.
    rewrite <- !app_assoc in E. repeat apply app_inv_head in E.
    apply app_inv_tail in E. contradiction. }
  assert (Hr1 : filePath r1 = Some (artifact_path w page)).
  { revert H1. unfold savePageWithMetadata, bind at 1.
    rewrite savePage_run, Hwa. cbn [success negb filePath].
    unfold try_catch, bind, now_iso, page_url, ret.
    destruct (db_upsertPage _ _) as [[u|m] wx]; intros E; inversion E;
      reflexivity. }
  assert (Hr2 : filePath r2 = Some (artifact_path w1 renamed)).
  { revert H2. unfold savePageWithMetadata, bind at 1.
    rewrite savePage_run, Hwb. cbn [success negb filePath].
    unfold try_catch, bind, now_iso, page_url, ret.
    destruct (db_upsertPage _ _) as [[u|m] wx]; intros E; inversion E;
      reflexivity. }
  split; [rewrite Hr1, Hr2; congruence|].
  set (w2 := set_synced_pages
               (upsert_row (record_of w1 renamed store') (synced_pages w1))
               wb).
  assert (Hdir : forall q, is_dir (fs w2) q = is_dir (fs w) q).
  { intros q. unfold is_dir. cbn [w2 fs set_synced_pages].
    rewrite Hdb. cbn [w1 fs set_synced_pages]. now rewrite Hda. }
  assert (Hfile : is_file (fs w2) (artifact_path w page) = true).
  { apply file_content_is_file with (d := markdown).
    cbn [w2 fs set_synced_pages]. rewrite Cother by congruence.
    exact Cold. }
  assert (Hcontent : is_dir (fs w) (contentDir (config w)) = true).
  { revert Hpa. unfold parent_exists, artifact_path.
    now rewrite (split_last_slash_path_join _ _
                   (generateFilename_no_slash _ Hk Hi)). }
  destruct (findOrphanedFiles_exact_run (contentDir (config w)) w2)
    as (orphaned & Hrun & Hl); [now rewrite Hdir|].
  exists orphaned. split; [exact Hrun|]. apply Hl.
  unfold artifact_path at 1. apply Orphaned_here.
  - apply children_intro; [now apply generateFilename_no_slash|].
    unfold fs_paths. apply in_or_app. right. now apply str_mem_In.
  - fold (artifact_path w page). now rewrite Hdir.
  - apply endsWith_app. reflexivity.
  - fold (artifact_path w page).
    destruct (has_path (known_paths w2) (artifact_path w page)) eqn:Hp;
      [|reflexivity].
    exfalso. apply has_path_In in Hp. unfold known_paths in Hp.
    apply in_map_iff in Hp. destruct Hp as (r & Hfp & Hr).
    cbn [w2 synced_pages set_synced_pages] in Hr.
    cbn [w1 synced_pages set_synced_pages] in Hr.
    rewrite upsert_row_twice in Hr by (cbn; congruence).
    apply upsert_row_In in Hr. destruct Hr as [->|Hr].
    + cbn in Hfp. congruence.
    + now apply (Hfree r Hr).
Qed.

Lemma renamed_page_leaves_orphan_witness :
  exists orphaned,
    findOrphanedFiles (str "/content")
      (snd (savePageWithMetadata (sample_page "2" "B renamed" 3) (str "# B")
              None
              (snd (savePageWithMetadata (sample_page "2" "B" 2) (str "# B")
                      None sample_world))))
    = (Ok orphaned,
       snd (savePageWithMetadata (sample_page "2" "B renamed" 3) (str "# B")
              None
              (snd (savePageWithMetadata (sample_page "2" "B" 2) (str "# B")
                      None sample_world))))
    /\ In (str "/content/dev_2_b.md") orphaned.
Proof.
  apply (renamed_page_leaves_orphan sample_world
           (snd (savePageWithMetadata (sample_page "2" "B" 2) (str "# B")
                   None sample_world))
           (snd (savePageWithMetadata (sample_page "2" "B renamed" 3)
                   (str "# B") None
                   (snd (savePageWithMetadata (sample_page "2" "B" 2)
                           (str "# B") None sample_world))))
           (sample_page "2" "B" 2) (sample_page "2" "B renamed" 3)
           (str "# B") (str "# B") None None
           (value_or no_result
              (fst (savePageWithMetadata (sample_page "2" "B" 2) (str "# B")
                      None sample_world)))
           (value_or no_result
              (fst (savePageWithMetadata (sample_page "2" "B renamed" 3)
                      (str "# B") None
                      (snd (savePageWithMetadata (sample_page "2" "B" 2)
                              (str "# B") None sample_world))))));
    try (vm_compute; reflexivity);
    try (vm_compute; intuition discriminate).
  intros r [<-|[<-|[]]]; vm_compute; discriminate.
Defined.

(** * PageStorage.cleanupOrphanedFiles *)




(** * ConfluenceClient.getAllPages on a paginated source *)

Lemma firstn_add_skipn {A : Type} (n m : nat) :
  forall l : list A, firstn (n + m) l = firstn n l ++ firstn m (skipn n l).
Proof.
  induction n as [|n IH]; intros l; [reflexivity|].
  destruct l as [|x l]; simpl.
  - now rewrite firstn_nil.
  - now rewrite IH.
Qed.

Lemma getAllPages_turn_query spaceKey limit st w :
  getAllPages_turn spaceKey limit st w
  = match remote w (page_query w spaceKey limit (start st)) with
    | Ok response =>
        let results := match response with
                       | Some results => results
                       | None => []
                       end in
        (Ok {| fetched := fetched st ++ results;
               start := start st + limit;
               hasMore := Z.of_nat (length results) =? limit |}, w)
    | Throw m => (Throw (fetch_error spaceKey m), w)
    end.
Proof.
  unfold getAllPages_turn, try_catch, bind, get_content, throw, ret,
    page_query, fetch_error.
  cbv zeta. now destruct (remote w _) as [[results|]|m].
Qed.

Lemma getAllPages_loop_paginated spaceKey limit w space :
  serves w spaceKey space ->
  1 <= limit ->
  forall fuel st,
    (exists j, start st = Z.of_nat j * limit) ->
    fetched st = firstn (Z.to_nat (start st)) space ->
    (hasMore st = false -> fetched st = space) ->
    hasMore st = false
    \/ maxPagesPerSync (config w) - Z.of_nat (length (fetched st))
       < Z.of_nat fuel ->
    exists n,
      getAllPages_loop fuel spaceKey limit st w
      = (Ok (Some (firstn n space)), w)
      /\ (exists j, n = (j * Z.to_nat limit)%nat)
      /\ (Z.of_nat (length space) <= maxPagesPerSync (config w) ->
          firstn n space = space)
      /\ (maxPagesPerSync (config w) <= Z.of_nat (length space) ->
          maxPagesPerSync (config w) <= Z.of_nat (length (firstn n space))).
Proof.
  intros Hserves Hlimit.
  assert (Hexit : forall st,
            (exists j, start st = Z.of_nat j * limit) ->
            fetched st = firstn (Z.to_nat (start st)) space ->
            (hasMore st = false -> fetched st = space) ->
            hasMore st
            && (Z.of_nat (length (fetched st)) <? maxPagesPerSync (config w))
            = false ->
            exists n,
              fetched st = firstn n space
              /\ (exists j, n = (j * Z.to_nat limit)%nat)
              /\ (Z.of_nat (length space) <= maxPagesPerSync (config w) ->
                  firstn n space = space)
              /\ (maxPagesPerSync (config w) <= Z.of_nat (length space) ->
                  maxPagesPerSync (config w)
                  <= Z.of_nat (length (firstn n space)))).
  { intros st (j & Hj) Hf Hdone Hcond.
    exists (Z.to_nat (start st)). split; [exact Hf|]. split.
    { exists j. rewrite Hj, Z2Nat.inj_mul by lia. now rewrite Nat2Z.id. }
    rewrite <- Hf.
    apply andb_false_iff in Hcond. destruct Hcond as [Hm|Hlen].
    - rewrite (Hdone Hm). split; [reflexivity | lia].
    - apply Z.ltb_ge in Hlen. split; [|intros _; exact Hlen].
      intros Hsmall. rewrite Hf. apply firstn_all2.
      rewrite Hf, length_firstn in Hlen. lia. }
  intros fuel. induction fuel as [|fuel IH]; intros st Hj Hf Hdone Hfuel.
  - cbn [getAllPages_loop].
    destruct (hasMore st
              && (Z.of_nat (length (fetched st))
                  <? maxPagesPerSync (config w))) eqn:Hcond.
    + apply andb_true_iff in Hcond. destruct Hcond as [Hm Hlt].
      apply Z.ltb_lt in Hlt.
      destruct Hfuel as [Hfuel|Hfuel]; [congruence | simpl in Hfuel; lia].
    + destruct (Hexit st Hj Hf Hdone Hcond) as (n & -> & Hn).
      exists n. split; [reflexivity | exact Hn].
  - cbn [getAllPages_loop].
    destruct (hasMore st
              && (Z.of_nat (length (fetched st))
                  <? maxPagesPerSync (config w))) eqn:Hcond.
    2:{ destruct (Hexit st Hj Hf Hdone Hcond) as (n & -> & Hn).
        exists n. split; [reflexivity | exact Hn]. }
    apply andb_true_iff in Hcond. destruct Hcond as [Hm Hlt].
    apply Z.ltb_lt in Hlt.
    destruct Hfuel as [Hfuel|Hfuel]; [congruence|].
    destruct Hj as (j & Hj).
    unfold bind. rewrite getAllPages_turn_query.
    rewrite (Hserves limit (start st)) by lia. cbv zeta.
    apply IH; cbn [fetched start hasMore].
    + exists (S j). rewrite Hj. lia.
    + rewrite Hf, Z2Nat.inj_add by lia. now rewrite firstn_add_skipn.
    + intros Hshort. apply Z.eqb_neq in Hshort.
      rewrite length_firstn in Hshort.
      rewrite firstn_all2 by lia.
      rewrite Hf. apply firstn_skipn.
    + destruct (Z.eqb_spec
                  (Z.of_nat (length (firstn (Z.to_nat limit)
                                       (skipn (Z.to_nat (start st)) space))))
                  limit) as [Hfull|]; [right | now left].
      rewrite length_app. lia.
Qed.

(** X20: on a source that serves the pages of a space in slices,
    [getAllPages] with [limit >= 1] returns a prefix of the space made of
    whole batches, with nothing left out or repeated: the whole space when
    it has at most [maxPagesPerSync] pages, and at least [maxPagesPerSync]
    pages of it otherwise. *)
Theorem getAllPages_returns_prefix (w : World) (spaceKey : jsstring)
    (limit : Z) (space : list Page) (fuel : nat) :
  serves w spaceKey space ->
  1 <= limit ->
  maxPagesPerSync (config w) < Z.of_nat fuel ->
  exists n,
    getAllPages fuel spaceKey limit w = (Ok (Some (firstn n space)), w)
    /\ (exists j, n = (j * Z.to_nat limit)%nat)
    /\ (Z.of_nat (length space) <= maxPagesPerSync (config w) ->
        firstn n space = space)
    /\ (maxPagesPerSync (config w) <= Z.of_nat (length space) ->
        maxPagesPerSync (config w) <= Z.of_nat (length (firstn n space))).
Proof.
  intros Hserves Hlimit Hfuel. unfold getAllPages.
  apply (getAllPages_loop_paginated spaceKey limit w space Hserves Hlimit);
    cbn [fetched start hasMore].
  - exists 0%nat. lia.
  - reflexivity.
  - discriminate.
  - right. simpl. lia.
Qed.

Lemma getAllPages_returns_prefix_witness :
  exists n,
    getAllPages 151 (str "DEV") 100 sample_world
    = (Ok (Some (firstn n remote_space)), sample_world)
    /\ (exists j, n = (j * Z.to_nat 100)%nat)
    /\ (Z.of_nat (length remote_space) <= maxPagesPerSync (config sample_world)
        -> firstn n remote_space = remote_space)
    /\ (maxPagesPerSync (config sample_world) <= Z.of_nat (length remote_space)
        -> maxPagesPerSync (config sample_world)
           <= Z.of_nat (length (firstn n remote_space))).
Proof.
  apply (getAllPages_returns_prefix sample_world (str "DEV") 100 remote_space
           151).
  - intros limit from _ _. reflexivity.
  - lia.
  - vm_compute. reflexivity.
Defined.

Lemma getAllPages_loop_failure spaceKey limit w :
  forall fuel st j message w',
    start st = Z.of_nat j * limit ->
    getAllPages_loop fuel spaceKey limit st w = (Throw message, w') ->
    w' = w
    /\ exists i m,
         remote w (page_query w spaceKey limit (Z.of_nat i * limit)) = Throw m
         /\ message = fetch_error spaceKey m.
Proof.
  induction fuel as [|fuel IH]; intros st j message w' Hj;
    cbn [getAllPages_loop];
    destruct (hasMore st
              && (Z.of_nat (length (fetched st))
                  <? maxPagesPerSync (config w))); try discriminate.
  unfold bind. rewrite getAllPages_turn_query.
  destruct (remote w (page_query w spaceKey limit (start st)))
    as [response|m] eqn:E.
  - cbv zeta. apply (IH _ (S j)). cbn [start]. rewrite Hj. lia.
  - intros H. inversion H. subst. split; [reflexivity|].
    exists j, m. rewrite <- Hj. now split.
Qed.

(** X21: when [getAllPages] throws, one of its requests for a batch of the
    space has failed, the message is that of the request behind the prefix
    "Failed to fetch pages from space K: ", added once, and the pages fetched
    before are not returned. *)
Theorem getAllPages_failure_wrapped (w w' : World) (spaceKey : jsstring)
    (limit : Z) (fuel : nat) (message : jsstring) :
  getAllPages fuel spaceKey limit w = (Throw message, w') ->
  w' = w
  /\ exists i m,
       remote w (page_query w spaceKey limit (Z.of_nat i * limit)) = Throw m
       /\ message = fetch_error spaceKey m.
Proof.
  unfold getAllPages. apply (getAllPages_loop_failure _ _ _ _ _ 0%nat).
  reflexivity.
Qed.

Lemma getAllPages_failure_wrapped_witness :
  flaky_world = flaky_world
  /\ exists i m,
       remote flaky_world
         (page_query flaky_world (str "DEV") 100 (Z.of_nat i * 100)) = Throw m
       /\ str "Failed to fetch pages from space DEV: ETIMEDOUT"
          = fetch_error (str "DEV") m.
Proof.
  apply (getAllPages_failure_wrapped flaky_world flaky_world (str "DEV") 100
           3 (str "Failed to fetch pages from space DEV: ETIMEDOUT")).
  vm_compute. reflexivity.
Defined.

Lemma getAllPages_loop_overshoot spaceKey limit w bound :
  (forall from results,
     remote w (page_query w spaceKey limit from) = Ok (Some results) ->
     Z.of_nat (length results) <= limit) ->
  0 <= limit ->
  maxPagesPerSync (config w) - 1 + limit <= bound ->
  forall fuel st pages w',
    Z.of_nat (length (fetched st)) <= bound ->
    getAllPages_loop fuel spaceKey limit st w = (Ok (Some pages), w') ->
    Z.of_nat (length pages) <= bound.
Proof.
  intros Hbatch Hlimit Hbound fuel.
  induction fuel as [|fuel IH]; intros st pages w' Hst;
    cbn [getAllPages_loop];
    destruct (hasMore st
              && (Z.of_nat (length (fetched st))
                  <? maxPagesPerSync (config w))) eqn:Hcond;
    try discriminate;
    try (intros E; inversion E; now subst).
  apply andb_true_iff in Hcond. destruct Hcond as [_ Hlt].
  apply Z.ltb_lt in Hlt.
  unfold bind. rewrite getAllPages_turn_query.
  destruct (remote w (page_query w spaceKey limit (start st)))
    as [[results|]|m] eqn:E; try discriminate; cbv zeta;
    apply IH; cbn [fetched]; rewrite length_app.
  - apply Hbatch in E. lia.
  - simpl. lia.
Qed.

(** X22: when no batch is longer than [limit >= 1], [getAllPages] with more
    fuel than [maxPagesPerSync] ends without a change of the world, with an
    error or with at most [maxPagesPerSync - 1 + limit] pages: the bound
    that the loop does keep. *)
Theorem getAllPages_overshoot_bounded (w : World) (spaceKey : jsstring)
    (limit : Z) (fuel : nat) :
  (forall from results,
     remote w (page_query w spaceKey limit from) = Ok (Some results) ->
     Z.of_nat (length results) <= limit) ->
  1 <= limit ->
  maxPagesPerSync (config w) < Z.of_nat fuel ->
  exists o,
    getAllPages fuel spaceKey limit w = (o, w)
    /\ o <> Ok None
    /\ forall pages,
         o = Ok (Some pages) ->
         Z.of_nat (length pages)
         <= Z.max 0 (maxPagesPerSync (config w) - 1 + limit).
Proof.
  intros Hbatch Hlimit Hfuel. unfold getAllPages.
  destruct (getAllPages_loop_terminates spaceKey limit w Hlimit fuel
              {| fetched := []; start := 0; hasMore := true |})
    as (o & Ho & Hsome).
  { right. simpl. lia. }
  exists o. split; [exact Ho|]. split; [exact Hsome|].
  intros pages ->.
  apply (getAllPages_loop_overshoot spaceKey limit w
           (Z.max 0 (maxPagesPerSync (config w) - 1 + limit)) Hbatch)
    in Ho; [exact Ho | lia | lia | simpl; lia].
Qed.

Lemma getAllPages_overshoot_bounded_witness :
  exists o,
    getAllPages 151 (str "DEV") 100 sample_world = (o, sample_world)
    /\ o <> Ok None
    /\ forall pages,
         o = Ok (Some pages) ->
         Z.of_nat (length pages)
         <= Z.max 0 (maxPagesPerSync (config sample_world) - 1 + 100).
Proof.
  apply (getAllPages_overshoot_bounded sample_world (str "DEV") 100 151).
  - intros from results H.
    change (Ok (Some (firstn (Z.to_nat 100)
                        (skipn (Z.to_nat from) remote_space)))
            = Ok (Some results)) in H.
    assert (Hr : results = firstn (Z.to_nat 100)
                             (skipn (Z.to_nat from) remote_space))
      by congruence.
    rewrite Hr, length_firstn. lia.
  - lia.
  - vm_compute. reflexivity.
Defined.

(** * Detecting deletions, cleaning up, detecting again *)

Lemma db_deletePage_rows pid w o w' :
  db_deletePage pid w = (o, w') ->
  forall r,
    In r (synced_pages w')
    <-> In r (synced_pages w)
        /\ (page_id r = pid -> db_fault w (DbDelete pid) <> None).
Proof.
  unfold db_deletePage.
  destruct (db_fault w (DbDelete pid)) as [m|]; intros E; inversion E; subst;
    intros r.
  - split; [intros H; split; [exact H | discriminate] | tauto].
  - simpl. rewrite filter_In, negb_true_iff. unfold has_id.
    rewrite str_eqb_neq. split.
    + intros [H Hn]. split; [exact H | intros Hp; contradiction].
    + intros [H Hn]. split; [exact H|]. intros Hp. now apply (Hn Hp).
Qed.

Lemma attempt_page_rows page w :
  forall r,
    In r (synced_pages (snd (attempt_page page w)))
    <-> In r (synced_pages w)
        /\ (page_id r = page_id page ->
            db_fault w (DbDelete (page_id page)) <> None).
Proof.
  intros r. unfold attempt_page.
  destruct (db_deletePage (page_id page) w) as [[u|m] w1] eqn:Ed;
    pose proof (db_deletePage_rows _ _ _ _ Ed r) as Hrows;
    [|exact Hrows].
  destruct (artifact_present w1 page); [|exact Hrows].
  destruct (unlinkSync (path_of (file_path page)) w1) as [[u'|m] w2] eqn:Eu;
    destruct (unlinkSync_facts _ _ _ _ Eu) as (Hs & _);
    cbn [snd]; now rewrite Hs.
Qed.

Lemma attempts_rows pages :
  forall w r,
    In r (synced_pages (snd (attempts pages w)))
    <-> In r (synced_pages w)
        /\ (forall page, In page pages -> page_id r = page_id page ->
            db_fault w (DbDelete (page_id page)) <> None).
Proof.
  induction pages as [|page rest IH]; intros w r.
  - simpl. split; [intros H; split; [exact H | contradiction] | tauto].
  - simpl.
    pose proof (attempt_page_rows page w r) as Hpage.
    destruct (attempt_page_facts page w) as (Hfault & _).
    destruct (attempt_page page w) as [a w1]. cbn [fst snd] in *.
    specialize (IH w1 r).
    destruct (attempts rest w1) as [trace w2]. cbn [fst snd] in *.
    rewrite IH, Hpage, Hfault. split.
    + intros [[H Hp] Hrest]. split; [exact H|].
      intros p [<-|Hin]; [exact Hp | now apply Hrest].
    + intros [H Hall]. split; [split; [exact H|]|].
      * apply Hall. now left.
      * intros p Hin. apply Hall. now right.
Qed.

(** X23: after [cleanup] of the records that [detectDeletedPages] reported,
    a second [detectDeletedPages] on the same pages reports exactly the
    records whose deletion from the record store failed; it reports nothing
    when no deletion failed, whatever happened to the files. *)
Theorem cleanup_then_detect_again (w : World) (pages : list Page)
    (contentDir : jsstring) (deleted : list SyncedPage) :
  detectDeletedPages pages w = (Ok deleted, w) ->
  let w' := snd (cleanup deleted contentDir w) in
  exists again,
    detectDeletedPages pages w' = (Ok again, w')
    /\ (forall r,
          In r again
          <-> In r deleted /\ db_fault w (DbDelete (page_id r)) <> None)
    /\ ((forall r, In r deleted -> db_fault w (DbDelete (page_id r)) = None)
        -> again = []).
Proof.
  intros Hdet w'.
  assert (Hrows : forall r,
            In r (synced_pages w')
            <-> In r (synced_pages w)
                /\ (forall page, In page deleted ->
                    page_id r = page_id page ->
                    db_fault w (DbDelete (page_id page)) <> None)).
  { intros r. rewrite <- attempts_rows. subst w'.
    destruct (cleanup_run deleted contentDir w)
      as [(m & -> & _) | (results & wf & -> & _ & _ & _ & Hs)];
      cbn [snd]; [tauto | now rewrite Hs]. }
  rewrite detectDeletedPages_run in Hdet.
  assert (Hdel : forall r,
            In r deleted
            <-> (exists k, In k (map page_space_key pages)
                           /\ In r (synced_pages w) /\ space_key r = k)
                /\ ~ In (page_id r) (map id pages)).
  { intros r. inversion Hdet as [Hd]. rewrite not_in_confluence_In.
    rewrite in_flat_map. split.
    - intros [(k & Hk & Hr) Hn]. split; [|exact Hn].
      exists k. apply (proj1 (unique_In _ _)) in Hk.
      apply (proj1 (rows_of_space_In _ _ _)) in Hr. tauto.
    - intros [(k & Hk & Hr) Hn]. split; [|exact Hn].
      exists k. split; [now apply unique_In | now apply rows_of_space_In]. }
  clear Hdet.
  assert (Hagain : forall r,
            In r (not_in_confluence (unique (map id pages))
                    (flat_map (rows_of_space w')
                       (unique (map page_space_key pages))))
            <-> In r deleted /\ db_fault w (DbDelete (page_id r)) <> None).
  { intros r. rewrite not_in_confluence_In, in_flat_map. split.
    - intros [(k & Hk & Hr) Hn].
      apply (proj1 (unique_In _ _)) in Hk.
      apply (proj1 (rows_of_space_In _ _ _)) in Hr.
      destruct Hr as [Hr Hsp]. apply (proj1 (Hrows r)) in Hr.
      destruct Hr as [Hr Hfail].
      assert (Hin : In r deleted).
      { apply Hdel. split; [|exact Hn]. exists k. tauto. }
      split; [exact Hin | now apply (Hfail r)].
    - intros [Hin Hfail]. apply (proj1 (Hdel r)) in Hin.
      destruct Hin as [(k & Hk & Hr & Hsp) Hn]. split; [|exact Hn].
      exists k. split; [now apply unique_In|].
      apply rows_of_space_In. split; [|exact Hsp].
      apply Hrows. split; [exact Hr|].
      intros page _ Heq. now rewrite <- Heq. }
  eexists. split; [apply detectDeletedPages_run|]. split; [exact Hagain|].
  intros Hnone.
  destruct (not_in_confluence _ _) as [|r rest]; [reflexivity|].
  exfalso. destruct (proj1 (Hagain r) (or_introl eq_refl)) as [Hin Hfail].
  apply Hfail. now apply Hnone.
Qed.

Lemma cleanup_then_detect_again_witness :
  exists again,
    detectDeletedPages [sample_page "2" "B" 1]
      (snd (cleanup (synced_pages locked_world) (str "/content")
              locked_world))
    = (Ok again,
       snd (cleanup (synced_pages locked_world) (str "/content")
              locked_world))
    /\ (forall r,
          In r again
          <-> In r (synced_pages locked_world)
              /\ db_fault locked_world (DbDelete (page_id r)) <> None)
    /\ ((forall r, In r (synced_pages locked_world) ->
           db_fault locked_world (DbDelete (page_id r)) = None)
        -> again = []).
Proof.
  apply (cleanup_then_detect_again locked_world [sample_page "2" "B" 1]
           (str "/content") (synced_pages locked_world)).
  vm_compute. reflexivity.
Defined.

(** * Parsing the space keys *)

Lemma trimStart_split s :
  exists spaces,
    s = spaces ++ trimStart s /\ forallb isSpace spaces = true.
Proof.
  induction s as [|c s (spaces & IH & Hs)].
  - exists []. now split.
  - simpl. destruct (isSpace c) eqn:Hc.
    + exists (c :: spaces). simpl. rewrite Hc, Hs. split; [|reflexivity].
      now rewrite <- IH.
    + exists []. now split.
Qed.

Lemma trimStart_head s : starts_with_space (trimStart s) = false.
Proof.
  induction s as [|c s IH]; [reflexivity|].
  simpl. destruct (isSpace c) eqn:Hc; [exact IH | simpl; exact Hc].
Qed.

Lemma trimStart_spaces spaces s :
  forallb isSpace spaces = true -> trimStart (spaces ++ s) = trimStart s.
Proof.
  induction spaces as [|c spaces IH]; [reflexivity|].
  simpl. intros H. apply andb_true_iff in H. destruct H as [-> H]. auto.
Qed.

Lemma trimStart_clean s :
  starts_with_space s = false -> trimStart s = s.
Proof. destruct s as [|c s]; [reflexivity|]. simpl. now intros ->. Qed.

Lemma trimEnd_split s :
  exists spaces,
    s = trimEnd s ++ spaces /\ forallb isSpace spaces = true.
Proof.
  unfold trimEnd. destruct (trimStart_split (rev s)) as (spaces & E & Hs).
  exists (rev spaces). split.
  - rewrite <- rev_app_distr, <- E. now rewrite rev_involutive.
  - rewrite forallb_forall in *. intros c Hc. apply Hs. now apply in_rev.
Qed.

Lemma starts_with_space_app a b :
  a <> [] -> starts_with_space (a ++ b) = starts_with_space a.
Proof. destruct a; [congruence | reflexivity]. Qed.

Lemma trim_head s : starts_with_space (trim s) = false.
Proof.
  unfold trim. pose proof (trimStart_head s) as H.
  destruct (trimEnd_split (trimStart s)) as (spaces & E & _).
  destruct (trimEnd (trimStart s)) as [|c t] eqn:Et; [reflexivity|].
  rewrite E in H. exact H.
Qed.

Lemma trim_last s : starts_with_space (rev (trim s)) = false.
Proof.
  unfold trim, trimEnd. rewrite rev_involutive. apply trimStart_head.
Qed.

Lemma trim_In c s : In c (trim s) -> In c s.
Proof.
  unfold trim. intros H.
  destruct (trimStart_split s) as (a & Ea & _).
  destruct (trimEnd_split (trimStart s)) as (b & Eb & _).
  rewrite Ea, Eb. apply in_or_app. right. apply in_or_app. now left.
Qed.

Lemma js_split_pieces sep s :
  js_split sep s <> []
  /\ Forall (fun piece => ~ In sep piece) (js_split sep s).
Proof.
  induction s as [|c s [IHn IH]]; simpl.
  - split; [discriminate|]. constructor; [tauto | constructor].
  - destruct (Z.eqb_spec c sep) as [->|Hc].
    + split; [discriminate|]. constructor; [tauto | exact IH].
    + destruct (js_split sep s) as [|piece pieces]; [congruence|].
      split; [discriminate|]. inversion IH; subst.
      constructor; [|assumption]. simpl. tauto.
Qed.

Lemma js_split_none sep s : ~ In sep s -> js_split sep s = [s].
Proof.
  induction s as [|c s IH]; [reflexivity|]. simpl. intros H.
  destruct (Z.eqb_spec c sep) as [->|Hc]; [tauto|].
  rewrite IH by tauto. reflexivity.
Qed.

Lemma js_split_app sep a b :
  ~ In sep a -> js_split sep (a ++ sep :: b) = a :: js_split sep b.
Proof.
  induction a as [|c a IH]; simpl; intros H.
  - now rewrite Z.eqb_refl.
  - destruct (Z.eqb_spec c sep) as [->|Hc]; [tauto|].
    rewrite IH by tauto. reflexivity.
Qed.

Lemma spaces_no_comma spaces :
  forallb isSpace spaces = true -> ~ In COMMA spaces.
Proof.
  rewrite forallb_forall. intros H Hin. apply H in Hin. discriminate.
Qed.

Lemma clean_key_facts key :
  clean_key key = true ->
  key <> [] /\ ~ In COMMA key /\ starts_with_space key = false
  /\ starts_with_space (rev key) = false.
Proof.
  unfold clean_key. rewrite !andb_true_iff, !negb_true_iff.
  intros [[[Hlen Hcomma] Hs] He]. repeat split; auto.
  - intros ->. discriminate.
  - intros Hin.
    assert (Hex : existsb (Z.eqb COMMA) key = true).
    { apply existsb_exists. exists COMMA. split; [exact Hin|].
      apply Z.eqb_refl. }
    congruence.
Qed.

Lemma trim_padded a key b :
  forallb isSpace a = true -> forallb isSpace b = true ->
  clean_key key = true ->
  trim (a ++ key ++ b) = key.
Proof.
  intros Ha Hb Hkey.
  destruct (clean_key_facts key Hkey) as (Hne & _ & Hs & He).
  unfold trim. rewrite trimStart_spaces by exact Ha.
  rewrite trimStart_clean by (now rewrite starts_with_space_app).
  unfold trimEnd. rewrite rev_app_distr, trimStart_spaces.
  - rewrite trimStart_clean by exact He. apply rev_involutive.
  - rewrite forallb_forall in *. intros c Hc. apply Hb. now apply in_rev.
Qed.

(** X24: every key that [parseSpaceKeys] returns is clean: not empty,
    without a comma and without white space at its ends; and nothing is
    returned for a variable that is not set or empty. *)
Theorem parseSpaceKeys_keys_clean (spaceKeysString : option jsstring) :
  Forall (fun key => clean_key key = true) (parseSpaceKeys spaceKeysString)
  /\ (truthy spaceKeysString = false -> parseSpaceKeys spaceKeysString = []).
Proof.
  split.
  - destruct spaceKeysString as [s|]; [|constructor].
    unfold parseSpaceKeys. destruct (truthy (Some s)); [|constructor].
    apply Forall_forall. intros key Hkey.
    apply filter_In in Hkey. destruct Hkey as [Hin Hlen].
    apply in_map_iff in Hin. destruct Hin as (piece & <- & Hpiece).
    destruct (js_split_pieces COMMA s) as [_ Hall].
    rewrite Forall_forall in Hall. specialize (Hall piece Hpiece).
    unfold clean_key. rewrite !andb_true_iff, !negb_true_iff.
    split; [split; [split; [exact Hlen|] | apply trim_head]
           | apply trim_last].
    destruct (existsb (Z.eqb COMMA) (trim piece)) eqn:Hex; [|reflexivity].
    apply existsb_exists in Hex. destruct Hex as (c & Hc & Heq).
    apply Z.eqb_eq in Heq. subst c. apply trim_In in Hc. contradiction.
  - destruct spaceKeysString as [s|]; [|reflexivity].
    unfold parseSpaceKeys. now intros ->.
Qed.

Lemma parseSpaceKeys_join_from (before after : jsstring) :
  forallb isSpace before = true -> forallb isSpace after = true ->
  forall keys lead,
    keys <> [] ->
    forallb isSpace lead = true ->
    Forall (fun key => clean_key key = true) keys ->
    filter (fun key => 0 <? Z.of_nat (length key))
      (map trim
         (js_split COMMA
            (lead ++ join (before ++ [COMMA] ++ after) keys)))
    = keys.
Proof.
  intros Hb Ha keys.
  induction keys as [|key rest IH]; intros lead Hne Hlead Hall;
    [congruence|].
  inversion Hall as [|? ? Hkey Hrest]; subst.
  destruct (clean_key_facts key Hkey) as (Hk & Hcomma & _).
  assert (Hpos : (0 <? Z.of_nat (length key)) = true).
  { destruct key; [congruence | reflexivity]. }
  destruct rest as [|key' rest].
  - cbn [join]. rewrite js_split_none.
    + cbn [map]. replace (lead ++ key) with (lead ++ key ++ [])
        by (now rewrite app_nil_r).
      rewrite (trim_padded lead key [] Hlead eq_refl Hkey).
      cbn [filter]. now rewrite Hpos.
    + intros Hin. apply in_app_or in Hin.
      destruct Hin as [Hin|Hin]; [|contradiction].
      now apply (spaces_no_comma lead).
  - change (join (before ++ [COMMA] ++ after) (key :: key' :: rest))
      with (key ++ (before ++ [COMMA] ++ after)
              ++ join (before ++ [COMMA] ++ after) (key' :: rest)).
    replace (lead ++ key ++ (before ++ [COMMA] ++ after)
               ++ join (before ++ [COMMA] ++ after) (key' :: rest))
      with ((lead ++ key ++ before)
              ++ COMMA :: (after ++ join (before ++ [COMMA] ++ after)
                                      (key' :: rest)))
      by (rewrite <- !app_assoc; reflexivity).
    rewrite js_split_app.
    + cbn [map]. rewrite (trim_padded lead key before Hlead Hb Hkey).
      cbn [filter]. rewrite Hpos.
      f_equal. apply IH; [discriminate | exact Ha | exact Hrest].
    + intros Hin. apply in_app_or in Hin. destruct Hin as [Hin|Hin].
      { now apply (spaces_no_comma lead). }
      apply in_app_or in Hin. destruct Hin as [Hin|Hin]; [contradiction|].
      now apply (spaces_no_comma before).
Qed.

(** X25: [parseSpaceKeys] reads back a list of clean keys that was joined
    with commas, with any white space around the commas: the keys come
    back as they were, in their order. *)
Theorem parseSpaceKeys_reads_joined (keys : list jsstring)
    (before after : jsstring) :
  forallb isSpace before = true ->
  forallb isSpace after = true ->
  Forall (fun key => clean_key key = true) keys ->
  parseSpaceKeys (Some (join (before ++ [COMMA] ++ after) keys)) = keys.
Proof.
  intros Hb Ha Hall. destruct keys as [|key rest]; [reflexivity|].
  unfold parseSpaceKeys.
  destruct (truthy (Some (join (before ++ [COMMA] ++ after) (key :: rest))))
    eqn:Ht.
  - apply (parseSpaceKeys_join_from before after Hb Ha (key :: rest) []);
      [discriminate | reflexivity | exact Hall].
  - exfalso. inversion Hall as [|? ? Hkey _]; subst.
    destruct (clean_key_facts key Hkey) as (Hk & _).
    destruct key as [|c key]; [congruence|].
    destruct rest; discriminate.
Qed.

Lemma parseSpaceKeys_reads_joined_witness :
  parseSpaceKeys
    (Some (join ([] ++ [COMMA] ++ str " ") [str "DEV"; str "DOCS"]))
  = [str "DEV"; str "DOCS"].
Proof.
  apply (parseSpaceKeys_reads_joined [str "DEV"; str "DOCS"] [] (str " ")).
  - reflexivity.
  - reflexivity.
  - repeat constructor.
Defined.
